(** * Traffic simulation: a shallow embedding of the agent and control logic

    The development follows the Python sources file by file:
    [vehicle.py] (classes [Vehicle] and [Ambulance]), [traffic_light.py]
    (class [TrafficLight]), [pedestrian.py] (class [Pedestrian]) and the
    spawning part of [simulation.py] (class [TrafficSimulation]).

    Modelling conventions.
    - Python numbers (ints and floats mixed freely by the sources) are exact
      rationals [Q]; results are compared with [==] where a value is
      computed and with [=] where an object is left untouched.
    - The module [config.py] is not among the sources: its constants are the
      fields of the record [Config], and every definition takes the
      configuration as a parameter.
    - Objects live in a store: the list [vehicles] of the simulation is a
      [list Vehicle.t] and a vehicle object is its index in that list, so
      that [v == self] is index equality and a method that mutates an
      object returns the updated store.
    - String-valued enumerations ([state], [side], [vehicle_type]) are
      inductive types with one constructor per string used by the sources.
    - Drawing code and colours are left out. *)

From Stdlib Require Import ZArith QArith Qabs Qround Lqa Lia Bool List.
From stdpp Require Import base list.
Import ListNotations.

Local Open Scope Q_scope.

(** ** Numbers *)

Module Num.

(** [a < b] and [a <= b] as Python evaluates them, to a boolean. *)
Definition ltb (a b : Q) : bool := negb (Qle_bool b a).
Definition leb (a b : Q) : bool := Qle_bool a b.

(** [abs(a)]. *)
Definition abs (a : Q) : Q := Qabs a.

(** [min(a, b)]: Python keeps [a] unless [b] is strictly smaller. *)
Definition min2 (a b : Q) : Q := if ltb b a then b else a.

(** [max(a, b)] and [max(a, b, c)]: Python scans left to right and keeps
    the current maximum unless the next item is strictly larger. *)
Definition max2 (a b : Q) : Q := if ltb a b then b else a.
Definition max3 (a b c : Q) : Q := max2 (max2 a b) c.

(** [a // b] and [a % b] (floor division and its remainder). *)
Definition floordiv (a b : Q) : Q := inject_Z (Qfloor (a / b)).
Definition pymod (a b : Q) : Q := a - b * floordiv a b.

End Num.

Declare Scope py_scope.
Delimit Scope py_scope with py.
Infix "<?" := Num.ltb (at level 70, no associativity) : py_scope.
Infix "<=?" := Num.leb (at level 70, no associativity) : py_scope.
Local Open Scope py_scope.

(** ** Configuration

    The constants that the sources import from [config.py]. *)

Record Config := {
  SCREEN_WIDTH : Q;
  ROAD_Y_START : Q;
  ROAD_WIDTH : Q;
  LANE_WIDTH : Q;
  NUM_LANES : Z;
  INTERSECTION_X : Q;
  INTERSECTION_WIDTH : Q;
  SAFE_DISTANCE : Q;
  LANE_CHANGE_MIN_GAP : Q;
  LANE_CHANGE_COOLDOWN : Q;
  LIGHT_GREEN_TIME : Q;
  LIGHT_YELLOW_TIME : Q;
  ADAPTIVE_LIGHT_THRESHOLD : Q;
  CROSSWALK_WAIT_TIME : Q;
  PEDESTRIAN_SPEED : Q;
  SPAWN_INTERVAL : Q;
  AMBULANCE_SPAWN_CHANCE : Q;
  CAR_NORMAL_LENGTH : Q;
  CAR_NORMAL_WIDTH : Q;
  CAR_NORMAL_MAX_SPEED : Q;
  CAR_NORMAL_ACCELERATION : Q;
  TRUCK_LENGTH : Q;
  TRUCK_WIDTH : Q;
  TRUCK_MAX_SPEED : Q;
  TRUCK_ACCELERATION : Q;
  SPORTS_LENGTH : Q;
  SPORTS_WIDTH : Q;
  SPORTS_MAX_SPEED : Q;
  SPORTS_ACCELERATION : Q;
  AMBULANCE_LENGTH : Q;
  AMBULANCE_WIDTH : Q;
  AMBULANCE_MAX_SPEED : Q;
  AMBULANCE_ACCELERATION : Q
}.

(** ** Vehicles ([vehicle.py], class [Vehicle]) *)

Module Vehicle.

(** The strings ["car"], ["truck"], ["sports"] and ["ambulance"] that the
    four subclasses pass as [vehicle_type]. *)
Inductive VehicleType := car | truck | sports | ambulance.

Definition VehicleType_eqb (a b : VehicleType) : bool :=
  match a, b with
  | car, car | truck, truck | sports, sports | ambulance, ambulance => true
  | _, _ => false
  end.

(** The attributes set by [__init__]; [siren_state] is the attribute that
    the subclass [Ambulance] adds (unused by the other classes). *)
Record t := {
  x : Q;
  y : Q;
  lane : Z;
  direction : Z;
  length : Q;
  width : Q;
  max_speed : Q;
  acceleration : Q;
  vehicle_type : VehicleType;
  speed : Q;
  target_speed : Q;
  lane_change_cooldown : Q;
  passed_intersection : bool;
  stopped_at_light : bool;
  siren_state : Q
}.

(** Attribute assignments [self.f = a]. *)
Definition set_x (v : t) (a : Q) : t :=
  {| x := a; y := y v; lane := lane v; direction := direction v;
     length := length v; width := width v; max_speed := max_speed v;
     acceleration := acceleration v; vehicle_type := vehicle_type v;
     speed := speed v; target_speed := target_speed v;
     lane_change_cooldown := lane_change_cooldown v;
     passed_intersection := passed_intersection v;
     stopped_at_light := stopped_at_light v; siren_state := siren_state v |}.

Definition set_y (v : t) (a : Q) : t :=
  {| x := x v; y := a; lane := lane v; direction := direction v;
     length := length v; width := width v; max_speed := max_speed v;
     acceleration := acceleration v; vehicle_type := vehicle_type v;
     speed := speed v; target_speed := target_speed v;
     lane_change_cooldown := lane_change_cooldown v;
     passed_intersection := passed_intersection v;
     stopped_at_light := stopped_at_light v; siren_state := siren_state v |}.

Definition set_lane (v : t) (a : Z) : t :=
  {| x := x v; y := y v; lane := a; direction := direction v;
     length := length v; width := width v; max_speed := max_speed v;
     acceleration := acceleration v; vehicle_type := vehicle_type v;
     speed := speed v; target_speed := target_speed v;
     lane_change_cooldown := lane_change_cooldown v;
     passed_intersection := passed_intersection v;
     stopped_at_light := stopped_at_light v; siren_state := siren_state v |}.

Definition set_speed (v : t) (a : Q) : t :=
  {| x := x v; y := y v; lane := lane v; direction := direction v;
     length := length v; width := width v; max_speed := max_speed v;
     acceleration := acceleration v; vehicle_type := vehicle_type v;
     speed := a; target_speed := target_speed v;
     lane_change_cooldown := lane_change_cooldown v;
     passed_intersection := passed_intersection v;
     stopped_at_light := stopped_at_light v; siren_state := siren_state v |}.

Definition set_target_speed (v : t) (a : Q) : t :=
  {| x := x v; y := y v; lane := lane v; direction := direction v;
     length := length v; width := width v; max_speed := max_speed v;
     acceleration := acceleration v; vehicle_type := vehicle_type v;
     speed := speed v; target_speed := a;
     lane_change_cooldown := lane_change_cooldown v;
     passed_intersection := passed_intersection v;
     stopped_at_light := stopped_at_light v; siren_state := siren_state v |}.

Definition set_lane_change_cooldown (v : t) (a : Q) : t :=
  {| x := x v; y := y v; lane := lane v; direction := direction v;
     length := length v; width := width v; max_speed := max_speed v;
     acceleration := acceleration v; vehicle_type := vehicle_type v;
     speed := speed v; target_speed := target_speed v;
     lane_change_cooldown := a;
     passed_intersection := passed_intersection v;
     stopped_at_light := stopped_at_light v; siren_state := siren_state v |}.

Definition set_passed_intersection (v : t) (a : bool) : t :=
  {| x := x v; y := y v; lane := lane v; direction := direction v;
     length := length v; width := width v; max_speed := max_speed v;
     acceleration := acceleration v; vehicle_type := vehicle_type v;
     speed := speed v; target_speed := target_speed v;
     lane_change_cooldown := lane_change_cooldown v;
     passed_intersection := a;
     stopped_at_light := stopped_at_light v; siren_state := siren_state v |}.

Definition set_stopped_at_light (v : t) (a : bool) : t :=
  {| x := x v; y := y v; lane := lane v; direction := direction v;
     length := length v; width := width v; max_speed := max_speed v;
     acceleration := acceleration v; vehicle_type := vehicle_type v;
     speed := speed v; target_speed := target_speed v;
     lane_change_cooldown := lane_change_cooldown v;
     passed_intersection := passed_intersection v;
     stopped_at_light := a; siren_state := siren_state v |}.

Definition set_siren_state (v : t) (a : Q) : t :=
  {| x := x v; y := y v; lane := lane v; direction := direction v;
     length := length v; width := width v; max_speed := max_speed v;
     acceleration := acceleration v; vehicle_type := vehicle_type v;
     speed := speed v; target_speed := target_speed v;
     lane_change_cooldown := lane_change_cooldown v;
     passed_intersection := passed_intersection v;
     stopped_at_light := stopped_at_light v; siren_state := a |}.

(** [Vehicle.__init__]. *)
Definition init (x y : Q) (lane direction : Z)
    (length width max_speed acceleration : Q)
    (vehicle_type : VehicleType) : t :=
  {| x := x; y := y; lane := lane; direction := direction;
     length := length; width := width; max_speed := max_speed;
     acceleration := acceleration; vehicle_type := vehicle_type;
     speed := max_speed * 0.8;
     target_speed := max_speed;
     lane_change_cooldown := 0;
     passed_intersection := false;
     stopped_at_light := false;
     siren_state := 0 |}.

(** The constructors of the four subclasses. *)
Definition NormalCar (cfg : Config) (x y : Q) (lane direction : Z) : t :=
  init x y lane direction (CAR_NORMAL_LENGTH cfg) (CAR_NORMAL_WIDTH cfg)
    (CAR_NORMAL_MAX_SPEED cfg) (CAR_NORMAL_ACCELERATION cfg) car.

Definition Truck (cfg : Config) (x y : Q) (lane direction : Z) : t :=
  init x y lane direction (TRUCK_LENGTH cfg) (TRUCK_WIDTH cfg)
    (TRUCK_MAX_SPEED cfg) (TRUCK_ACCELERATION cfg) truck.

Definition SportsCar (cfg : Config) (x y : Q) (lane direction : Z) : t :=
  init x y lane direction (SPORTS_LENGTH cfg) (SPORTS_WIDTH cfg)
    (SPORTS_MAX_SPEED cfg) (SPORTS_ACCELERATION cfg) sports.

Definition Ambulance (cfg : Config) (x y : Q) (lane direction : Z) : t :=
  init x y lane direction (AMBULANCE_LENGTH cfg) (AMBULANCE_WIDTH cfg)
    (AMBULANCE_MAX_SPEED cfg) (AMBULANCE_ACCELERATION cfg) ambulance.

(** [get_front_x]. *)
Definition get_front_x (self : t) : Q :=
  if (direction self =? 1)%Z then x self else x self - length self.

(** [distance_to_vehicle]: front-to-rear distance, by direction. *)
Definition distance_to_vehicle (self other : t) : Q :=
  if (direction self =? 1)%Z
  then x other - (x self + length self)
  else (x self - length self) - x other.

(** [distance_to_light]; the argument [traffic_light] is not read by the
    source and is left out. *)
Definition distance_to_light (cfg : Config) (self : t) : Q :=
  if (direction self =? 1)%Z
  then INTERSECTION_X cfg - (x self + length self)
  else (x self - length self) - (INTERSECTION_X cfg + INTERSECTION_WIDTH cfg).

(** [distance < min_distance], where [None] is [float('inf')]. *)
Definition below (distance : Q) (min_distance : option Q) : bool :=
  match min_distance with
  | None => true
  | Some m => distance <? m
  end.

(** The loop of [find_vehicle_ahead] from position [k] of the list, with
    the loop variables [nearest] and [min_distance]. The object [self] is
    the vehicle stored at index [i]. *)
Fixpoint find_vehicle_ahead_from (i : nat) (self : t) (k : nat)
    (vs : list t) (nearest : option (nat * t)) (min_distance : option Q)
    : option (nat * t) :=
  match vs with
  | [] => nearest
  | v :: vs' =>
      if (k =? i)%nat || negb (lane v =? lane self)%Z
         || negb (direction v =? direction self)%Z
      then find_vehicle_ahead_from i self (S k) vs' nearest min_distance
      else
        let distance := distance_to_vehicle self v in
        if (0 <? distance) && below distance min_distance
        then find_vehicle_ahead_from i self (S k) vs'
               (Some (k, v)) (Some distance)
        else find_vehicle_ahead_from i self (S k) vs' nearest min_distance
  end.

(** [find_vehicle_ahead]: the nearest vehicle ahead, as its index in the
    store together with the object found there. *)
Definition find_vehicle_ahead (i : nat) (self : t) (vehicles : list t)
    : option (nat * t) :=
  find_vehicle_ahead_from i self 0 vehicles None None.

(** The two gaps computed in the loop of [can_change_lane]. *)
Definition gap_front (self v : t) : Q :=
  if (direction self =? 1)%Z
  then x v - (x self + length self)
  else (x self - length self) - x v.

Definition gap_rear (self v : t) : Q :=
  if (direction self =? 1)%Z
  then x self - (x v + length v)
  else x v - length v - x self.

(** The test that makes the loop return [False] on vehicle [v]. *)
Definition blocks (cfg : Config) (self v : t) : bool :=
  (- length self <? gap_front self v) && (- length self <? gap_rear self v)
  && ((Num.abs (gap_front self v) <? LANE_CHANGE_MIN_GAP cfg)
      || (Num.abs (gap_rear self v) <? LANE_CHANGE_MIN_GAP cfg)).

Fixpoint can_change_lane_from (cfg : Config) (i : nat) (self : t)
    (target_lane : Z) (k : nat) (vs : list t) : bool :=
  match vs with
  | [] => true
  | v :: vs' =>
      if (k =? i)%nat || negb (lane v =? target_lane)%Z
         || negb (direction v =? direction self)%Z
      then can_change_lane_from cfg i self target_lane (S k) vs'
      else if blocks cfg self v then false
      else can_change_lane_from cfg i self target_lane (S k) vs'
  end.

(** [can_change_lane]. *)
Definition can_change_lane (cfg : Config) (i : nat) (self : t)
    (target_lane : Z) (vehicles : list t) : bool :=
  if 0 <? lane_change_cooldown self then false
  else if (target_lane <? 0)%Z || (NUM_LANES cfg <=? target_lane)%Z then false
  else can_change_lane_from cfg i self target_lane 0 vehicles.

(** The list [lanes_to_try] built by [attempt_lane_change]. *)
Definition lanes_to_try (self : t) : list Z :=
  if (direction self =? 1)%Z then
    if (lane self =? 0)%Z then [1%Z]
    else if (lane self =? 1)%Z then [0%Z]
    else []
  else
    if (lane self =? 2)%Z then [3%Z]
    else if (lane self =? 3)%Z then [2%Z]
    else [].

(** The three assignments made when a lane change is applied. *)
Definition change_lane (cfg : Config) (self : t) (target_lane : Z) : t :=
  set_lane_change_cooldown
    (set_y (set_lane self target_lane)
       (ROAD_Y_START cfg + inject_Z target_lane * LANE_WIDTH cfg
        + Num.floordiv (LANE_WIDTH cfg - width self) 2))
    (LANE_CHANGE_COOLDOWN cfg).

(** The final loop of [attempt_lane_change], with its [break]. *)
Fixpoint try_lanes (cfg : Config) (i : nat) (self : t) (lanes : list Z)
    (vehicles : list t) : list t :=
  match lanes with
  | [] => vehicles
  | target_lane :: lanes' =>
      if can_change_lane cfg i self target_lane vehicles
      then <[i := change_lane cfg self target_lane]> vehicles
      else try_lanes cfg i self lanes' vehicles
  end.

(** [attempt_lane_change] called on the object at index [i]. *)
Definition attempt_lane_change (cfg : Config) (i : nat)
    (vehicles : list t) : list t :=
  match vehicles !! i with
  | None => vehicles
  | Some self =>
      match find_vehicle_ahead i self vehicles with
      | None => vehicles
      | Some (_, vehicle_ahead) =>
          let gap := distance_to_vehicle self vehicle_ahead in
          if SAFE_DISTANCE cfg * 2 <? gap then vehicles
          else try_lanes cfg i self (lanes_to_try self) vehicles
      end
  end.

End Vehicle.

(** ** The traffic light ([traffic_light.py], class [TrafficLight]) *)

Module TrafficLight.

(** The strings ["ew_green"], ["ew_yellow"], ["ns_green"], ["ns_yellow"]
    held by [self.state]. *)
Inductive State := ew_green | ew_yellow | ns_green | ns_yellow.

(** The strings ["green"], ["yellow"], ["red"] returned by
    [get_light_state]. *)
Inductive Color := green | yellow | red.

Record t := {
  state : State;
  timer : Q;
  adaptive_mode : bool
}.

(** [TrafficLight.__init__] (the positions of the lamps are only drawn). *)
Definition init : t :=
  {| state := ew_green; timer := 0; adaptive_mode := false |}.

(** The body of the loop of [calculate_adaptive_time]: does vehicle [v]
    count as waiting, and for which queue. *)
Definition waiting_near (cfg : Config) (v : Vehicle.t) : bool :=
  (Vehicle.speed v <? 10)
  && ((Vehicle.direction v =? 1)%Z || (Vehicle.direction v =? -1)%Z)
  && (Num.abs (Vehicle.get_front_x v - INTERSECTION_X cfg) <? 200).

Definition in_ew_lanes (v : Vehicle.t) : bool :=
  (Vehicle.lane v =? 0)%Z || (Vehicle.lane v =? 1)%Z.

(** The loop itself, with its two counters [ew_queue] and [ns_queue]. *)
Fixpoint count_queues (cfg : Config) (vehicles : list Vehicle.t)
    (ew_queue ns_queue : nat) : nat * nat :=
  match vehicles with
  | [] => (ew_queue, ns_queue)
  | v :: vs =>
      if waiting_near cfg v then
        if in_ew_lanes v
        then count_queues cfg vs (S ew_queue) ns_queue
        else count_queues cfg vs ew_queue (S ns_queue)
      else count_queues cfg vs ew_queue ns_queue
  end.

(** [calculate_adaptive_time]. *)
Definition calculate_adaptive_time (cfg : Config) (self : t)
    (vehicles : list Vehicle.t) : Q :=
  let '(ew_queue, ns_queue) := count_queues cfg vehicles 0 0 in
  let base_time := LIGHT_GREEN_TIME cfg in
  match state self with
  | ew_green | ew_yellow =>
      if ADAPTIVE_LIGHT_THRESHOLD cfg <? inject_Z (Z.of_nat ew_queue)
      then base_time * 1.5 else base_time
  | ns_green | ns_yellow =>
      if ADAPTIVE_LIGHT_THRESHOLD cfg <? inject_Z (Z.of_nat ns_queue)
      then base_time * 1.5 else base_time
  end.

(** The local [green_time] of [update]. *)
Definition green_time (cfg : Config) (self : t)
    (vehicles : list Vehicle.t) : Q :=
  if adaptive_mode self then calculate_adaptive_time cfg self vehicles
  else LIGHT_GREEN_TIME cfg.

(** One branch of the state machine: leave for [next] with the timer at
    0 once the timer has reached [duration]. *)
Definition advance (self : t) (timer' duration : Q) (next : State) : t :=
  if duration <=? timer'
  then {| state := next; timer := 0; adaptive_mode := adaptive_mode self |}
  else {| state := state self; timer := timer';
          adaptive_mode := adaptive_mode self |}.

(** [update]. *)
Definition update (cfg : Config) (self : t) (dt : Q)
    (vehicles : list Vehicle.t) (time_scale : Q) : t :=
  let dt := dt * time_scale in
  let timer' := timer self + dt in
  let green_time := green_time cfg self vehicles in
  match state self with
  | ew_green => advance self timer' green_time ew_yellow
  | ew_yellow => advance self timer' (LIGHT_YELLOW_TIME cfg) ns_green
  | ns_green => advance self timer' green_time ns_yellow
  | ns_yellow => advance self timer' (LIGHT_YELLOW_TIME cfg) ew_green
  end.

(** [get_light_state]. *)
Definition get_light_state (self : t) (direction : Z) : Color :=
  match state self with
  | ew_green => green
  | ew_yellow => yellow
  | ns_green | ns_yellow => red
  end.

(** [toggle_adaptive]. *)
Definition toggle_adaptive (self : t) : t :=
  {| state := state self; timer := timer self;
     adaptive_mode := negb (adaptive_mode self) |}.

End TrafficLight.

(** ** [Vehicle.update] ([vehicle.py])

    The method reads the traffic light, so it comes after [TrafficLight]. *)

Module VehicleUpdate.
Import Vehicle.

(** [if self.lane_change_cooldown > 0: self.lane_change_cooldown -= dt]. *)
Definition tick_cooldown (self : t) (dt : Q) : t :=
  if 0 <? lane_change_cooldown self
  then set_lane_change_cooldown self (lane_change_cooldown self - dt)
  else self.

(** The local [should_stop_at_light]. *)
Definition should_stop_at_light (cfg : Config) (self : t)
    (traffic_light : TrafficLight.t) : bool :=
  let light_distance := distance_to_light cfg self in
  (0 <? light_distance) && (light_distance <? 150)
  && match TrafficLight.get_light_state traffic_light (direction self) with
     | TrafficLight.red | TrafficLight.yellow => true
     | TrafficLight.green => false
     end.

(** The condition of the first branch of "Determine target speed". *)
Definition braking_for_light (cfg : Config) (self : t)
    (traffic_light : TrafficLight.t) : bool :=
  should_stop_at_light cfg self traffic_light
  && (distance_to_light cfg self <? 100).

(** "Determine target speed": the three-way branch, which assigns
    [target_speed] and may clear [stopped_at_light]. *)
Definition determine_target (cfg : Config) (self : t)
    (vehicle_ahead : option (nat * t))
    (traffic_light : TrafficLight.t) : t :=
  let light_distance := distance_to_light cfg self in
  if braking_for_light cfg self traffic_light then
    let stop_distance := Num.max2 (light_distance - 10) 0 in
    if stop_distance <? 50 then set_target_speed self 0
    else set_target_speed self (max_speed self * (stop_distance / 100))
  else
    match vehicle_ahead with
    | Some (_, ahead) =>
        let gap := distance_to_vehicle self ahead in
        if gap <? SAFE_DISTANCE cfg
        then set_target_speed self (speed ahead * 0.9)
        else if gap <? SAFE_DISTANCE cfg * 2
        then set_target_speed self (speed ahead)
        else set_target_speed self (max_speed self)
    | None =>
        let self := set_target_speed self (max_speed self) in
        if stopped_at_light self
           && negb (Qeq_bool light_distance 0) && (50 <? light_distance)
        then set_stopped_at_light self false
        else self
    end.

(** "Accelerate/decelerate smoothly". [Ambulance.update] repeats the same
    statements (with [decel] written in place), so it uses this
    definition too. *)
Definition integrate_speed (self : t) (dt : Q) : t :=
  if speed self <? target_speed self then
    set_speed self
      (Num.min2 (speed self + acceleration self * dt) (target_speed self))
  else if target_speed self <? speed self then
    let decel := acceleration self * 1.5 in
    set_speed self
      (Num.max3 (speed self - decel * dt) (target_speed self) 0)
  else self.

(** "Move vehicle". *)
Definition move (self : t) (dt : Q) : t :=
  set_x self (x self + speed self * dt * inject_Z (direction self)).

(** "Mark if passed intersection". *)
Definition mark_passed (cfg : Config) (self : t) : t :=
  if (direction self =? 1)%Z
     && (INTERSECTION_X cfg + INTERSECTION_WIDTH cfg <? x self)
  then set_passed_intersection self true
  else if (direction self =? -1)%Z && (x self <? INTERSECTION_X cfg)
  then set_passed_intersection self true
  else self.

(** [Vehicle.update], as the new value of the object [self] stored at
    index [i] of [vehicles]; no other object is touched. *)
Definition update_self (cfg : Config) (i : nat) (self : t) (dt : Q)
    (vehicles : list t) (traffic_light : TrafficLight.t)
    (time_scale : Q) : t :=
  let dt := dt * time_scale in
  let self := tick_cooldown self dt in
  let vehicle_ahead := find_vehicle_ahead i self vehicles in
  let self :=
    if should_stop_at_light cfg self traffic_light
    then set_stopped_at_light self true else self in
  let self := determine_target cfg self vehicle_ahead traffic_light in
  let self := integrate_speed self dt in
  let self := move self dt in
  mark_passed cfg self.

(** [vehicles[i].update(dt, vehicles, traffic_light, time_scale)] on the
    store. *)
Definition update (cfg : Config) (i : nat) (dt : Q) (vehicles : list t)
    (traffic_light : TrafficLight.t) (time_scale : Q) : list t :=
  match vehicles !! i with
  | None => vehicles
  | Some self =>
      <[i := update_self cfg i self dt vehicles traffic_light time_scale]>
        vehicles
  end.

End VehicleUpdate.

(** ** Emergency vehicles ([vehicle.py], class [Ambulance]) *)

Module Ambulance.
Import Vehicle.

(** The loop of [clear_path] over the positions [ks] of the list; every
    [attempt_lane_change] is applied to the store before the next
    position is read. *)
Fixpoint clear_path_from (cfg : Config) (i : nat) (self : t)
    (ks : list nat) (vehicles : list t) : list t :=
  match ks with
  | [] => vehicles
  | k :: ks' =>
      match vehicles !! k with
      | None => vehicles
      | Some v =>
          if (k =? i)%nat || VehicleType_eqb (vehicle_type v) ambulance
          then clear_path_from cfg i self ks' vehicles
          else if (lane v =? lane self)%Z
                  && (direction v =? direction self)%Z
          then
            let distance := distance_to_vehicle self v in
            if (0 <? distance) && (distance <? 150)
            then clear_path_from cfg i self ks'
                   (attempt_lane_change cfg k vehicles)
            else clear_path_from cfg i self ks' vehicles
          else clear_path_from cfg i self ks' vehicles
      end
  end.

(** [clear_path]. *)
Definition clear_path (cfg : Config) (i : nat) (self : t)
    (vehicles : list t) : list t :=
  clear_path_from cfg i self (seq 0 (List.length vehicles)) vehicles.

(** The local [should_slow_at_light]. *)
Definition should_slow_at_light (cfg : Config) (self : t)
    (traffic_light : TrafficLight.t) : bool :=
  let light_distance := distance_to_light cfg self in
  (0 <? light_distance) && (light_distance <? 80)
  && match TrafficLight.get_light_state traffic_light (direction self) with
     | TrafficLight.red => true
     | _ => false
     end.

(** The three-way branch that assigns [target_speed]. *)
Definition determine_target (cfg : Config) (self : t)
    (vehicle_ahead : option (nat * t))
    (traffic_light : TrafficLight.t) : t :=
  if should_slow_at_light cfg self traffic_light
     && (distance_to_light cfg self <? 60)
  then set_target_speed self (max_speed self * 0.5)
  else
    match vehicle_ahead with
    | Some (_, ahead) =>
        let gap := distance_to_vehicle self ahead in
        if gap <? SAFE_DISTANCE cfg * 0.5
        then set_target_speed self (speed ahead * 0.95)
        else set_target_speed self (max_speed self)
    | None => set_target_speed self (max_speed self)
    end.

(** The statements of [Ambulance.update] up to and including the call of
    [clear_path]: the new [self] and the store after the clearing pass. *)
Definition prepare (cfg : Config) (i : nat) (self : t) (dt : Q)
    (vehicles : list t) : t * list t :=
  let self := set_siren_state self
                (Num.pymod (siren_state self + dt * 5) 2) in
  let self := VehicleUpdate.tick_cooldown self dt in
  let vehicles := <[i := self]> vehicles in
  (self, clear_path cfg i self vehicles).

(** The statements after the call of [clear_path]. *)
Definition drive (cfg : Config) (i : nat) (self : t) (dt : Q)
    (vehicles : list t) (traffic_light : TrafficLight.t) : t :=
  let vehicle_ahead := find_vehicle_ahead i self vehicles in
  let self := determine_target cfg self vehicle_ahead traffic_light in
  let self := VehicleUpdate.integrate_speed self dt in
  let self := VehicleUpdate.move self dt in
  VehicleUpdate.mark_passed cfg self.

(** [Ambulance.update] on the store. *)
Definition update (cfg : Config) (i : nat) (dt : Q) (vehicles : list t)
    (traffic_light : TrafficLight.t) (time_scale : Q) : list t :=
  match vehicles !! i with
  | None => vehicles
  | Some self =>
      let dt := dt * time_scale in
      let '(self, vehicles) := prepare cfg i self dt vehicles in
      <[i := drive cfg i self dt vehicles traffic_light]> vehicles
  end.

End Ambulance.

(** ** Pedestrians ([pedestrian.py], class [Pedestrian]) *)

Module Pedestrian.

(** The strings ["top"] and ["bottom"] passed as [side]. *)
Inductive Side := top | bottom.

(** The strings ["waiting"], ["crossing"], ["done"] held by [state]. *)
Inductive State := waiting | crossing | done.

Record t := {
  side : Side;
  direction : Z;
  state : State;
  wait_timer : Q;
  x : Q;
  y : Q;
  target_y : Q
}.

(** [Pedestrian.__init__]. *)
Definition init (cfg : Config) (side : Side) (direction : Z) : t :=
  {| side := side;
     direction := direction;
     state := waiting;
     wait_timer := 0;
     x := if (direction =? 1)%Z then INTERSECTION_X cfg - 50
          else INTERSECTION_X cfg + INTERSECTION_WIDTH cfg + 50;
     y := match side with
          | top => ROAD_Y_START cfg - 30
          | bottom => ROAD_Y_START cfg + ROAD_WIDTH cfg + 30
          end;
     target_y := match side with
                 | top => ROAD_Y_START cfg + ROAD_WIDTH cfg + 30
                 | bottom => ROAD_Y_START cfg - 30
                 end |}.

Definition set_state (p : t) (s : State) : t :=
  {| side := side p; direction := direction p; state := s;
     wait_timer := wait_timer p; x := x p; y := y p;
     target_y := target_y p |}.

Definition set_wait_timer (p : t) (a : Q) : t :=
  {| side := side p; direction := direction p; state := state p;
     wait_timer := a; x := x p; y := y p; target_y := target_y p |}.

Definition set_y (p : t) (a : Q) : t :=
  {| side := side p; direction := direction p; state := state p;
     wait_timer := wait_timer p; x := x p; y := a;
     target_y := target_y p |}.

(** [traffic_light.state in ['ns_green', 'ns_yellow']]. *)
Definition may_cross (traffic_light : TrafficLight.t) : bool :=
  match TrafficLight.state traffic_light with
  | TrafficLight.ns_green | TrafficLight.ns_yellow => true
  | _ => false
  end.

(** The comparison of [y] with [target_y] made after a crossing step,
    [>=] from the top side and [<=] from the bottom side. *)
Definition reached (p : t) : bool :=
  match side p with
  | top => target_y p <=? y p
  | bottom => y p <=? target_y p
  end.

(** The assignment to [y] of a crossing step. *)
Definition step_y (cfg : Config) (p : t) (dt : Q) : t :=
  match side p with
  | top => set_y p (y p + PEDESTRIAN_SPEED cfg * dt)
  | bottom => set_y p (y p - PEDESTRIAN_SPEED cfg * dt)
  end.

(** [update]. *)
Definition update (cfg : Config) (self : t) (dt : Q)
    (traffic_light : TrafficLight.t) (time_scale : Q) : t :=
  let dt := dt * time_scale in
  match state self with
  | waiting =>
      let self := set_wait_timer self (wait_timer self + dt) in
      if CROSSWALK_WAIT_TIME cfg <? wait_timer self then
        if may_cross traffic_light then set_state self crossing else self
      else self
  | crossing =>
      let self := step_y cfg self dt in
      if reached self then set_state self done else self
  | done => self
  end.

(** [is_done]. *)
Definition is_done (self : t) : bool :=
  match state self with done => true | _ => false end.

(** The arguments [(dt, traffic_light, time_scale)] of one call of
    [update], and a sequence of calls on the same pedestrian. *)
Definition Call : Type := Q * TrafficLight.t * Q.

Definition update_call (cfg : Config) (self : t) (c : Call) : t :=
  let '(dt, traffic_light, time_scale) := c in
  update cfg self dt traffic_light time_scale.

Definition updates (cfg : Config) (self : t) (calls : list Call) : t :=
  fold_left (update_call cfg) calls self.

(** The position of a state along waiting, crossing, done. *)
Definition rank (s : State) : nat :=
  match s with waiting => 0 | crossing => 1 | done => 2 end.

(** How many calls of a sequence take the pedestrian from a state other
    than [done] to [done]. *)
Fixpoint done_entries (cfg : Config) (self : t) (calls : list Call) : nat :=
  match calls with
  | [] => 0
  | c :: calls' =>
      let self' := update_call cfg self c in
      (if negb (is_done self) && is_done self' then 1 else 0)%nat
      + done_entries cfg self' calls'
  end.

End Pedestrian.

(** ** Spawning ([simulation.py], class [TrafficSimulation])

    The calls of [random.random()] and [random.choice] are inputs: [rand]
    and [rand_direction] are the numbers drawn, [first_lane] tells whether
    [random.choice] picked the first of its two lanes. *)

Module TrafficSimulation.

(** The call [vehicle.update(dt, self.vehicles, self.traffic_light,
    self.time_scale)] of the vehicle loop of [update], on the object at
    index [i]: Python runs the method of the object's class, which is
    [Ambulance] exactly for the objects tagged ["ambulance"]. *)
Definition update_vehicle (cfg : Config) (i : nat) (dt : Q)
    (vehicles : list Vehicle.t) (traffic_light : TrafficLight.t)
    (time_scale : Q) : list Vehicle.t :=
  match vehicles !! i with
  | None => vehicles
  | Some v =>
      match Vehicle.vehicle_type v with
      | Vehicle.ambulance =>
          Ambulance.update cfg i dt vehicles traffic_light time_scale
      | _ => VehicleUpdate.update cfg i dt vehicles traffic_light time_scale
      end
  end.

(** [create_random_vehicle]. *)
Definition create_random_vehicle (cfg : Config) (rand : Q) (x y : Q)
    (lane direction : Z) : Vehicle.t :=
  if rand <? AMBULANCE_SPAWN_CHANCE cfg
  then Vehicle.Ambulance cfg x y lane direction
  else if rand <? 0.15 then Vehicle.Truck cfg x y lane direction
  else if rand <? 0.25 then Vehicle.SportsCar cfg x y lane direction
  else Vehicle.NormalCar cfg x y lane direction.

(** The choice of [direction], [lane] and [x] at the top of
    [spawn_vehicle]. *)
Definition spawn_direction (rand_direction : Q) : Z :=
  if rand_direction <? 0.5 then 1%Z else (-1)%Z.

Definition spawn_lane (rand_direction : Q) (first_lane : bool) : Z :=
  if rand_direction <? 0.5
  then (if first_lane then 0%Z else 1%Z)
  else (if first_lane then 2%Z else 3%Z).

Definition spawn_x (cfg : Config) (rand_direction : Q) : Q :=
  if rand_direction <? 0.5 then -100 else SCREEN_WIDTH cfg + 100.

(** The test under which the loop of [spawn_vehicle] clears
    [can_spawn]. *)
Definition occupies_entry (cfg : Config) (lane direction : Z)
    (v : Vehicle.t) : bool :=
  (Vehicle.lane v =? lane)%Z && (Vehicle.direction v =? direction)%Z
  && (((direction =? 1)%Z && (Vehicle.x v <? 200))
      || ((direction =? -1)%Z
          && (SCREEN_WIDTH cfg - 200 <? Vehicle.x v))).

(** The loop, with its flag [can_spawn]. *)
Fixpoint check_spawn (cfg : Config) (lane direction : Z)
    (vehicles : list Vehicle.t) (can_spawn : bool) : bool :=
  match vehicles with
  | [] => can_spawn
  | v :: vs =>
      if occupies_entry cfg lane direction v
      then check_spawn cfg lane direction vs false
      else check_spawn cfg lane direction vs can_spawn
  end.

(** [spawn_vehicle]: the new value of [self.vehicles]. *)
Definition spawn_vehicle (cfg : Config) (rand_direction : Q)
    (first_lane : bool) (rand : Q) (vehicles : list Vehicle.t)
    : list Vehicle.t :=
  let direction := spawn_direction rand_direction in
  let lane := spawn_lane rand_direction first_lane in
  let x := spawn_x cfg rand_direction in
  let y := ROAD_Y_START cfg + inject_Z lane * LANE_WIDTH cfg
           + Num.floordiv (LANE_WIDTH cfg - CAR_NORMAL_WIDTH cfg) 2 in
  if check_spawn cfg lane direction vehicles true
  then vehicles ++ [create_random_vehicle cfg rand x y lane direction]
  else vehicles.

(** "Spawn new vehicles" in [update]: the new values of
    [self.spawn_timer] and [self.vehicles]. *)
Definition spawn_phase (cfg : Config) (dt time_scale : Q)
    (rand_direction : Q) (first_lane : bool) (rand : Q)
    (spawn_timer : Q) (vehicles : list Vehicle.t)
    : Q * list Vehicle.t :=
  let spawn_timer := spawn_timer + dt * time_scale in
  if SPAWN_INTERVAL cfg <=? spawn_timer
  then (0, spawn_vehicle cfg rand_direction first_lane rand vehicles)
  else (spawn_timer, vehicles).

End TrafficSimulation.

(** ** The adaptive green time as the specification words it

    Used to compare [TrafficLight.calculate_adaptive_time] with: the number
    of vehicles that are nearly stopped (speed below 10), have their front
    within 200 units of the intersection and drive in a given lane group;
    the lane group of the axis a light state belongs to; and the green
    duration chosen from the count of that group. *)

Module AdaptiveSpec.

Definition near_stopped (v : Vehicle.t) : bool := Vehicle.speed v <? 10.

Definition front_within_200 (cfg : Config) (v : Vehicle.t) : bool :=
  Num.abs (Vehicle.get_front_x v - INTERSECTION_X cfg) <? 200.

Definition in_group (group : list Z) (v : Vehicle.t) : bool :=
  existsb (Z.eqb (Vehicle.lane v)) group.

Definition queue (cfg : Config) (group : list Z)
    (vehicles : list Vehicle.t) : nat :=
  List.length
    (List.filter
       (fun v => near_stopped v && front_within_200 cfg v
                 && in_group group v)
       vehicles).

Definition axis_lanes (s : TrafficLight.State) : list Z :=
  match s with
  | TrafficLight.ew_green | TrafficLight.ew_yellow => [0%Z; 1%Z]
  | TrafficLight.ns_green | TrafficLight.ns_yellow => [2%Z; 3%Z]
  end.

Definition green_duration (cfg : Config) (l : TrafficLight.t)
    (vehicles : list Vehicle.t) : Q :=
  if ADAPTIVE_LIGHT_THRESHOLD cfg
     <? inject_Z (Z.of_nat (queue cfg (axis_lanes (TrafficLight.state l))
                              vehicles))
  then LIGHT_GREEN_TIME cfg * 1.5
  else LIGHT_GREEN_TIME cfg.

(** Vehicles as the data model has them: direction +1 or -1, lane 0 to
    3. *)
Definition valid_vehicle (v : Vehicle.t) : bool :=
  ((Vehicle.direction v =? 1)%Z || (Vehicle.direction v =? -1)%Z)
  && (0 <=? Vehicle.lane v)%Z && (Vehicle.lane v <=? 3)%Z.

End AdaptiveSpec.

(** ** A configuration to run the model on

    [config.py] is not among the sources; these values are only used to
    evaluate the definitions on concrete scenes ([SAFE_DISTANCE] is the 80
    of the specification's scenario). *)

Definition sample_config : Config :=
  {| SCREEN_WIDTH := 1400;
     ROAD_Y_START := 300;
     ROAD_WIDTH := 240;
     LANE_WIDTH := 60;
     NUM_LANES := 4;
     INTERSECTION_X := 650;
     INTERSECTION_WIDTH := 100;
     SAFE_DISTANCE := 80;
     LANE_CHANGE_MIN_GAP := 60;
     LANE_CHANGE_COOLDOWN := 3;
     LIGHT_GREEN_TIME := 10;
     LIGHT_YELLOW_TIME := 3;
     ADAPTIVE_LIGHT_THRESHOLD := 3;
     CROSSWALK_WAIT_TIME := 2;
     PEDESTRIAN_SPEED := 50;
     SPAWN_INTERVAL := 2;
     AMBULANCE_SPAWN_CHANCE := 0.05;
     CAR_NORMAL_LENGTH := 40;
     CAR_NORMAL_WIDTH := 24;
     CAR_NORMAL_MAX_SPEED := 120;
     CAR_NORMAL_ACCELERATION := 60;
     TRUCK_LENGTH := 70;
     TRUCK_WIDTH := 28;
     TRUCK_MAX_SPEED := 80;
     TRUCK_ACCELERATION := 30;
     SPORTS_LENGTH := 45;
     SPORTS_WIDTH := 22;
     SPORTS_MAX_SPEED := 180;
     SPORTS_ACCELERATION := 100;
     AMBULANCE_LENGTH := 60;
     AMBULANCE_WIDTH := 26;
     AMBULANCE_MAX_SPEED := 160;
     AMBULANCE_ACCELERATION := 80 |}.

(** ** Two readings of the spawn check *)

Module SpawnSpec.

(** The check as the specification words it, "no existing vehicle in the
    same lane and direction is within a 200-unit buffer of the entry
    point": the distance between the vehicle's [x] and the entry point is
    at most 200. *)
Definition within_entry_buffer (entry_x : Q) (v : Vehicle.t) : bool :=
  Num.abs (Vehicle.x v - entry_x) <=? 200.

Definition entry_buffer_clear (lane direction : Z) (entry_x : Q)
    (vehicles : list Vehicle.t) : bool :=
  forallb
    (fun v => negb ((Vehicle.lane v =? lane)%Z
                    && (Vehicle.direction v =? direction)%Z
                    && within_entry_buffer entry_x v))
    vehicles.

(** The check as the loop of [spawn_vehicle] makes it: a vehicle occupies
    the entry zone when it has the same lane and direction, and [x] below
    200 for right-moving traffic or above [SCREEN_WIDTH - 200] for
    left-moving traffic. *)
Definition in_entry_zone (cfg : Config) (lane direction : Z)
    (v : Vehicle.t) : Prop :=
  Vehicle.lane v = lane /\ Vehicle.direction v = direction
  /\ ((direction = 1%Z /\ Vehicle.x v < 200)
      \/ (direction = (-1)%Z /\ SCREEN_WIDTH cfg - 200 < Vehicle.x v)).

End SpawnSpec.

(** ** Runs of the traffic light

    Repeated calls of [TrafficLight.update] with the same arguments, and
    the length of a cycle counted in calls and in simulated time. *)

Module LightRun.
Import TrafficLight.

Definition State_eqb (a b : State) : bool :=
  match a, b with
  | ew_green, ew_green | ew_yellow, ew_yellow
  | ns_green, ns_green | ns_yellow, ns_yellow => true
  | _, _ => false
  end.

(** The order ew_green, ew_yellow, ns_green, ns_yellow, ew_green. *)
Definition next (s : State) : State :=
  match s with
  | ew_green => ew_yellow
  | ew_yellow => ns_green
  | ns_green => ns_yellow
  | ns_yellow => ew_green
  end.

(** The duration of a state in fixed mode. *)
Definition duration (cfg : Config) (s : State) : Q :=
  match s with
  | ew_green | ns_green => LIGHT_GREEN_TIME cfg
  | ew_yellow | ns_yellow => LIGHT_YELLOW_TIME cfg
  end.

(** [n] calls of [update]. *)
Fixpoint run (cfg : Config) (dt : Q) (vehicles : list Vehicle.t) (ts : Q)
    (n : nat) (l : t) : t :=
  match n with
  | O => l
  | S n' => run cfg dt vehicles ts n' (update cfg l dt vehicles ts)
  end.

(** The number of calls of [update] after which the state has changed
    [k] times, if that happens within [fuel] calls. *)
Fixpoint calls_for_transitions (cfg : Config) (dt : Q)
    (vehicles : list Vehicle.t) (ts : Q) (fuel k : nat) (l : t)
    {struct fuel} : option nat :=
  match k, fuel with
  | O, _ => Some O
  | S _, O => None
  | S k', S fuel' =>
      let l' := update cfg l dt vehicles ts in
      option_map S
        (calls_for_transitions cfg dt vehicles ts fuel'
           (if State_eqb (state l') (state l) then k else k') l')
  end.

(** The simulated time of a full cycle (four changes of state): the
    number of calls times the scaled time step of a call. *)
Definition cycle_duration (cfg : Config) (dt : Q)
    (vehicles : list Vehicle.t) (ts : Q) (fuel : nat) (l : t) : option Q :=
  option_map (fun n => inject_Z (Z.of_nat n) * (dt * ts))
    (calls_for_transitions cfg dt vehicles ts fuel 4 l).

End LightRun.

(** ** Intermediate values of [Vehicle.update] *)

Module UpdateSteps.
Import Vehicle VehicleUpdate.

(** Two values of the same object that agree on everything but the
    bookkeeping fields [lane_change_cooldown], [stopped_at_light] and
    [siren_state]. *)
Definition same_car (a b : t) : Prop :=
  x a = x b /\ y a = y b /\ lane a = lane b /\ direction a = direction b
  /\ length a = length b /\ width a = width b
  /\ max_speed a = max_speed b /\ acceleration a = acceleration b
  /\ vehicle_type a = vehicle_type b /\ speed a = speed b
  /\ target_speed a = target_speed b.

(** The value of [self] on which "Determine target speed" runs. *)
Definition before_target (cfg : Config) (self : t) (dt : Q)
    (traffic_light : TrafficLight.t) : t :=
  if should_stop_at_light cfg (tick_cooldown self dt) traffic_light
  then set_stopped_at_light (tick_cooldown self dt) true
  else tick_cooldown self dt.

(** Vehicle [w], stored at index [k], is another vehicle ahead of [self]
    (stored at index [i]) in the lane and direction of [self]: its
    front-to-rear distance from [self] is positive. *)
Definition ahead_of (i : nat) (self : t) (k : nat) (w : t) : Prop :=
  k <> i /\ lane w = lane self /\ direction w = direction self
  /\ 0 < distance_to_vehicle self w.

(** [v], stored at index [j], is a nearest vehicle ahead of [self]. *)
Definition nearest_ahead (i : nat) (self : t) (vehicles : list t)
    (j : nat) (v : t) : Prop :=
  vehicles !! j = Some v /\ ahead_of i self j v
  /\ forall k w, vehicles !! k = Some w -> ahead_of i self k w ->
       distance_to_vehicle self v <= distance_to_vehicle self w.

Definition nothing_ahead (i : nat) (self : t) (vehicles : list t) : Prop :=
  forall k w, vehicles !! k = Some w -> ~ ahead_of i self k w.

(** What holds of the loop variables of [find_vehicle_ahead] once the
    vehicles of the prefix [pre] of the store [all] have been visited. *)
Definition find_invariant (i : nat) (self : t) (all pre : list t)
    (nearest : option (nat * t)) (min_distance : option Q) : Prop :=
  match nearest, min_distance with
  | None, None => nothing_ahead i self pre
  | Some (j, v), Some m =>
      m = distance_to_vehicle self v
      /\ all !! j = Some v /\ ahead_of i self j v
      /\ forall k w, pre !! k = Some w -> ahead_of i self k w ->
           m <= distance_to_vehicle self w
  | _, _ => False
  end.

(** What [find_vehicle_ahead] promises about its result. *)
Definition find_result (i : nat) (self : t) (vehicles : list t)
    (r : option (nat * t)) : Prop :=
  match r with
  | Some (j, v) => nearest_ahead i self vehicles j v
  | None => nothing_ahead i self vehicles
  end.

(** The local [stop_distance] of the braking branch. *)
Definition stop_distance (cfg : Config) (self : t) : Q :=
  Num.max2 (distance_to_light cfg self - 10) 0.

End UpdateSteps.

(** ** Scenes

    Concrete stores and lights, built with [sample_config], on which the
    properties below are evaluated. *)

Module Scenes.

(** Four stopped cars queue in lane 0 before the intersection. *)
Definition queued_car (x : Q) : Vehicle.t :=
  Vehicle.set_speed (Vehicle.NormalCar sample_config x 318 0 1) 0.

Definition queue_scene : list Vehicle.t :=
  [queued_car 600; queued_car 550; queued_car 500; queued_car 460].

(** One car in lane 0, moving right, at [x = 150]; a spawn request for a
    right-moving vehicle in lane 0 has its entry point at [x = -100]. *)
Definition car_at_150 : Vehicle.t :=
  Vehicle.NormalCar sample_config 150 318 0 1.

(** A light that shows red to the road ([ns_green]). *)
Definition red_light : TrafficLight.t :=
  {| TrafficLight.state := TrafficLight.ns_green;
     TrafficLight.timer := 0;
     TrafficLight.adaptive_mode := false |}.

(** A car whose front is 80 units before the stop line. *)
Definition braking_car : Vehicle.t :=
  Vehicle.NormalCar sample_config 530 318 0 1.

(** The close-following scenario: a follower [A] in lane 0, moving right,
    at [x = 100] with speed 50, and a leader [B] in the same lane at
    [x = 130] with speed 40. [A] is 20 long, so that [B] is ahead of its
    front. The intersection of [sample_config] is far away. *)
Definition follower_A : Vehicle.t :=
  Vehicle.set_speed (Vehicle.init 100 318 0 1 20 24 120 60 Vehicle.car) 50.

Definition leader_B : Vehicle.t :=
  Vehicle.set_speed (Vehicle.NormalCar sample_config 130 318 0 1) 40.

Definition following_scene : list Vehicle.t := [follower_A; leader_B].

(** The same positions with a follower of the length of a normal car, 40:
    its front, at 140, is beyond the rear of [B]. *)
Definition long_follower : Vehicle.t :=
  Vehicle.set_speed (Vehicle.NormalCar sample_config 100 318 0 1) 50.

Definition hidden_leader_scene : list Vehicle.t := [long_follower; leader_B].

(** A truck (maximum speed 80) that follows a sports car (speed 144) at a
    front-to-rear distance of 100, between [SAFE_DISTANCE] and twice
    [SAFE_DISTANCE]; both as their constructors leave them. In the second
    store the truck already drives at its maximum speed. *)
Definition truck_T : Vehicle.t := Vehicle.Truck sample_config 0 316 0 1.

Definition sports_S : Vehicle.t := Vehicle.SportsCar sample_config 170 319 0 1.

Definition chase_scene : list Vehicle.t := [truck_T; sports_S].

Definition chase_scene_at_max : list Vehicle.t :=
  [Vehicle.set_speed truck_T 80; sports_S].

(** A car in lane 1, moving right, alone on the road. *)
Definition lone_car : Vehicle.t := Vehicle.NormalCar sample_config 100 378 1 1.

(** A car in lane 0 at [x = 100] (front at 140) and a car in lane 1 whose
    rear, at [x = 150], is 10 units ahead of that front. *)
Definition changing_car : Vehicle.t :=
  Vehicle.NormalCar sample_config 100 318 0 1.

Definition neighbour_car : Vehicle.t :=
  Vehicle.NormalCar sample_config 150 378 1 1.

Definition squeeze_scene : list Vehicle.t :=
  [changing_car; neighbour_car; Vehicle.NormalCar sample_config 200 318 0 1].

(** Two cars of the same length side by side, at [x = 100], in lanes 0
    and 1, and a third car 60 units ahead of the first in lane 0. *)
Definition twin_car : Vehicle.t :=
  Vehicle.NormalCar sample_config 100 318 0 1.

Definition twin_neighbour : Vehicle.t :=
  Vehicle.NormalCar sample_config 100 378 1 1.

Definition twin_scene : list Vehicle.t :=
  [twin_car; twin_neighbour; Vehicle.NormalCar sample_config 200 318 0 1].

(** An ambulance in lane 0 with a car 100 units ahead of its front in the
    same lane; nothing else on the road, lane 1 is empty. In the second
    store a further car drives 60 units ahead of the blocking car. *)
Definition ambulance_E : Vehicle.t :=
  Vehicle.Ambulance sample_config 0 317 0 1.

Definition blocker : Vehicle.t := Vehicle.NormalCar sample_config 160 318 0 1.

Definition emergency_scene : list Vehicle.t := [ambulance_E; blocker].

Definition emergency_scene_with_leader : list Vehicle.t :=
  [ambulance_E; blocker; Vehicle.NormalCar sample_config 260 318 0 1].

(** A pedestrian starting from the top side ([y = 270], target 570), and
    nine calls of one second under a light that lets pedestrians cross:
    three calls of waiting (the wait time is 2) and six crossing steps of
    50 units. *)
Definition walker : Pedestrian.t := Pedestrian.init sample_config Pedestrian.top 1.

Definition walk_calls : list Pedestrian.Call :=
  repeat (1, red_light, 1) 9.

End Scenes.

(** ** The simulation manager ([simulation.py], the rest of class
    [TrafficSimulation])

    The screen and the fonts are left out. The constants of [config.py]
    that only this part reads are the fields of [ControlConfig]. Every
    call of [random.random()] or [random.choice] is an input, gathered in
    the records [InitialDraws] (one loop of [spawn_initial_vehicles] draws
    a lane and a class per vehicle) and [Draws] (one call of [update]). *)

Module Simulation.

Record ControlConfig := {
  TIME_SCALE_STEP : Q;
  TIME_SCALE_MIN : Q;
  TIME_SCALE_MAX : Q;
  PEDESTRIAN_SPAWN_INTERVAL : Q;
  INITIAL_SPAWN_COUNT : Z
}.

(** The attributes of a [TrafficSimulation] object. *)
Record t := {
  vehicles : list Vehicle.t;
  pedestrians : list Pedestrian.t;
  traffic_light : TrafficLight.t;
  paused : bool;
  time_scale : Q;
  spawn_timer : Q;
  pedestrian_spawn_timer : Q;
  total_cars_passed : Z;
  total_distance_traveled : Q;
  simulation_time : Q
}.

(** The draws of [spawn_initial_vehicles]: for the [i]-th vehicle of the
    right-moving and of the left-moving loop, whether [random.choice]
    picked the first lane of the pair, and the number drawn by
    [create_random_vehicle]. *)
Record InitialDraws := {
  right_first_lane : nat -> bool;
  right_rand : nat -> Q;
  left_first_lane : nat -> bool;
  left_rand : nat -> Q
}.

(** The draws of one call of [update]: the number drawn for the [k]-th
    vehicle of the vehicle loop, the three draws of [spawn_vehicle], the
    number compared with 0.6 and the two choices of [spawn_pedestrian]. *)
Record Draws := {
  lane_change_rand : nat -> Q;
  spawn_rand_direction : Q;
  spawn_first_lane : bool;
  spawn_rand : Q;
  pedestrian_rand : Q;
  pedestrian_top : bool;
  pedestrian_right : bool
}.

(** The keys tested by [handle_keypress]; [K_other] is any other key. *)
Inductive Key := K_SPACE | K_UP | K_DOWN | K_a | K_r | K_other.

(** The [i]-th vehicle of the first and of the second loop of
    [spawn_initial_vehicles] ([spacing] is 200). *)
Definition initial_right (cfg : Config) (d : InitialDraws) (i : nat)
    : Vehicle.t :=
  let lane := if right_first_lane d i then 0%Z else 1%Z in
  let x := inject_Z (Z.of_nat i) * 200 - 300 in
  let y := ROAD_Y_START cfg + inject_Z lane * LANE_WIDTH cfg
           + Num.floordiv (LANE_WIDTH cfg - CAR_NORMAL_WIDTH cfg) 2 in
  TrafficSimulation.create_random_vehicle cfg (right_rand d i) x y lane 1.

Definition initial_left (cfg : Config) (d : InitialDraws) (i : nat)
    : Vehicle.t :=
  let lane := if left_first_lane d i then 2%Z else 3%Z in
  let x := SCREEN_WIDTH cfg - inject_Z (Z.of_nat i) * 200 + 300 in
  let y := ROAD_Y_START cfg + inject_Z lane * LANE_WIDTH cfg
           + Num.floordiv (LANE_WIDTH cfg - CAR_NORMAL_WIDTH cfg) 2 in
  TrafficSimulation.create_random_vehicle cfg (left_rand d i) x y lane (-1).

(** [range(INITIAL_SPAWN_COUNT // 2)]. *)
Definition initial_range (ctl : ControlConfig) : list nat :=
  seq 0 (Z.to_nat (INITIAL_SPAWN_COUNT ctl / 2)).

(** [spawn_initial_vehicles]: the new value of [self.vehicles]. *)
Definition spawn_initial_vehicles (cfg : Config) (ctl : ControlConfig)
    (d : InitialDraws) (vehicles : list Vehicle.t) : list Vehicle.t :=
  (vehicles ++ List.map (initial_right cfg d) (initial_range ctl))
  ++ List.map (initial_left cfg d) (initial_range ctl).

(** [TrafficSimulation.__init__]. *)
Definition init (cfg : Config) (ctl : ControlConfig) (d : InitialDraws) : t :=
  {| vehicles := spawn_initial_vehicles cfg ctl d [];
     pedestrians := [];
     traffic_light := TrafficLight.init;
     paused := false;
     time_scale := 1;
     spawn_timer := 0;
     pedestrian_spawn_timer := 0;
     total_cars_passed := 0;
     total_distance_traveled := 0;
     simulation_time := 0 |}.

(** [reset_simulation]. *)
Definition reset_simulation (cfg : Config) (ctl : ControlConfig)
    (d : InitialDraws) (self : t) : t :=
  {| vehicles := spawn_initial_vehicles cfg ctl d [];
     pedestrians := [];
     traffic_light := TrafficLight.init;
     paused := paused self;
     time_scale := time_scale self;
     spawn_timer := 0;
     pedestrian_spawn_timer := 0;
     total_cars_passed := 0;
     total_distance_traveled := total_distance_traveled self;
     simulation_time := 0 |}.

(** [spawn_pedestrian]: the new value of [self.pedestrians]. *)
Definition spawn_pedestrian (cfg : Config) (d : Draws)
    (pedestrians : list Pedestrian.t) : list Pedestrian.t :=
  let side := if pedestrian_top d then Pedestrian.top
              else Pedestrian.bottom in
  let direction := if pedestrian_right d then 1%Z else (-1)%Z in
  pedestrians ++ [Pedestrian.init cfg side direction].

(** [is_offscreen]: the value returned and the new value of
    [self.total_cars_passed]. *)
Definition is_offscreen (cfg : Config) (vehicle : Vehicle.t)
    (total_cars_passed : Z) : bool * Z :=
  if (Vehicle.direction vehicle =? 1)%Z
     && (SCREEN_WIDTH cfg + 100 <? Vehicle.x vehicle)
  then (true, if Vehicle.passed_intersection vehicle
              then (total_cars_passed + 1)%Z else total_cars_passed)
  else if (Vehicle.direction vehicle =? -1)%Z
          && (Vehicle.x vehicle <? -100)
  then (true, if Vehicle.passed_intersection vehicle
              then (total_cars_passed + 1)%Z else total_cars_passed)
  else (false, total_cars_passed).

(** [[v for v in self.vehicles if not self.is_offscreen(v)]]: the list
    built and the counter after the calls of [is_offscreen], made in list
    order. *)
Fixpoint remove_offscreen (cfg : Config) (vehicles : list Vehicle.t)
    (total_cars_passed : Z) : list Vehicle.t * Z :=
  match vehicles with
  | [] => ([], total_cars_passed)
  | v :: vs =>
      let '(off, total_cars_passed) := is_offscreen cfg v total_cars_passed in
      let '(kept, total_cars_passed) :=
        remove_offscreen cfg vs total_cars_passed in
      (if off then kept else v :: kept, total_cars_passed)
  end.

(** [[p for p in self.pedestrians if not p.is_done()]]. *)
Definition remove_done (pedestrians : list Pedestrian.t)
    : list Pedestrian.t :=
  List.filter (fun p => negb (Pedestrian.is_done p)) pedestrians.

(** [vehicle.vehicle_type != "ambulance"] for the object at index [k]. *)
Definition not_ambulance (vehicles : list Vehicle.t) (k : nat) : bool :=
  match vehicles !! k with
  | Some v => negb (Vehicle.VehicleType_eqb (Vehicle.vehicle_type v)
                      Vehicle.ambulance)
  | None => false
  end.

(** The body of the vehicle loop of [update] for the object at index
    [k]. *)
Definition vehicle_step (cfg : Config) (dt : Q)
    (traffic_light : TrafficLight.t) (time_scale : Q) (d : Draws)
    (k : nat) (vehicles : list Vehicle.t) : list Vehicle.t :=
  let vehicles :=
    TrafficSimulation.update_vehicle cfg k dt vehicles traffic_light
      time_scale in
  if (lane_change_rand d k <? 0.01) && not_ambulance vehicles k
  then Vehicle.attempt_lane_change cfg k vehicles
  else vehicles.

(** The vehicle loop over the positions [ks] of the list. *)
Fixpoint vehicle_loop (cfg : Config) (dt : Q)
    (traffic_light : TrafficLight.t) (time_scale : Q) (d : Draws)
    (ks : list nat) (vehicles : list Vehicle.t) : list Vehicle.t :=
  match ks with
  | [] => vehicles
  | k :: ks' =>
      vehicle_loop cfg dt traffic_light time_scale d ks'
        (vehicle_step cfg dt traffic_light time_scale d k vehicles)
  end.

(** "Update vehicles". *)
Definition update_vehicles (cfg : Config) (dt : Q)
    (traffic_light : TrafficLight.t) (time_scale : Q) (d : Draws)
    (vehicles : list Vehicle.t) : list Vehicle.t :=
  vehicle_loop cfg dt traffic_light time_scale d
    (seq 0 (List.length vehicles)) vehicles.

(** "Spawn new pedestrians": the new values of
    [self.pedestrian_spawn_timer] and [self.pedestrians]. *)
Definition pedestrian_spawn_phase (cfg : Config) (ctl : ControlConfig)
    (dt time_scale : Q) (d : Draws) (timer : Q)
    (pedestrians : list Pedestrian.t) : Q * list Pedestrian.t :=
  let timer := timer + dt * time_scale in
  if PEDESTRIAN_SPAWN_INTERVAL ctl <=? timer
  then (0, if pedestrian_rand d <? 0.6
           then spawn_pedestrian cfg d pedestrians else pedestrians)
  else (timer, pedestrians).

(** [update]. *)
Definition update (cfg : Config) (ctl : ControlConfig) (d : Draws)
    (self : t) (dt : Q) : t :=
  if paused self then self
  else
    let ts := time_scale self in
    let simulation_time := simulation_time self + dt * ts in
    let traffic_light :=
      TrafficLight.update cfg (traffic_light self) dt (vehicles self) ts in
    let vehicles := update_vehicles cfg dt traffic_light ts d (vehicles self) in
    let pedestrians :=
      List.map (fun p => Pedestrian.update cfg p dt traffic_light ts)
        (pedestrians self) in
    let '(vehicles, total_cars_passed) :=
      remove_offscreen cfg vehicles (total_cars_passed self) in
    let pedestrians := remove_done pedestrians in
    let '(spawn_timer, vehicles) :=
      TrafficSimulation.spawn_phase cfg dt ts (spawn_rand_direction d)
        (spawn_first_lane d) (spawn_rand d) (spawn_timer self) vehicles in
    let '(pedestrian_spawn_timer, pedestrians) :=
      pedestrian_spawn_phase cfg ctl dt ts d (pedestrian_spawn_timer self)
        pedestrians in
    {| vehicles := vehicles;
       pedestrians := pedestrians;
       traffic_light := traffic_light;
       paused := paused self;
       time_scale := ts;
       spawn_timer := spawn_timer;
       pedestrian_spawn_timer := pedestrian_spawn_timer;
       total_cars_passed := total_cars_passed;
       total_distance_traveled := total_distance_traveled self;
       simulation_time := simulation_time |}.

(** [calculate_avg_speed]. *)
Definition calculate_avg_speed (self : t) : Q :=
  match vehicles self with
  | [] => 0
  | _ =>
      let total_speed :=
        fold_left (fun acc v => acc + Vehicle.speed v) (vehicles self) 0 in
      total_speed / inject_Z (Z.of_nat (List.length (vehicles self)))
  end.

(** The test of the loop of [calculate_queue_length]. *)
Definition in_queue (cfg : Config) (v : Vehicle.t) : bool :=
  (Vehicle.speed v <? 20)
  && (Num.abs (Vehicle.get_front_x v - INTERSECTION_X cfg) <? 150).

(** The loop of [calculate_queue_length], with its counter [queue]. *)
Fixpoint count_queue (cfg : Config) (vehicles : list Vehicle.t)
    (queue : nat) : nat :=
  match vehicles with
  | [] => queue
  | v :: vs => count_queue cfg vs (if in_queue cfg v then S queue else queue)
  end.

(** [calculate_queue_length]. *)
Definition calculate_queue_length (cfg : Config) (self : t) : nat :=
  count_queue cfg (vehicles self) 0.

(** [handle_keypress]; the draws are those of [reset_simulation]. *)
Definition handle_keypress (cfg : Config) (ctl : ControlConfig)
    (d : InitialDraws) (self : t) (key : Key) : t :=
  match key with
  | K_SPACE =>
      {| vehicles := vehicles self; pedestrians := pedestrians self;
         traffic_light := traffic_light self;
         paused := negb (paused self);
         time_scale := time_scale self; spawn_timer := spawn_timer self;
         pedestrian_spawn_timer := pedestrian_spawn_timer self;
         total_cars_passed := total_cars_passed self;
         total_distance_traveled := total_distance_traveled self;
         simulation_time := simulation_time self |}
  | K_UP =>
      {| vehicles := vehicles self; pedestrians := pedestrians self;
         traffic_light := traffic_light self; paused := paused self;
         time_scale :=
           Num.min2 (time_scale self + TIME_SCALE_STEP ctl)
             (TIME_SCALE_MAX ctl);
         spawn_timer := spawn_timer self;
         pedestrian_spawn_timer := pedestrian_spawn_timer self;
         total_cars_passed := total_cars_passed self;
         total_distance_traveled := total_distance_traveled self;
         simulation_time := simulation_time self |}
  | K_DOWN =>
      {| vehicles := vehicles self; pedestrians := pedestrians self;
         traffic_light := traffic_light self; paused := paused self;
         time_scale :=
           Num.max2 (time_scale self - TIME_SCALE_STEP ctl)
             (TIME_SCALE_MIN ctl);
         spawn_timer := spawn_timer self;
         pedestrian_spawn_timer := pedestrian_spawn_timer self;
         total_cars_passed := total_cars_passed self;
         total_distance_traveled := total_distance_traveled self;
         simulation_time := simulation_time self |}
  | K_a =>
      {| vehicles := vehicles self; pedestrians := pedestrians self;
         traffic_light := TrafficLight.toggle_adaptive (traffic_light self);
         paused := paused self;
         time_scale := time_scale self; spawn_timer := spawn_timer self;
         pedestrian_spawn_timer := pedestrian_spawn_timer self;
         total_cars_passed := total_cars_passed self;
         total_distance_traveled := total_distance_traveled self;
         simulation_time := simulation_time self |}
  | K_r => reset_simulation cfg ctl d self
  | K_other => self
  end.

End Simulation.

(** ** What a vehicle is allowed to be, and what an update may touch *)

Module Frames.
Import Vehicle.

(** The lane groups: lanes 0 and 1 carry the right-moving traffic, lanes 2
    and 3 the left-moving traffic. *)
Definition in_lane_group (v : t) : Prop :=
  (direction v = 1%Z /\ (lane v = 0%Z \/ lane v = 1%Z))
  \/ (direction v = (-1)%Z /\ (lane v = 2%Z \/ lane v = 3%Z)).

(** [b] is [a] up to the three attributes a lane change assigns. *)
Definition same_but_lane (a b : t) : Prop :=
  x b = x a /\ direction b = direction a /\ length b = length a
  /\ width b = width a /\ max_speed b = max_speed a
  /\ acceleration b = acceleration a /\ vehicle_type b = vehicle_type a
  /\ speed b = speed a /\ target_speed b = target_speed a
  /\ passed_intersection b = passed_intersection a
  /\ stopped_at_light b = stopped_at_light a
  /\ siren_state b = siren_state a.

(** [b] is [a] up to the attributes an update of its own class assigns:
    lane, position across the road, direction, dimensions, class and the
    two class parameters are the same. *)
Definition same_identity (a b : t) : Prop :=
  lane b = lane a /\ y b = y a /\ direction b = direction a
  /\ length b = length a /\ width b = width a
  /\ max_speed b = max_speed a /\ acceleration b = acceleration a
  /\ vehicle_type b = vehicle_type a.

(** The span of road that a vehicle covers, by direction: from [x] to
    [x + length] when moving right, from [x - length] to [x] otherwise.
    [v] lies strictly inside the span of [self]. *)
Definition strictly_inside (self v : t) : Prop :=
  if (direction self =? 1)%Z
  then x self < x v /\ x v + length v < x self + length self
  else x self - length self < x v - length v /\ x v < x self.

(** One pass through the body of the loop of [find_vehicle_ahead], on the
    vehicle [v] met at position [k]: the new values of [nearest] and
    [min_distance]. *)
Definition find_body (i : nat) (self : t) (k : nat) (v : t)
    (nearest : option (nat * t)) (min_distance : option Q)
    : option (nat * t) * option Q :=
  if (k =? i)%nat || negb (lane v =? lane self)%Z
     || negb (direction v =? direction self)%Z
  then (nearest, min_distance)
  else
    let distance := distance_to_vehicle self v in
    if (0 <? distance) && below distance min_distance
    then (Some (k, v), Some distance)
    else (nearest, min_distance).

(** The vehicle [v], stored at index [k], is one that the clearing pass of
    the ambulance [self] (stored at index [i]) asks to change lane: not
    the ambulance itself nor another ambulance, in its lane and direction,
    at a front-to-rear distance strictly between 0 and 150. *)
Definition targeted (i : nat) (self : t) (k : nat) (v : t) : Prop :=
  k <> i /\ vehicle_type v <> ambulance
  /\ lane v = lane self /\ direction v = direction self
  /\ 0 < distance_to_vehicle self v < 150.

(** The last three steps shared by [Vehicle.update] and
    [Ambulance.update], applied to the vehicle [s] whose target speed has
    been chosen. *)
Definition finish (cfg : Config) (s : t) (dt : Q) : t :=
  VehicleUpdate.mark_passed cfg
    (VehicleUpdate.move (VehicleUpdate.integrate_speed s dt) dt).

(** The test under which "Mark if passed intersection" sets the flag. *)
Definition beyond_intersection (cfg : Config) (v : t) : bool :=
  ((direction v =? 1)%Z
   && (INTERSECTION_X cfg + INTERSECTION_WIDTH cfg <? x v))
  || ((direction v =? -1)%Z && (x v <? INTERSECTION_X cfg)).

End Frames.

(** ** What the manager's loops compute *)

Module Measures.

(** The answer of [is_offscreen] for a vehicle, which does not depend on
    the counter. *)
Definition offscreen (cfg : Config) (v : Vehicle.t) : bool :=
  fst (Simulation.is_offscreen cfg v 0).

(** The vehicles that [is_offscreen] counts as passed. *)
Definition counted (cfg : Config) (v : Vehicle.t) : bool :=
  offscreen cfg v && Vehicle.passed_intersection v.

(** The sum of the speeds, as [sum(v.speed for v in self.vehicles)]
    accumulates it from 0. *)
Definition total_speed (vehicles : list Vehicle.t) : Q :=
  fold_left (fun acc v => acc + Vehicle.speed v) vehicles 0.

End Measures.

(** ** A simulation to run the manager on *)

Module SimulationScenes.
Import Simulation.

(** Values for the remaining constants of [config.py], for evaluation
    only, like those of [sample_config]. *)
Definition sample_control : ControlConfig :=
  {| TIME_SCALE_STEP := 0.25;
     TIME_SCALE_MIN := 0.25;
     TIME_SCALE_MAX := 4;
     PEDESTRIAN_SPAWN_INTERVAL := 5;
     INITIAL_SPAWN_COUNT := 6 |}.

(** Draws that always pick the first lane and a normal car. *)
Definition sample_initial_draws : InitialDraws :=
  {| right_first_lane := fun _ => true;
     right_rand := fun _ => 0.5;
     left_first_lane := fun _ => true;
     left_rand := fun _ => 0.5 |}.

(** Draws of one call of [update]: no spontaneous lane change, a
    right-moving normal car for lane 0, a pedestrian from the top. *)
Definition sample_draws : Draws :=
  {| lane_change_rand := fun _ => 0.5;
     spawn_rand_direction := 0.25;
     spawn_first_lane := true;
     spawn_rand := 0.5;
     pedestrian_rand := 0.5;
     pedestrian_top := true;
     pedestrian_right := true |}.

Definition sample_simulation : t :=
  init sample_config sample_control sample_initial_draws.

(** A sequence of calls of [update], each with its draws and its [dt]. *)
Definition updates (cfg : Config) (ctl : ControlConfig)
    (calls : list (Draws * Q)) (self : t) : t :=
  fold_left (fun s c => update cfg ctl (fst c) s (snd c)) calls self.

End SimulationScenes.

(** ** What the manager carries from one call to the next *)

Module Runs.
Import Vehicle.

(** [b] is a vehicle of the same kind as [a]: same direction, dimensions,
    class and class parameters. *)
Definition same_kind (a b : t) : Prop :=
  direction b = direction a /\ length b = length a /\ width b = width a
  /\ max_speed b = max_speed a /\ acceleration b = acceleration a
  /\ vehicle_type b = vehicle_type a.

(** The store [vs'] holds, index by index, the objects of [vs]: each of
    the same kind as before, in the lane group of its direction if it was,
    and with its [passed_intersection] flag still set if it was. *)
Definition carried (vs vs' : list t) : Prop :=
  List.length vs' = List.length vs
  /\ forall k v,
       vs !! k = Some v ->
       exists v',
         vs' !! k = Some v'
         /\ same_kind v v'
         /\ (Frames.in_lane_group v -> Frames.in_lane_group v')
         /\ (passed_intersection v = true -> passed_intersection v' = true).

(** The simulations that the main loop of [main.py] can reach: it builds
    a [TrafficSimulation], then calls [handle_keypress] for the keys
    pressed and [update] with the time step of the frame, with some
    draws. *)
Inductive reachable (cfg : Config) (ctl : Simulation.ControlConfig)
    : Simulation.t -> Prop :=
| reach_init (d : Simulation.InitialDraws) :
    reachable cfg ctl (Simulation.init cfg ctl d)
| reach_keypress (d : Simulation.InitialDraws) (s : Simulation.t)
    (key : Simulation.Key) :
    reachable cfg ctl s ->
    reachable cfg ctl (Simulation.handle_keypress cfg ctl d s key)
| reach_update (d : Simulation.Draws) (s : Simulation.t) (dt : Q) :
    reachable cfg ctl s ->
    reachable cfg ctl (Simulation.update cfg ctl d s dt).

End Runs.

(** * Properties *)

(** ** Facts about the number operations *)

Module NumFacts.
Import Num.

Lemma ltb_lt a b : ltb a b = true <-> a < b.
Proof.
  unfold ltb. rewrite negb_true_iff, <- not_true_iff_false, Qle_bool_iff.
  split; [apply Qnot_le_lt | apply Qlt_not_le].
Qed.

Lemma ltb_ge a b : ltb a b = false <-> b <= a.
Proof.
  unfold ltb. rewrite negb_false_iff. apply Qle_bool_iff.
Qed.

Lemma leb_le a b : leb a b = true <-> a <= b.
Proof. apply Qle_bool_iff. Qed.

Lemma leb_gt a b : leb a b = false <-> b < a.
Proof.
  unfold leb. rewrite <- not_true_iff_false, Qle_bool_iff.
  split; [apply Qnot_le_lt | apply Qlt_not_le].
Qed.

Lemma ltb_spec a b : reflect (a < b) (ltb a b).
Proof.
  destruct (ltb a b) eqn:E; constructor.
  - now apply ltb_lt.
  - apply ltb_ge in E. now apply Qle_not_lt.
Qed.

Lemma min2_cases a b : (b < a /\ min2 a b = b) \/ (a <= b /\ min2 a b = a).
Proof.
  unfold min2. destruct (ltb b a) eqn:E.
  - left. split; [now apply ltb_lt | reflexivity].
  - right. split; [now apply ltb_ge | reflexivity].
Qed.

Lemma max2_cases a b : (a < b /\ max2 a b = b) \/ (b <= a /\ max2 a b = a).
Proof.
  unfold max2. destruct (ltb a b) eqn:E.
  - left. split; [now apply ltb_lt | reflexivity].
  - right. split; [now apply ltb_ge | reflexivity].
Qed.

#[global] Instance ltb_proper : Proper (Qeq ==> Qeq ==> eq) ltb.
Proof.
  intros a a' Ha b b' Hb.
  destruct (ltb_spec a b) as [H|H], (ltb_spec a' b') as [H'|H'];
    try reflexivity; exfalso; apply H' || apply H; lra.
Qed.

#[global] Instance leb_proper : Proper (Qeq ==> Qeq ==> eq) leb.
Proof.
  intros a a' Ha b b' Hb. unfold leb.
  destruct (Qle_bool a b) eqn:E, (Qle_bool a' b') eqn:E'; try reflexivity.
  - apply Qle_bool_iff in E. apply leb_gt in E'. lra.
  - apply Qle_bool_iff in E'. apply leb_gt in E. lra.
Qed.

Lemma max3_cases a b c :
  (max3 a b c = a \/ max3 a b c = b \/ max3 a b c = c)
  /\ a <= max3 a b c /\ b <= max3 a b c /\ c <= max3 a b c.
Proof.
  unfold max3.
  destruct (max2_cases a b) as [[H1 E1] | [H1 E1]];
    destruct (max2_cases (max2 a b) c) as [[H2 E2] | [H2 E2]];
    rewrite E2, ?E1 in *; repeat split; auto; lra.
Qed.

End NumFacts.

(** Turns the boolean comparisons among the hypotheses into
    propositions. *)
Ltac reflect_tests :=
  repeat match goal with
  | H : Num.ltb _ _ = true |- _ => apply NumFacts.ltb_lt in H
  | H : Num.ltb _ _ = false |- _ => apply NumFacts.ltb_ge in H
  | H : Num.leb _ _ = true |- _ => apply NumFacts.leb_le in H
  | H : Num.leb _ _ = false |- _ => apply NumFacts.leb_gt in H
  | H : _ && _ = true |- _ => apply andb_true_iff in H; destruct H
  end.

(** ** The light query *)

Module LightQuery.
Import TrafficLight.

(** C10. The colour returned by [get_light_state] does not depend on the
    direction asked for: any two directions (in particular +1 and -1) see
    the same colour, which is green in [ew_green], yellow in [ew_yellow]
    and red in both [ns] states. *)
Theorem get_light_state_ignores_direction :
  forall (l : t) (d1 d2 : Z),
    get_light_state l d1 = get_light_state l d2
    /\ get_light_state l 1 = get_light_state l (-1)
    /\ get_light_state l d1 =
         match state l with
         | ew_green => green
         | ew_yellow => yellow
         | ns_green => red
         | ns_yellow => red
         end.
Proof.
  intros l d1 d2. unfold get_light_state.
  destruct (state l); repeat split.
Qed.

End LightQuery.

(** ** The pedestrian state machine *)

Module PedestrianFacts.
Import Pedestrian.

Lemma state_step_y cfg p dt : state (step_y cfg p dt) = state p.
Proof. unfold step_y. now destruct (side p). Qed.

(** The three shapes a call of [update] can take. *)
Lemma update_cases cfg p dt l ts :
  let p' := update cfg p dt l ts in
  (state p = waiting /\ (state p' = waiting \/ state p' = crossing)
     /\ y p' = y p)
  \/ (state p = crossing
      /\ ((reached (step_y cfg p (dt * ts)) = true
           /\ p' = set_state (step_y cfg p (dt * ts)) done)
          \/ (reached (step_y cfg p (dt * ts)) = false
              /\ p' = step_y cfg p (dt * ts))))
  \/ (state p = done /\ p' = p).
Proof.
  cbv zeta. unfold update. destruct (state p) eqn:Es.
  - left. split; [reflexivity|].
    destruct (_ <? _); [destruct (may_cross l)|]; cbn; rewrite ?Es; auto.
  - right; left. split; [reflexivity|].
    destruct (reached _) eqn:Er; [left | right]; auto.
  - right; right. auto.
Qed.

Lemma done_is_final cfg p c : state p = done -> update_call cfg p c = p.
Proof.
  destruct c as [[dt l] ts]. intros Hd. unfold update_call, update.
  now rewrite Hd.
Qed.

Lemma done_stays cfg calls :
  forall p, state p = done -> updates cfg p calls = p.
Proof.
  induction calls as [|c calls IH]; intros p Hd; [reflexivity|].
  unfold updates in *. cbn [fold_left].
  rewrite (done_is_final cfg p c Hd). now apply IH.
Qed.

Lemma done_entries_done cfg calls :
  forall p, state p = done -> done_entries cfg p calls = 0%nat.
Proof.
  induction calls as [|c calls IH]; intros p Hd; [reflexivity|].
  cbn [done_entries]. rewrite (done_is_final cfg p c Hd).
  unfold is_done. rewrite Hd. cbn. now apply IH.
Qed.

Lemma is_done_true p : is_done p = true <-> state p = done.
Proof. unfold is_done. destruct (state p); split; congruence. Qed.

(** Along any sequence of calls [done] is entered once if the pedestrian
    ends in [done] without having started there, and never otherwise. *)
Lemma done_entries_count cfg calls :
  forall p,
    done_entries cfg p calls =
    if negb (is_done p) && is_done (updates cfg p calls) then 1%nat
    else 0%nat.
Proof.
  induction calls as [|c calls IH]; intros p.
  - cbn. now destruct (is_done p).
  - cbn [done_entries]. unfold updates in *. cbn [fold_left].
    rewrite IH.
    destruct (is_done p) eqn:Ep.
    + apply is_done_true in Ep.
      rewrite (done_is_final cfg p c Ep).
      apply is_done_true in Ep. now rewrite Ep.
    + cbn [negb andb].
      destruct (is_done (update_call cfg p c)) eqn:Ep'; [|reflexivity].
      cbn [negb andb]. apply is_done_true in Ep'.
      pose proof (done_stays cfg calls _ Ep') as Hs.
      unfold updates in Hs. rewrite Hs.
      apply is_done_true in Ep'. now rewrite Ep'.
Qed.

(** C9. A pedestrian only moves forward along waiting, crossing, done.
    For one call of [update]: the state stays or advances by one step, so
    crossing is never followed by waiting; [done] is entered exactly when
    a crossing pedestrian's moved [y] has reached [target_y] ([>=] from
    the top side, [<=] from the bottom side); a pedestrian that is still
    crossing after the call has not reached the target, so the entering
    call is the first one to reach it; and a [done] pedestrian is left
    untouched. For any sequence of calls: once [done], every further call
    leaves the whole object unchanged, and [done] is entered at most once
    (exactly once if the sequence ends in [done] from another state). *)
Theorem pedestrian_forward_only :
  forall (cfg : Config),
    (forall (p : t) (dt : Q) (l : TrafficLight.t) (ts : Q),
       let p' := update cfg p dt l ts in
       (rank (state p) <= rank (state p') <= S (rank (state p)))%nat
       /\ (state p = crossing -> state p' <> waiting)
       /\ (state p <> done ->
           (state p' = done <->
            state p = crossing
            /\ reached (step_y cfg p (dt * ts)) = true))
       /\ (state p = crossing -> state p' = crossing ->
           reached p' = false)
       /\ (state p = done -> p' = p))
    /\ (forall (p : t) (calls more : list Call),
          state (updates cfg p calls) = done ->
          updates cfg p (calls ++ more) = updates cfg p calls)
    /\ (forall (p : t) (calls : list Call),
          (done_entries cfg p calls <= 1)%nat
          /\ (state p <> done -> state (updates cfg p calls) = done ->
              done_entries cfg p calls = 1%nat)).
Proof.
  intros cfg. split; [|split].
  - intros p dt l ts. cbv zeta.
    pose proof (update_cases cfg p dt l ts) as H. cbv zeta in H.
    set (p' := update cfg p dt l ts) in *.
    destruct H as [(Hs & Hs' & _) | [(Hs & Hc) | (Hs & Hp)]].
    + destruct Hs' as [E | E]; rewrite E, Hs; cbn [rank];
        repeat split; try congruence; try lia;
        intros [? _]; congruence.
    + rewrite Hs.
      destruct Hc as [(Hr & Hp) | (Hr & Hp)]; rewrite Hp; clear Hp.
      * cbn [state set_state rank]. repeat split; try congruence; lia.
      * rewrite state_step_y, Hs. cbn [rank].
        repeat split; try congruence; try lia.
        intros [_ ?]; congruence.
    + rewrite Hp, Hs. cbn. repeat split; try congruence; lia.
  - intros p calls more Hd. unfold updates. rewrite fold_left_app.
    now apply done_stays.
  - intros p calls. rewrite done_entries_count. split.
    + destruct (_ && _); lia.
    + intros Hn Hd. apply is_done_true in Hd. rewrite Hd.
      destruct (is_done p) eqn:Ep; [|reflexivity].
      apply is_done_true in Ep. contradiction.
Qed.

(** The theorem on [Scenes.walker]: the states after each of the nine calls
    of [Scenes.walk_calls], the single entry into [done] at the ninth call,
    where [y] reaches the target 570, and further calls that change
    nothing. *)
Lemma pedestrian_forward_only_witness :
  map (fun n => state (updates sample_config Scenes.walker
                         (take n Scenes.walk_calls)))
    [1; 2; 3; 4; 5; 6; 7; 8; 9]%nat
  = [waiting; waiting; crossing; crossing; crossing; crossing; crossing;
     crossing; done]
  /\ y (updates sample_config Scenes.walker Scenes.walk_calls) == 570
  /\ done_entries sample_config Scenes.walker Scenes.walk_calls = 1%nat
  /\ updates sample_config Scenes.walker
       (Scenes.walk_calls ++ Scenes.walk_calls)
     = updates sample_config Scenes.walker Scenes.walk_calls.
Proof.
  destruct (pedestrian_forward_only sample_config) as (_ & Hstay & Hcount).
  split; [reflexivity|]. split; [reflexivity|]. split.
  - apply Hcount; [discriminate | reflexivity].
  - apply Hstay. reflexivity.
Defined.

End PedestrianFacts.

(** ** The adaptive green time *)

Module AdaptiveFacts.
Import TrafficLight AdaptiveSpec Scenes.

Lemma in_group_ew v : in_group [0%Z; 1%Z] v = in_ew_lanes v.
Proof. unfold in_group, in_ew_lanes. cbn. now rewrite orb_false_r. Qed.

Lemma in_group_ns v :
  valid_vehicle v = true -> in_group [2%Z; 3%Z] v = negb (in_ew_lanes v).
Proof.
  unfold valid_vehicle, in_group, in_ew_lanes. cbn. intros H.
  apply andb_true_iff in H as [H H3]. apply andb_true_iff in H as [_ H0].
  destruct (Z.eqb_spec (Vehicle.lane v) 0), (Z.eqb_spec (Vehicle.lane v) 1),
    (Z.eqb_spec (Vehicle.lane v) 2), (Z.eqb_spec (Vehicle.lane v) 3);
    cbn; try reflexivity; lia.
Qed.

Lemma waiting_near_valid cfg v :
  valid_vehicle v = true ->
  waiting_near cfg v = near_stopped v && front_within_200 cfg v.
Proof.
  unfold valid_vehicle, waiting_near, near_stopped, front_within_200.
  intros H. apply andb_true_iff in H as [H _].
  apply andb_true_iff in H as [-> _]. now rewrite andb_true_r.
Qed.

(** The two counters of the loop are the two queues of the
    specification, added to their initial values. *)
Lemma count_queues_spec cfg vehicles :
  forallb valid_vehicle vehicles = true ->
  forall ew ns,
    count_queues cfg vehicles ew ns =
    ((ew + queue cfg [0%Z; 1%Z] vehicles)%nat,
     (ns + queue cfg [2%Z; 3%Z] vehicles)%nat).
Proof.
  unfold queue.
  induction vehicles as [|v vs IH]; intros Hv ew ns.
  - cbn. now rewrite !Nat.add_0_r.
  - cbn [forallb] in Hv. apply andb_true_iff in Hv as [Hv Hvs].
    cbn [count_queues List.filter].
    rewrite in_group_ew, (in_group_ns v Hv), <- (waiting_near_valid cfg v Hv).
    destruct (waiting_near cfg v); cbn [andb].
    + destruct (in_ew_lanes v); cbn [negb List.length]; rewrite (IH Hvs);
        f_equal; lia.
    + now rewrite (IH Hvs).
Qed.

(** C5. In adaptive mode the green duration used by a call of [update]
    is computed, at that call, from the vehicles passed to it: with the
    queue counting the vehicles of speed below 10 whose front is within
    200 units of the intersection, taken over lanes 0 and 1 for the
    east-west states and over lanes 2 and 3 for the north-south states,
    it is 1.5 times the base time when the queue exceeds the threshold
    and the base time otherwise; a green state is left at that call
    exactly when the advanced timer has reached this duration. *)
Theorem adaptive_green_time :
  forall (cfg : Config) (l : t) (vehicles : list Vehicle.t) (dt ts : Q),
    adaptive_mode l = true ->
    forallb valid_vehicle vehicles = true ->
    green_time cfg l vehicles = green_duration cfg l vehicles
    /\ (green_time cfg l vehicles ==
        if ADAPTIVE_LIGHT_THRESHOLD cfg
           <? inject_Z (Z.of_nat (queue cfg (axis_lanes (state l)) vehicles))
        then LIGHT_GREEN_TIME cfg * 1.5 else LIGHT_GREEN_TIME cfg)
    /\ (state l = ew_green ->
        (state (update cfg l dt vehicles ts) = ew_yellow <->
         green_duration cfg l vehicles <= timer l + dt * ts))
    /\ (state l = ns_green ->
        (state (update cfg l dt vehicles ts) = ns_yellow <->
         green_duration cfg l vehicles <= timer l + dt * ts)).
Proof.
  intros cfg l vehicles dt ts Ha Hv.
  assert (E : green_time cfg l vehicles = green_duration cfg l vehicles).
  { unfold green_time, calculate_adaptive_time, green_duration.
    rewrite Ha, (count_queues_spec cfg vehicles Hv). cbn [Nat.add].
    now destruct (state l). }
  split; [exact E|]. split; [rewrite E; reflexivity|].
  split; intros Hs; unfold update; rewrite Hs, E; unfold advance;
    destruct (_ <=? _) eqn:Ec; cbn [state]; rewrite ?Hs;
    reflect_tests; split; intros; try congruence; try lra.
Qed.

(** The theorem on [Scenes.queue_scene]: the light is green for the four
    queued cars, and the green time grows from 10 to 15. *)
Lemma adaptive_green_time_witness :
  adaptive_mode (toggle_adaptive init) = true
  /\ forallb valid_vehicle queue_scene = true
  /\ green_time sample_config (toggle_adaptive init) queue_scene == 15.
Proof.
  split; [reflexivity|]. split; [reflexivity|].
  destruct (adaptive_green_time sample_config (toggle_adaptive init)
              queue_scene 0 1 eq_refl eq_refl) as (_ & H & _).
  rewrite H. vm_compute. reflexivity.
Defined.

End AdaptiveFacts.

(** ** Spawning *)

Module SpawnFacts.
Import TrafficSimulation SpawnSpec Scenes.

Lemma occupies_entry_iff cfg lane direction v :
  occupies_entry cfg lane direction v = true
  <-> in_entry_zone cfg lane direction v.
Proof.
  unfold occupies_entry, in_entry_zone.
  rewrite !andb_true_iff, orb_true_iff, !andb_true_iff, !Z.eqb_eq,
    !NumFacts.ltb_lt.
  tauto.
Qed.

(** The flag only ever goes down, and it goes down exactly when some
    vehicle of the list occupies the entry zone. *)
Lemma check_spawn_spec cfg lane direction vehicles :
  forall can_spawn,
    check_spawn cfg lane direction vehicles can_spawn =
    can_spawn
    && forallb (fun v => negb (occupies_entry cfg lane direction v))
         vehicles.
Proof.
  induction vehicles as [|v vs IH]; intros can_spawn; cbn.
  - now rewrite andb_true_r.
  - destruct (occupies_entry cfg lane direction v); rewrite IH; cbn.
    + now rewrite andb_false_r.
    + reflexivity.
Qed.

Lemma check_spawn_true cfg lane direction vehicles :
  check_spawn cfg lane direction vehicles true = true
  <-> (forall v, In v vehicles -> ~ in_entry_zone cfg lane direction v).
Proof.
  rewrite check_spawn_spec. cbn [andb]. rewrite forallb_forall.
  split; intros H v Hin; specialize (H v Hin).
  - rewrite <- occupies_entry_iff. now destruct (occupies_entry _ _ _ v).
  - rewrite <- occupies_entry_iff in H.
    now destruct (occupies_entry _ _ _ v).
Qed.

Lemma app_one_neq {A} (l : list A) (a : A) : l ++ [a] <> l.
Proof.
  intros H. apply (f_equal (@List.length A)) in H.
  rewrite List.length_app in H. cbn in H. lia.
Qed.

(** C8, as the code has it. A spawn request appends the new vehicle (at
    the end of the collection, at the entry point [x = -100] or
    [x = SCREEN_WIDTH + 100] of its lane) if and only if no existing
    vehicle of the same lane and direction has [x < 200] (right-moving)
    or [x > SCREEN_WIDTH - 200] (left-moving); otherwise the collection
    is returned unchanged. When the spawn timer expires it is reset to 0
    whether or not the vehicle was inserted, so a skipped spawn is not
    tried again before the next expiry; before expiry the collection is
    not touched. *)
Theorem spawn_vehicle_entry_check :
  forall (cfg : Config) (rand_direction : Q) (first_lane : bool) (rand : Q)
         (vehicles : list Vehicle.t) (dt ts timer : Q),
    let direction := spawn_direction rand_direction in
    let lane := spawn_lane rand_direction first_lane in
    let result := spawn_vehicle cfg rand_direction first_lane rand vehicles in
    ((forall v, In v vehicles -> ~ in_entry_zone cfg lane direction v)
     <-> exists new,
           result = vehicles ++ [new]
           /\ Vehicle.x new = spawn_x cfg rand_direction
           /\ Vehicle.lane new = lane
           /\ Vehicle.direction new = direction)
    /\ ((exists v, In v vehicles /\ in_entry_zone cfg lane direction v)
        <-> result = vehicles)
    /\ (spawn_x cfg rand_direction =
        if (direction =? 1)%Z then -100 else SCREEN_WIDTH cfg + 100)
    /\ (SPAWN_INTERVAL cfg <= timer + dt * ts ->
        spawn_phase cfg dt ts rand_direction first_lane rand timer vehicles
        = (0, result))
    /\ (timer + dt * ts < SPAWN_INTERVAL cfg ->
        spawn_phase cfg dt ts rand_direction first_lane rand timer vehicles
        = (timer + dt * ts, vehicles)).
Proof.
  intros cfg rd fl r vehicles dt ts timer direction lane result.
  assert (Hres : result =
            if check_spawn cfg lane direction vehicles true
            then vehicles ++
                 [create_random_vehicle cfg r (spawn_x cfg rd)
                    (ROAD_Y_START cfg + inject_Z lane * LANE_WIDTH cfg
                     + Num.floordiv (LANE_WIDTH cfg - CAR_NORMAL_WIDTH cfg) 2)
                    lane direction]
            else vehicles) by reflexivity.
  pose proof (check_spawn_true cfg lane direction vehicles) as Hc.
  repeat split.
  - intros Hclear. apply Hc in Hclear. rewrite Hclear in Hres.
    eexists. split; [exact Hres|].
    unfold create_random_vehicle.
    destruct (_ <? _); [|destruct (_ <? _); [|destruct (_ <? _)]];
      repeat split.
  - intros (new & Hnew & _). apply Hc.
    destruct (check_spawn cfg lane direction vehicles true);
      [reflexivity|].
    rewrite Hres in Hnew. symmetry in Hnew.
    now apply app_one_neq in Hnew.
  - intros (v & Hin & Hz).
    destruct (check_spawn cfg lane direction vehicles true) eqn:E;
      [|exact Hres].
    exfalso. destruct Hc as [Hc _]. exact (Hc eq_refl v Hin Hz).
  - intros Hsame.
    destruct (check_spawn cfg lane direction vehicles true) eqn:E.
    + rewrite Hres in Hsame. now apply app_one_neq in Hsame.
    + rewrite check_spawn_spec in E. cbn [andb] in E.
      apply not_true_iff_false in E.
      destruct (existsb (occupies_entry cfg lane direction) vehicles) eqn:Ex.
      * apply existsb_exists in Ex as (v & Hin & Hv).
        exists v. split; [exact Hin|]. now apply occupies_entry_iff.
      * exfalso. apply E. apply forallb_forall. intros v Hin.
        destruct (occupies_entry cfg lane direction v) eqn:Ev;
          [|reflexivity].
        assert (existsb (occupies_entry cfg lane direction) vehicles = true)
          by (apply existsb_exists; eauto).
        congruence.
  - unfold direction, spawn_x, spawn_direction.
    now destruct (rd <? 0.5).
  - intros Hexp. unfold spawn_phase.
    apply NumFacts.leb_le in Hexp. now rewrite Hexp.
  - intros Hnot. unfold spawn_phase.
    apply NumFacts.leb_gt in Hnot. now rewrite Hnot.
Qed.

(** C8 as stated fails: the only vehicle is 250 units away from the
    entry point, so none lies within 200 units of it, and yet the spawn
    is skipped. *)
Lemma spawn_buffer_counterexample :
  spawn_x sample_config 0.25 == -100
  /\ Vehicle.x car_at_150 - spawn_x sample_config 0.25 == 250
  /\ SpawnSpec.entry_buffer_clear (spawn_lane 0.25 true)
       (spawn_direction 0.25) (spawn_x sample_config 0.25) [car_at_150]
     = true
  /\ spawn_vehicle sample_config 0.25 true 0.5 [car_at_150] = [car_at_150].
Proof. repeat split. Qed.

End SpawnFacts.

(** ** The cycle of the traffic light *)

Module LightFacts.
Import TrafficLight LightRun.

(** In either mode a call of [update] is one branch of the state
    machine, towards the next state of the cycle. *)
Lemma update_advance cfg l dt vehicles ts :
  exists duration,
    update cfg l dt vehicles ts =
    advance l (timer l + dt * ts) duration (next (state l)).
Proof.
  unfold update. destruct (state l); eexists; reflexivity.
Qed.

Lemma update_fixed cfg l dt vehicles ts :
  adaptive_mode l = false ->
  update cfg l dt vehicles ts =
  advance l (timer l + dt * ts) (duration cfg (state l)) (next (state l)).
Proof.
  intros Hm. unfold update, green_time. rewrite Hm.
  now destruct (state l).
Qed.

(** C4, as the code has it. In either mode a call of [update] keeps the
    state or moves it to the next state of the cycle ew_green, ew_yellow,
    ns_green, ns_yellow, ew_green, whenever the state changes the timer is
    0 after the call, and the mode is kept. In fixed mode a state is left
    exactly at a call whose advanced timer [timer + dt * time_scale] has
    reached the duration of the state (the green time for the two green
    states, the yellow time for the two yellow states); until then the
    state is kept and the timer holds the advanced value. The part of the
    last step that goes beyond the duration is dropped, so the length of a
    full cycle depends on the step and need not be
    [2 * (green + yellow)]. *)
Theorem light_cycle :
  forall (cfg : Config),
    (forall (l : t) (dt : Q) (vehicles : list Vehicle.t) (ts : Q),
       let l' := update cfg l dt vehicles ts in
       (state l' = state l
        \/ (state l' = next (state l) /\ timer l' = 0))
       /\ adaptive_mode l' = adaptive_mode l)
    /\ (forall (l : t) (dt : Q) (vehicles : list Vehicle.t) (ts : Q),
          adaptive_mode l = false ->
          let l' := update cfg l dt vehicles ts in
          (duration cfg (state l) <= timer l + dt * ts ->
           state l' = next (state l) /\ timer l' = 0)
          /\ (timer l + dt * ts < duration cfg (state l) ->
              state l' = state l /\ timer l' = timer l + dt * ts)).
Proof.
  intros cfg. split.
  - intros l dt vehicles ts. cbv zeta.
    destruct (update_advance cfg l dt vehicles ts) as [d ->].
    unfold advance. destruct (d <=? _); cbn; auto.
  - intros l dt vehicles ts Hm. cbv zeta.
    rewrite (update_fixed cfg l dt vehicles ts Hm). unfold advance.
    split; intros H.
    + apply NumFacts.leb_le in H. rewrite H. cbn. auto.
    + apply NumFacts.leb_gt in H. rewrite H. cbn. auto.
Qed.

(** The theorem on the first calls of a run with green time 10 and steps
    of 4: the timer reads 4 and 8 in ew_green, and the third call, whose
    advanced timer is 12, moves to ew_yellow with the timer at 0. *)
Lemma light_cycle_witness :
  timer (run sample_config 4 [] 1 2 init) == 8
  /\ state (run sample_config 4 [] 1 2 init) = ew_green
  /\ state (run sample_config 4 [] 1 3 init) = ew_yellow
  /\ timer (run sample_config 4 [] 1 3 init) = 0.
Proof.
  split; [vm_compute; reflexivity|]. split; [reflexivity|].
  change (run sample_config 4 [] 1 3 init)
    with (update sample_config (run sample_config 4 [] 1 2 init) 4 [] 1).
  apply (proj2 (light_cycle sample_config)
           (run sample_config 4 [] 1 2 init) 4 [] 1).
  - reflexivity.
  - vm_compute. discriminate.
Defined.

(** C4 as stated fails on the duration: with green time 10, yellow time 3
    and steps of 4 the light is in ew_green after 1 and 2 calls, then in
    ew_yellow, in ns_green for three calls, in ns_yellow, and back in
    ew_green after 8 calls: the cycle lasts 32 and not 2 * (10 + 3). *)
Lemma fixed_cycle_counterexample :
  map (fun n => state (run sample_config 4 [] 1 n init))
    [1; 2; 3; 4; 5; 6; 7; 8]%nat
  = [ew_green; ew_green; ew_yellow; ns_green; ns_green; ns_green;
     ns_yellow; ew_green]
  /\ exists d,
       cycle_duration sample_config 4 [] 1 8 init = Some d
       /\ d == 32
       /\ ~ d == 2 * (LIGHT_GREEN_TIME sample_config
                       + LIGHT_YELLOW_TIME sample_config).
Proof.
  split; [vm_compute; reflexivity|].
  eexists. split; [vm_compute; reflexivity|]. split; [reflexivity|].
  intros H. discriminate H.
Qed.

End LightFacts.

(** ** Vehicles: the fields an update leaves alone *)

Module VehicleFacts.
Import Vehicle VehicleUpdate UpdateSteps Scenes.

Lemma same_car_refl a : same_car a a.
Proof. repeat split. Qed.

Lemma same_car_tick_cooldown self dt : same_car (tick_cooldown self dt) self.
Proof. unfold tick_cooldown. destruct (_ <? _); repeat split. Qed.

Lemma same_car_distance_to_light cfg a b :
  same_car a b -> distance_to_light cfg a = distance_to_light cfg b.
Proof.
  intros (Hx & _ & _ & Hd & Hl & _). unfold distance_to_light.
  now rewrite Hx, Hd, Hl.
Qed.

Lemma same_car_distance_to_vehicle a b v :
  same_car a b -> distance_to_vehicle a v = distance_to_vehicle b v.
Proof.
  intros (Hx & _ & _ & Hd & Hl & _). unfold distance_to_vehicle.
  now rewrite Hx, Hd, Hl.
Qed.

Lemma same_car_should_stop cfg a b light :
  same_car a b ->
  should_stop_at_light cfg a light = should_stop_at_light cfg b light.
Proof.
  intros H. unfold should_stop_at_light.
  rewrite (same_car_distance_to_light cfg a b H).
  reflexivity.
Qed.

Lemma same_car_braking cfg a b light :
  same_car a b ->
  braking_for_light cfg a light = braking_for_light cfg b light.
Proof.
  intros H. unfold braking_for_light.
  now rewrite (same_car_should_stop cfg a b light H),
    (same_car_distance_to_light cfg a b H).
Qed.

Lemma same_car_find_from i a b vs :
  same_car a b ->
  forall k nearest md,
    find_vehicle_ahead_from i a k vs nearest md
    = find_vehicle_ahead_from i b k vs nearest md.
Proof.
  intros H. pose proof H as (_ & _ & Hl & Hd & _).
  induction vs as [|v vs IH]; intros k nearest md; [reflexivity|].
  cbn [find_vehicle_ahead_from].
  rewrite Hl, Hd, (same_car_distance_to_vehicle a b v H), !IH.
  reflexivity.
Qed.

Lemma same_car_find i a b vehicles :
  same_car a b ->
  find_vehicle_ahead i a vehicles = find_vehicle_ahead i b vehicles.
Proof. intros H. now apply same_car_find_from. Qed.

(** The steps after the choice of the target leave [target_speed] and
    [max_speed] alone. *)
Lemma target_speed_integrate self dt :
  target_speed (integrate_speed self dt) = target_speed self.
Proof.
  unfold integrate_speed. destruct (_ <? _); [|destruct (_ <? _)];
    reflexivity.
Qed.

Lemma max_speed_integrate self dt :
  max_speed (integrate_speed self dt) = max_speed self.
Proof.
  unfold integrate_speed. destruct (_ <? _); [|destruct (_ <? _)];
    reflexivity.
Qed.

Lemma target_speed_mark_passed cfg self :
  target_speed (mark_passed cfg self) = target_speed self.
Proof.
  unfold mark_passed. destruct (_ && _); [|destruct (_ && _)]; reflexivity.
Qed.

Lemma speed_mark_passed cfg self :
  speed (mark_passed cfg self) = speed self.
Proof.
  unfold mark_passed. destruct (_ && _); [|destruct (_ && _)]; reflexivity.
Qed.

Lemma max_speed_mark_passed cfg self :
  max_speed (mark_passed cfg self) = max_speed self.
Proof.
  unfold mark_passed. destruct (_ && _); [|destruct (_ && _)]; reflexivity.
Qed.

Lemma same_car_before_target cfg self dt light :
  same_car (before_target cfg self dt light) self.
Proof.
  unfold before_target, tick_cooldown.
  destruct (should_stop_at_light _ _ _); destruct (_ <? _); repeat split.
Qed.

(** [update_self], with its last three steps split off. *)
Lemma update_self_unfold cfg i self dt vehicles light ts :
  update_self cfg i self dt vehicles light ts =
  mark_passed cfg
    (move
       (integrate_speed
          (determine_target cfg (before_target cfg self (dt * ts) light)
             (find_vehicle_ahead i self vehicles) light)
          (dt * ts))
       (dt * ts)).
Proof.
  unfold update_self, before_target.
  now rewrite (same_car_find i _ _ vehicles
                 (same_car_tick_cooldown self (dt * ts))).
Qed.

Lemma target_speed_update_self cfg i self dt vehicles light ts :
  target_speed (update_self cfg i self dt vehicles light ts) =
  target_speed
    (determine_target cfg (before_target cfg self (dt * ts) light)
       (find_vehicle_ahead i self vehicles) light).
Proof.
  rewrite update_self_unfold, target_speed_mark_passed.
  unfold move. cbn [target_speed set_x]. apply target_speed_integrate.
Qed.

Lemma speed_update_self cfg i self dt vehicles light ts :
  speed (update_self cfg i self dt vehicles light ts) =
  speed
    (integrate_speed
       (determine_target cfg (before_target cfg self (dt * ts) light)
          (find_vehicle_ahead i self vehicles) light)
       (dt * ts)).
Proof.
  rewrite update_self_unfold, speed_mark_passed.
  reflexivity.
Qed.

(** The vehicle loop calls [Vehicle.update] on every object that is not
    an ambulance. *)
Lemma update_vehicle_base cfg i self dt vehicles light ts :
  vehicles !! i = Some self ->
  vehicle_type self <> ambulance ->
  TrafficSimulation.update_vehicle cfg i dt vehicles light ts !! i
  = Some (update_self cfg i self dt vehicles light ts).
Proof.
  intros Hi Hty. unfold TrafficSimulation.update_vehicle. rewrite Hi.
  assert (Hlt : (i < List.length vehicles)%nat)
    by (eapply lookup_lt_Some; eauto).
  destruct (vehicle_type self); try contradiction;
    unfold update; rewrite Hi; now apply list_lookup_insert_eq.
Qed.

(** *** The neighbour lookup *)

Lemma skip_not_ahead i self k v :
  (k =? i)%nat || negb (lane v =? lane self)%Z
  || negb (direction v =? direction self)%Z = true ->
  ~ ahead_of i self k v.
Proof.
  intros H (Hk & Hl & Hd & _).
  apply orb_true_iff in H as [H | H];
    [apply orb_true_iff in H as [H | H]|].
  - apply Nat.eqb_eq in H. contradiction.
  - apply negb_true_iff, Z.eqb_neq in H. contradiction.
  - apply negb_true_iff, Z.eqb_neq in H. contradiction.
Qed.

Lemma keep_ahead i self k v :
  (k =? i)%nat || negb (lane v =? lane self)%Z
  || negb (direction v =? direction self)%Z = false ->
  k <> i /\ lane v = lane self /\ direction v = direction self.
Proof.
  intros H. apply orb_false_iff in H as [H Hd].
  apply orb_false_iff in H as [Hk Hl].
  apply Nat.eqb_neq in Hk.
  apply negb_false_iff, Z.eqb_eq in Hl, Hd. auto.
Qed.

Lemma find_from_spec i self all :
  forall vs pre nearest md,
    all = pre ++ vs ->
    find_invariant i self all pre nearest md ->
    find_result i self all
      (find_vehicle_ahead_from i self (List.length pre) vs nearest md).
Proof.
  induction vs as [|v vs IH]; intros pre nearest md Hall Hinv.
  - rewrite app_nil_r in Hall. subst pre. cbn [find_vehicle_ahead_from].
    unfold find_invariant in Hinv. unfold find_result.
    destruct nearest as [[j w]|], md as [m|]; try contradiction.
    + destruct Hinv as (Hm & Hj & Ha & Hmin). subst m.
      split; [exact Hj|]. split; [exact Ha|]. exact Hmin.
    + exact Hinv.
  - assert (Hall' : all = (pre ++ [v]) ++ vs)
      by (now rewrite <- app_assoc).
    assert (Hlen : List.length (pre ++ [v]) = S (List.length pre))
      by (rewrite List.length_app; cbn; lia).
    assert (Hsnoc : forall k w, (pre ++ [v]) !! k = Some w ->
              pre !! k = Some w \/ (k = List.length pre /\ w = v)).
    { intros k w H. apply lookup_snoc_Some in H as [[_ H] | [H1 H2]]; auto. }
    assert (Hv : all !! List.length pre = Some v)
      by (rewrite Hall; now apply list_lookup_middle).
    cbn [find_vehicle_ahead_from]. rewrite <- Hlen.
    destruct ((List.length pre =? i)%nat || negb (lane v =? lane self)%Z
              || negb (direction v =? direction self)%Z) eqn:Eskip.
    { apply (IH _ _ _ Hall').
      pose proof (skip_not_ahead _ _ _ _ Eskip) as Hna.
      unfold find_invariant in *.
      destruct nearest as [[j w]|], md as [m|]; try contradiction.
      - destruct Hinv as (Hm & Hj & Ha & Hmin).
        split; [exact Hm|]. split; [exact Hj|]. split; [exact Ha|].
        intros k u Hk Hu.
        destruct (Hsnoc k u Hk) as [H | [-> ->]]; [eauto | contradiction].
      - intros k u Hk Hu.
        destruct (Hsnoc k u Hk) as [H | [-> ->]];
          [exact (Hinv k u H Hu) | contradiction]. }
    apply keep_ahead in Eskip as (Hk & Hl & Hd).
    destruct (NumFacts.ltb_spec 0 (distance_to_vehicle self v)) as [Hpos | Hneg];
      cbn [andb].
    + destruct (below (distance_to_vehicle self v) md) eqn:Ebelow.
      * apply (IH _ _ _ Hall'). unfold find_invariant in *.
        split; [reflexivity|]. split; [exact Hv|].
        split; [repeat split; assumption|].
        intros k u Hku Hu.
        destruct (Hsnoc k u Hku) as [H | [-> ->]]; [|lra].
        destruct nearest as [[j w]|], md as [m|]; try contradiction.
        -- destruct Hinv as (_ & _ & _ & Hmin).
           cbn [below] in Ebelow. apply NumFacts.ltb_lt in Ebelow.
           specialize (Hmin k u H Hu). lra.
        -- exfalso. exact (Hinv k u H Hu).
      * apply (IH _ _ _ Hall'). unfold find_invariant in *.
        destruct nearest as [[j w]|], md as [m|]; try contradiction;
          try discriminate Ebelow.
        destruct Hinv as (Hm & Hj & Ha & Hmin).
        cbn [below] in Ebelow. apply NumFacts.ltb_ge in Ebelow.
        split; [exact Hm|]. split; [exact Hj|]. split; [exact Ha|].
        intros k u Hku Hu.
        destruct (Hsnoc k u Hku) as [H | [-> ->]];
          [eauto | subst m; exact Ebelow].
    + apply (IH _ _ _ Hall').
      assert (Hna : ~ ahead_of i self (List.length pre) v)
        by (intros (_ & _ & _ & H); contradiction).
      unfold find_invariant in *.
      destruct nearest as [[j w]|], md as [m|]; try contradiction.
      * destruct Hinv as (Hm & Hj & Ha & Hmin).
        split; [exact Hm|]. split; [exact Hj|]. split; [exact Ha|].
        intros k u Hku Hu.
        destruct (Hsnoc k u Hku) as [H | [-> ->]]; [eauto | contradiction].
      * intros k u Hku Hu.
        destruct (Hsnoc k u Hku) as [H | [-> ->]];
          [exact (Hinv k u H Hu) | contradiction].
Qed.

(** [find_vehicle_ahead] returns a nearest vehicle ahead in the lane and
    direction of [self], and [None] only when there is none. *)
Lemma find_vehicle_ahead_spec i self vehicles :
  find_result i self vehicles (find_vehicle_ahead i self vehicles).
Proof.
  apply (find_from_spec i self vehicles vehicles [] None None);
    [reflexivity|].
  intros k w H. now rewrite lookup_nil in H.
Qed.

(** C2. A vehicle that is not an ambulance, is less than 100 units
    before its stop line (so also less than 150) and sees a red or yellow
    light gets, by its update, the target speed 0 when the remaining stop
    distance [max(light_distance - 10, 0)] is below 50, and otherwise
    [max_speed] times that remaining distance over 100. *)
Theorem brake_for_light :
  forall (cfg : Config) (i : nat) (self : t) (dt ts : Q)
         (vehicles : list t) (light : TrafficLight.t),
    vehicles !! i = Some self ->
    vehicle_type self <> ambulance ->
    0 < distance_to_light cfg self ->
    distance_to_light cfg self < 100 ->
    TrafficLight.get_light_state light (direction self)
      <> TrafficLight.green ->
    exists self',
      TrafficSimulation.update_vehicle cfg i dt vehicles light ts !! i
      = Some self'
      /\ (stop_distance cfg self < 50 -> target_speed self' = 0)
      /\ (50 <= stop_distance cfg self ->
          target_speed self'
          = max_speed self * (stop_distance cfg self / 100))
      /\ (distance_to_light cfg self < 60 -> target_speed self' = 0)
      /\ (60 <= distance_to_light cfg self ->
          target_speed self'
          == max_speed self * ((distance_to_light cfg self - 10) / 100)).
Proof.
  intros cfg i self dt ts vehicles light Hi Hty Hpos Hnear Hcol.
  exists (update_self cfg i self dt vehicles light ts).
  split; [now apply update_vehicle_base|].
  rewrite target_speed_update_self.
  pose proof (same_car_before_target cfg self (dt * ts) light) as Hsame.
  set (s := before_target cfg self (dt * ts) light) in *.
  assert (Hbrake : braking_for_light cfg s light = true).
  { rewrite (same_car_braking cfg s self light Hsame).
    unfold braking_for_light, should_stop_at_light.
    apply NumFacts.ltb_lt in Hpos. rewrite Hpos.
    assert (distance_to_light cfg self < 150) as H150 by lra.
    apply NumFacts.ltb_lt in H150, Hnear. rewrite H150, Hnear.
    now destruct (TrafficLight.get_light_state light (direction self)). }
  unfold determine_target. rewrite Hbrake.
  rewrite (same_car_distance_to_light cfg s self Hsame).
  fold (stop_distance cfg self).
  assert (Hmax : max_speed s = max_speed self) by apply Hsame.
  assert (Hsd : (10 <= distance_to_light cfg self
                 /\ stop_distance cfg self = distance_to_light cfg self - 10)
                \/ (distance_to_light cfg self < 10
                    /\ stop_distance cfg self = 0)).
  { unfold stop_distance.
    destruct (NumFacts.max2_cases (distance_to_light cfg self - 10) 0)
      as [[H ->] | [H ->]]; [right | left]; split; auto; lra. }
  destruct (NumFacts.ltb_spec (stop_distance cfg self) 50) as [Hlt | Hge];
    cbn [target_speed set_target_speed]; rewrite ?Hmax.
  - repeat split; try reflexivity; intros; exfalso;
      destruct Hsd as [[? E] | [? E]]; rewrite E in *; lra.
  - repeat split; try reflexivity; intros.
    + contradiction.
    + exfalso. destruct Hsd as [[? E] | [? E]]; rewrite E in *; lra.
    + destruct Hsd as [[? E] | [? E]]; rewrite E in *; [reflexivity|lra].
Qed.

(** *** Car following *)

Lemma determine_target_keeps cfg s ahead light :
  speed (determine_target cfg s ahead light) = speed s
  /\ acceleration (determine_target cfg s ahead light) = acceleration s
  /\ max_speed (determine_target cfg s ahead light) = max_speed s.
Proof.
  unfold determine_target.
  destruct (braking_for_light cfg s light).
  - destruct (_ <? _); repeat split.
  - destruct ahead as [[j a]|].
    + destruct (_ <? _); [|destruct (_ <? _)]; repeat split.
    + destruct (_ && _); repeat split.
Qed.

(** The target chosen when the vehicle does not brake for the light. *)
Lemma determine_target_following cfg s ahead light :
  braking_for_light cfg s light = false ->
  target_speed (determine_target cfg s ahead light) =
  match ahead with
  | Some (_, leader) =>
      if distance_to_vehicle s leader <? SAFE_DISTANCE cfg
      then speed leader * 0.9
      else if distance_to_vehicle s leader <? SAFE_DISTANCE cfg * 2
      then speed leader
      else max_speed s
  | None => max_speed s
  end.
Proof.
  intros Hb. unfold determine_target. rewrite Hb.
  destruct ahead as [[j a]|].
  - destruct (_ <? _); [|destruct (_ <? _)]; reflexivity.
  - destruct (_ && _); reflexivity.
Qed.

(** Braking towards a lower target lowers the speed, provided time
    passes, the vehicle can decelerate and it is moving. *)
Lemma integrate_speed_brakes s dt :
  target_speed s < speed s ->
  0 < speed s ->
  0 < acceleration s * dt ->
  speed (integrate_speed s dt) < speed s
  /\ target_speed s <= speed (integrate_speed s dt).
Proof.
  intros Ht Hs Ha. unfold integrate_speed.
  destruct (NumFacts.ltb_spec (speed s) (target_speed s)) as [H | _];
    [lra|].
  destruct (NumFacts.ltb_spec (target_speed s) (speed s)) as [_ | H];
    [|contradiction].
  cbn [speed set_speed].
  destruct (NumFacts.max3_cases
              (speed s - acceleration s * 1.5 * dt) (target_speed s) 0)
    as ([E | [E | E]] & H1 & H2 & H3); rewrite E in *; split; lra.
Qed.

(** C3, as the code has it. For a vehicle that is not an ambulance and
    does not brake for the light, the update sets the target speed from the
    vehicle returned by [find_vehicle_ahead], which is a nearest vehicle
    ahead in its lane and direction: 0.9 times the leader's speed when the
    front-to-rear gap is below [SAFE_DISTANCE], the leader's speed when the
    gap is below twice [SAFE_DISTANCE], and [max_speed] otherwise, as well
    as when no vehicle is ahead. In the scenario of a right-moving
    follower at [x = 100], the vehicle at [x = 130] is its leader only if
    the follower is shorter than 30, the gap being [30 - length]; then,
    the gap being below [SAFE_DISTANCE], the target becomes 0.9 times the
    leader's speed and, if the follower started above that target, its
    speed after the update is strictly lower (the call lasting a positive
    time, the acceleration being positive and the leader not moving
    backwards). *)
Theorem car_following :
  forall (cfg : Config) (i : nat) (self : t) (dt ts : Q)
         (vehicles : list t) (light : TrafficLight.t),
    vehicles !! i = Some self ->
    vehicle_type self <> ambulance ->
    braking_for_light cfg self light = false ->
    exists self',
      TrafficSimulation.update_vehicle cfg i dt vehicles light ts !! i
      = Some self'
      /\ match find_vehicle_ahead i self vehicles with
         | Some (j, leader) =>
             nearest_ahead i self vehicles j leader
             /\ (distance_to_vehicle self leader < SAFE_DISTANCE cfg ->
                 target_speed self' = speed leader * 0.9)
             /\ (SAFE_DISTANCE cfg <= distance_to_vehicle self leader ->
                 distance_to_vehicle self leader < SAFE_DISTANCE cfg * 2 ->
                 target_speed self' = speed leader)
             /\ (SAFE_DISTANCE cfg * 2 <= distance_to_vehicle self leader ->
                 target_speed self' = max_speed self)
             /\ (direction self = 1%Z -> x self = 100 -> x leader = 130 ->
                 length self < 30
                 /\ distance_to_vehicle self leader == 30 - length self)
             /\ (direction self = 1%Z -> x self = 100 -> x leader = 130 ->
                 distance_to_vehicle self leader < SAFE_DISTANCE cfg ->
                 target_speed self' = speed leader * 0.9
                 /\ (speed leader * 0.9 < speed self ->
                     0 < dt * ts -> 0 < acceleration self ->
                     0 <= speed leader ->
                     speed self' < speed self))
         | None =>
             nothing_ahead i self vehicles
             /\ target_speed self' = max_speed self
         end.
Proof.
  intros cfg i self dt ts vehicles light Hi Hty Hbrake.
  exists (update_self cfg i self dt vehicles light ts).
  split; [now apply update_vehicle_base|].
  rewrite target_speed_update_self, speed_update_self.
  pose proof (same_car_before_target cfg self (dt * ts) light) as Hsame.
  set (s := before_target cfg self (dt * ts) light) in *.
  assert (Hb : braking_for_light cfg s light = false)
    by (now rewrite (same_car_braking cfg s self light Hsame)).
  pose proof (find_vehicle_ahead_spec i self vehicles) as Hfind.
  rewrite (determine_target_following cfg s _ light Hb).
  assert (Hmax : max_speed s = max_speed self) by apply Hsame.
  destruct (find_vehicle_ahead i self vehicles) as [[j leader]|] eqn:Ef;
    cbn [find_result] in Hfind; [|now split].
  rewrite (same_car_distance_to_vehicle s self leader Hsame), Hmax.
  set (gap := distance_to_vehicle self leader).
  assert (Hclose : gap < SAFE_DISTANCE cfg ->
            (if gap <? SAFE_DISTANCE cfg then speed leader * 0.9
             else if gap <? SAFE_DISTANCE cfg * 2 then speed leader
             else max_speed self) = speed leader * 0.9).
  { intros H. apply NumFacts.ltb_lt in H. now rewrite H. }
  split; [exact Hfind|]. split; [exact Hclose|].
  split; [|split; [|split]].
  3:{ intros Hd Hx Hxl.
      destruct Hfind as (_ & (_ & _ & _ & Hpos) & _).
      unfold gap in *. unfold distance_to_vehicle in *.
      rewrite Hd, Hx, Hxl in *. cbn in Hpos |- *. split; [lra | ring]. }
  - intros H1 H2. apply NumFacts.ltb_ge in H1. apply NumFacts.ltb_lt in H2.
    now rewrite H1, H2.
  - intros H2.
    assert (SAFE_DISTANCE cfg <= gap) as H1.
    { destruct Hfind as (_ & (_ & _ & _ & Hpos) & _). fold gap in Hpos.
      destruct (Qlt_le_dec gap (SAFE_DISTANCE cfg)); [lra | assumption]. }
    apply NumFacts.ltb_ge in H1, H2. now rewrite H1, H2.
  - intros _ _ _ Hgap. split; [now apply Hclose|].
    intros Habove Hdt Hacc Hlead.
    pose proof (determine_target_keeps cfg s
                  (Some (j, leader)) light) as (Hsp & Hac & _).
    pose proof (determine_target_following cfg s
                  (Some (j, leader)) light Hb) as Htg.
    cbn beta iota in Htg.
    rewrite (same_car_distance_to_vehicle s self leader Hsame) in Htg.
    fold gap in Htg. rewrite Hmax, (Hclose Hgap) in Htg.
    assert (Hs : speed s = speed self) by apply Hsame.
    assert (Ha : acceleration s = acceleration self) by apply Hsame.
    set (s2 := determine_target cfg s (Some (j, leader)) light) in *.
    destruct (integrate_speed_brakes s2 (dt * ts)) as [Hlt _].
    + rewrite Htg, Hsp, Hs. exact Habove.
    + rewrite Hsp, Hs. lra.
    + rewrite Hac, Ha. apply Qmult_lt_0_compat; assumption.
    + rewrite Hsp, Hs in Hlt. exact Hlt.
Qed.

(** The theorem on [Scenes.following_scene]: the gap from [A] to [B] is
    10, the target of [A] becomes 0.9 * 40 = 36, and its speed falls
    below 50. *)
Lemma car_following_witness :
  exists self',
    TrafficSimulation.update_vehicle sample_config 0 (1 # 60)
      following_scene TrafficLight.init 1 !! 0%nat = Some self'
    /\ find_vehicle_ahead 0 follower_A following_scene = Some (1%nat, leader_B)
    /\ target_speed self' = speed leader_B * 0.9
    /\ speed self' < speed follower_A.
Proof.
  destruct (car_following sample_config 0 follower_A (1 # 60) 1
              following_scene TrafficLight.init eq_refl)
    as (self' & Hu & Hf); [discriminate | reflexivity |].
  exists self'. split; [exact Hu|].
  change (find_vehicle_ahead 0 follower_A following_scene)
    with (Some (1%nat, leader_B)) in Hf.
  destruct Hf as (_ & _ & _ & _ & _ & Hs).
  destruct Hs as [Ht Hsp]; try reflexivity.
  repeat split; [exact Ht|].
  apply Hsp; try reflexivity. discriminate.
Defined.

(** C3 as stated fails in its scenario. In [Scenes.hidden_leader_scene] the
    follower at [x = 100] is a car of length 40 with speed 50 and the other
    car of its lane is at [x = 130]: the front-to-rear gap is -10, below
    [SAFE_DISTANCE], but the car at 130 is not ahead of the follower's
    front, so no vehicle ahead is found, the target becomes the maximum
    speed 120 instead of 0.9 * 40 = 36, and the speed rises from 50 to 51
    although it started above 36. *)
Lemma car_following_counterexample :
  x long_follower == 100 /\ x leader_B == 130
  /\ distance_to_vehicle long_follower leader_B == -10
  /\ distance_to_vehicle long_follower leader_B
     < SAFE_DISTANCE sample_config
  /\ speed leader_B * 0.9 < speed long_follower
  /\ find_vehicle_ahead 0 long_follower hidden_leader_scene = None
  /\ exists self',
       TrafficSimulation.update_vehicle sample_config 0 (1 # 60)
         hidden_leader_scene TrafficLight.init 1 !! 0%nat = Some self'
       /\ target_speed self' == 120
       /\ ~ target_speed self' == speed leader_B * 0.9
       /\ speed self' == 51
       /\ ~ speed self' < speed long_follower.
Proof.
  repeat split; try (vm_compute; reflexivity).
  eexists. split; [vm_compute; reflexivity|].
  repeat split; try (vm_compute; reflexivity);
    intros H; vm_compute in H; discriminate H.
Qed.

(** *** The speed range *)

(** What the integration step does keep: a non-negative speed stays
    non-negative, and the speed stays below any bound that holds for both
    the old speed and the target. *)
Lemma integrate_speed_bounds s dt bound :
  0 <= acceleration s * dt ->
  0 <= speed s ->
  speed s <= bound ->
  target_speed s <= bound ->
  0 <= speed (integrate_speed s dt) <= bound.
Proof.
  intros Ha Hs Hb Ht. unfold integrate_speed.
  destruct (NumFacts.ltb_spec (speed s) (target_speed s)) as [H | H].
  - cbn [speed set_speed].
    destruct (NumFacts.min2_cases (speed s + acceleration s * dt)
                (target_speed s)) as [[H1 ->] | [H1 ->]]; lra.
  - destruct (NumFacts.ltb_spec (target_speed s) (speed s)) as [H' | H'];
      [|lra].
    cbn [speed set_speed].
    destruct (NumFacts.max3_cases
                (speed s - acceleration s * 1.5 * dt) (target_speed s) 0)
      as ([E | [E | E]] & H1 & H2 & H3); rewrite E in *; lra.
Qed.

(** The lower half of the speed range does hold for [Vehicle.update]: a
    vehicle that is not moving backwards is not after the update, whatever
    target was chosen, as long as [acceleration * dt] is not negative. *)
Lemma update_self_speed_nonneg cfg i self dt vehicles light ts :
  0 <= acceleration self * (dt * ts) ->
  0 <= speed self ->
  0 <= speed (update_self cfg i self dt vehicles light ts).
Proof.
  intros Ha Hs. rewrite speed_update_self.
  pose proof (same_car_before_target cfg self (dt * ts) light) as Hsame.
  set (s := before_target cfg self (dt * ts) light) in *.
  destruct (determine_target_keeps cfg s (find_vehicle_ahead i self vehicles)
              light) as (Hsp & Hac & _).
  set (s2 := determine_target cfg s _ light) in *.
  assert (E1 : speed s2 = speed self) by (rewrite Hsp; apply Hsame).
  assert (E2 : acceleration s2 = acceleration self)
    by (rewrite Hac; apply Hsame).
  destruct (Qlt_le_dec (speed s2) (target_speed s2)) as [H | H].
  - apply (integrate_speed_bounds s2 (dt * ts) (target_speed s2));
      rewrite ?E1, ?E2; try assumption; try lra.
    rewrite <- E1. lra.
  - apply (integrate_speed_bounds s2 (dt * ts) (speed s2));
      rewrite ?E1, ?E2; try assumption; try lra.
    rewrite <- E1. exact H.
Qed.

(** C1 fails on the code. With [Scenes.chase_scene] (a truck of maximum
    speed 80 behind a sports car of speed 144, at a distance between
    [SAFE_DISTANCE] and twice [SAFE_DISTANCE]) the target speed of the
    truck becomes the speed of the sports car, and one update of one
    second takes the truck from 64 to 94; with the truck already at 80, one
    update of 1/60 second takes it to 80.5. *)
Theorem speed_exceeds_max_speed :
  (exists self',
     TrafficSimulation.update_vehicle sample_config 0 1 chase_scene
       TrafficLight.init 1 !! 0%nat = Some self'
     /\ max_speed self' == 80
     /\ target_speed self' == 144
     /\ speed self' == 94
     /\ ~ speed self' <= max_speed self')
  /\ (exists self',
        TrafficSimulation.update_vehicle sample_config 0 (1 # 60)
          chase_scene_at_max TrafficLight.init 1 !! 0%nat = Some self'
        /\ max_speed self' == 80
        /\ speed self' == 80.5
        /\ ~ speed self' <= max_speed self').
Proof.
  split; eexists; (split; [reflexivity|]); repeat split;
    intros H; apply H; reflexivity.
Qed.

(** *** Lane changes *)

Lemma try_lanes_cases cfg i self vehicles :
  forall lanes,
    try_lanes cfg i self lanes vehicles = vehicles
    \/ exists target,
         In target lanes
         /\ can_change_lane cfg i self target vehicles = true
         /\ try_lanes cfg i self lanes vehicles
            = <[i := change_lane cfg self target]> vehicles.
Proof.
  induction lanes as [|target lanes IH]; [now left|].
  cbn [try_lanes].
  destruct (can_change_lane cfg i self target vehicles) eqn:E.
  - right. exists target. repeat split; auto. now left.
  - destruct IH as [IH | (t' & Hin & Hc & Ht)]; [now left|].
    right. exists t'. repeat split; auto. now right.
Qed.

Lemma try_lanes_refused cfg i self vehicles :
  forall lanes,
    (forall target, In target lanes ->
       can_change_lane cfg i self target vehicles = false) ->
    try_lanes cfg i self lanes vehicles = vehicles.
Proof.
  induction lanes as [|target lanes IH]; intros H; [reflexivity|].
  cbn [try_lanes]. rewrite (H target) by now left.
  apply IH. intros t Ht. apply H. now right.
Qed.

(** The only lane tried is the other lane of the vehicle's own group. *)
Lemma lanes_to_try_group self target :
  In target (lanes_to_try self) ->
  target <> lane self
  /\ ((direction self = 1%Z
       /\ (lane self = 0%Z \/ lane self = 1%Z)
       /\ (target = 0%Z \/ target = 1%Z))
      \/ (direction self <> 1%Z
          /\ (lane self = 2%Z \/ lane self = 3%Z)
          /\ (target = 2%Z \/ target = 3%Z))).
Proof.
  unfold lanes_to_try.
  destruct (Z.eqb_spec (direction self) 1) as [Hd | Hd].
  - destruct (Z.eqb_spec (lane self) 0) as [H0 | H0];
      [|destruct (Z.eqb_spec (lane self) 1) as [H1 | H1]];
      cbn; intros H; try contradiction; destruct H as [<- | []];
      (split; [lia|]); left; repeat split; auto.
  - destruct (Z.eqb_spec (lane self) 2) as [H2 | H2];
      [|destruct (Z.eqb_spec (lane self) 3) as [H3 | H3]];
      cbn; intros H; try contradiction; destruct H as [<- | []];
      (split; [lia|]); right; repeat split; auto.
Qed.

(** An attempt changes nothing or applies a whole lane change. *)
Lemma attempt_lane_change_cases cfg i self vehicles :
  vehicles !! i = Some self ->
  attempt_lane_change cfg i vehicles = vehicles
  \/ exists target,
       In target (lanes_to_try self)
       /\ can_change_lane cfg i self target vehicles = true
       /\ attempt_lane_change cfg i vehicles
          = <[i := change_lane cfg self target]> vehicles.
Proof.
  intros Hi. unfold attempt_lane_change. rewrite Hi.
  destruct (find_vehicle_ahead i self vehicles) as [[j a]|]; [|now left].
  destruct (_ <? _); [now left|].
  apply try_lanes_cases.
Qed.

(** A vehicle with no vehicle ahead of it never changes lane. *)
Lemma attempt_needs_leader cfg i self vehicles :
  vehicles !! i = Some self ->
  find_vehicle_ahead i self vehicles = None ->
  attempt_lane_change cfg i vehicles = vehicles.
Proof.
  intros Hi Hf. unfold attempt_lane_change. now rewrite Hi, Hf.
Qed.

(** C6 fails on the code. In [Scenes.twin_scene] two cars of the same
    length drive side by side, at the same [x], in lanes 0 and 1: the
    forward and the rearward gap of the requesting car to its neighbour are
    both -40, below the minimum gap of 60 in absolute value, and yet
    [can_change_lane] answers [True] and the attempt puts the requesting
    car into lane 1 at the [x] of the car that is already there. The test
    of the loop asks both gaps to be above minus the length of the
    requesting car, which a car of the same or a greater length never
    meets. In [Scenes.squeeze_scene] the check likewise accepts lane 1
    although the car there leaves a forward gap of 10. Besides,
    [can_change_lane] only checks the target lane against 0 and
    [NUM_LANES]: a right-moving car in lane 1 is allowed lane 2, outside
    its lane group (the attempt never asks for it). *)
Theorem lane_change_unsafe :
  (twin_scene !! 1%nat = Some twin_neighbour
   /\ lane twin_neighbour = 1%Z
   /\ direction twin_neighbour = direction twin_car
   /\ x twin_neighbour = x twin_car
   /\ gap_front twin_car twin_neighbour == -40
   /\ gap_rear twin_car twin_neighbour == -40
   /\ Qabs (gap_front twin_car twin_neighbour)
      < LANE_CHANGE_MIN_GAP sample_config
   /\ lane_change_cooldown twin_car = 0
   /\ can_change_lane sample_config 0 twin_car 1 twin_scene = true
   /\ exists self',
        attempt_lane_change sample_config 0 twin_scene !! 0%nat = Some self'
        /\ lane self' = lane twin_neighbour
        /\ x self' = x twin_neighbour)
  /\ (squeeze_scene !! 1%nat = Some neighbour_car
      /\ lane neighbour_car = 1%Z
      /\ direction neighbour_car = direction changing_car
      /\ gap_front changing_car neighbour_car == 10
      /\ gap_front changing_car neighbour_car
         < LANE_CHANGE_MIN_GAP sample_config
      /\ can_change_lane sample_config 0 changing_car 1 squeeze_scene = true
      /\ exists self',
           attempt_lane_change sample_config 0 squeeze_scene !! 0%nat
           = Some self'
           /\ lane self' = 1%Z)
  /\ (direction lone_car = 1%Z
      /\ lane_change_cooldown lone_car = 0
      /\ can_change_lane sample_config 0 lone_car 2 [lone_car] = true).
Proof.
  split; [|split].
  - repeat split; try (vm_compute; reflexivity).
    eexists. split; [vm_compute; reflexivity|]. split; reflexivity.
  - repeat split; try (vm_compute; reflexivity).
    eexists. split; [vm_compute; reflexivity|]. reflexivity.
  - repeat split.
Qed.

(** The theorem on [Scenes.braking_car] under a red light: 80 units before
    the stop line the remaining stop distance is 70 and the target speed
    becomes 120 * 0.7 = 84. *)
Lemma brake_for_light_witness :
  exists self',
    TrafficSimulation.update_vehicle sample_config 0 (1 # 60) [braking_car]
      red_light 1 !! 0%nat = Some self'
    /\ target_speed self' == 84.
Proof.
  destruct (brake_for_light sample_config 0 braking_car (1 # 60) 1
              [braking_car] red_light)
    as (self' & Hu & _ & _ & _ & Ht);
    [reflexivity | discriminate | vm_compute; reflexivity
    | vm_compute; reflexivity | discriminate |].
  exists self'. split; [exact Hu|].
  rewrite Ht by (vm_compute; discriminate). vm_compute. reflexivity.
Defined.

End VehicleFacts.

(** ** The clearing pass of the ambulance *)

Module AmbulanceFacts.
Import Vehicle Scenes.

(** After [Ambulance.update] every other vehicle is as the clearing pass,
    which runs before the ambulance chooses its own target speed, has left
    it. *)
Lemma update_others cfg i self dt vehicles light ts k :
  vehicles !! i = Some self ->
  k <> i ->
  Ambulance.update cfg i dt vehicles light ts !! k
  = snd (Ambulance.prepare cfg i self (dt * ts) vehicles) !! k.
Proof.
  intros Hi Hk. unfold Ambulance.update. rewrite Hi.
  destruct (Ambulance.prepare cfg i self (dt * ts) vehicles) as [s vs].
  cbn [snd]. apply list_lookup_insert_ne. congruence.
Qed.

(** On a blocking vehicle that has a leader of its own the pass works:
    in [emergency_scene_with_leader] the blocking car is in lane 1 after
    the update of the ambulance. *)
Lemma ambulance_moves_blocker_with_leader :
  exists blocker',
    TrafficSimulation.update_vehicle sample_config 0 (1 # 60)
      emergency_scene_with_leader TrafficLight.init 1 !! 1%nat
    = Some blocker'
    /\ lane blocker' = 1%Z.
Proof. eexists. split; reflexivity. Qed.

(** C7 fails on the code in its scenario. In [Scenes.emergency_scene] the
    car is 100 units ahead of the ambulance in its lane, its cooldown is
    0 and the adjacent lane 1 of its group is eligible; the clearing pass
    does call [attempt_lane_change] on it, but that method returns at once
    because the car has no vehicle ahead of itself, and after the update of
    the ambulance the car is unchanged, still in lane 0. *)
Theorem ambulance_leaves_lone_blocker :
  emergency_scene !! 1%nat = Some blocker
  /\ vehicle_type blocker <> ambulance
  /\ lane blocker = lane ambulance_E
  /\ direction blocker = direction ambulance_E
  /\ distance_to_vehicle ambulance_E blocker == 100
  /\ lane_change_cooldown blocker = 0
  /\ lanes_to_try blocker = [1%Z]
  /\ can_change_lane sample_config 1 blocker 1 emergency_scene = true
  /\ find_vehicle_ahead 1 blocker emergency_scene = None
  /\ attempt_lane_change sample_config 1 emergency_scene = emergency_scene
  /\ Ambulance.clear_path sample_config 0 ambulance_E emergency_scene
     = emergency_scene
  /\ TrafficSimulation.update_vehicle sample_config 0 (1 # 60)
       emergency_scene TrafficLight.init 1 !! 1%nat = Some blocker
  /\ lane blocker = 0%Z.
Proof.
  repeat split. discriminate.
Qed.

End AmbulanceFacts.

(** ** More on lane changes *)

Module LaneChangeFacts.
Import Vehicle Frames.

Lemma can_change_lane_from_iff cfg i self target :
  forall vs k0,
    can_change_lane_from cfg i self target k0 vs = true
    <-> (forall k v,
           vs !! k = Some v -> (k0 + k)%nat <> i ->
           lane v = target -> direction v = direction self ->
           blocks cfg self v = false).
Proof.
  induction vs as [|u vs IH]; intros k0.
  - cbn. split; [|reflexivity]. intros _ k v H. now rewrite lookup_nil in H.
  - cbn [can_change_lane_from].
    destruct ((k0 =? i)%nat || negb (lane u =? target)%Z
              || negb (direction u =? direction self)%Z) eqn:Eskip.
    + rewrite IH. split; intros H k v Hk Hne Hl Hd.
      * destruct k as [|k]; cbn in Hk.
        -- injection Hk as ->. rewrite Nat.add_0_r in Hne.
           exfalso.
           apply orb_true_iff in Eskip as [E | E];
             [apply orb_true_iff in E as [E | E]|].
           ++ apply Nat.eqb_eq in E. contradiction.
           ++ apply negb_true_iff, Z.eqb_neq in E. contradiction.
           ++ apply negb_true_iff, Z.eqb_neq in E. contradiction.
        -- apply (H k v Hk); auto. lia.
      * apply (H (S k) v); auto. lia.
    + apply orb_false_iff in Eskip as [E Ed].
      apply orb_false_iff in E as [Ek El].
      apply Nat.eqb_neq in Ek. apply negb_false_iff, Z.eqb_eq in El, Ed.
      destruct (blocks cfg self u) eqn:Eb.
      * split; [discriminate|]. intros H.
        assert (blocks cfg self u = false) by (apply (H 0%nat u); auto; lia).
        congruence.
      * rewrite IH. split; intros H k v Hk Hne Hl Hd.
        -- destruct k as [|k]; cbn in Hk.
           ++ now injection Hk as <-.
           ++ apply (H k v Hk); auto. lia.
        -- apply (H (S k) v); auto. lia.
Qed.

(** The loop refuses on account of [v] only if [v] lies strictly inside
    the span of the requesting vehicle, so [v] is strictly shorter. *)
Lemma blocks_inside cfg self v :
  blocks cfg self v = true ->
  strictly_inside self v /\ length v < length self.
Proof.
  unfold blocks, strictly_inside, gap_front, gap_rear. intros H.
  apply andb_true_iff in H as [H _]. apply andb_true_iff in H as [Hf Hr].
  apply NumFacts.ltb_lt in Hf, Hr.
  destruct (direction self =? 1)%Z; repeat split; lra.
Qed.

(** X1. [can_change_lane] answers [True] exactly when the cooldown timer is
    not positive, the target lane is between 0 and [NUM_LANES - 1], and no
    other vehicle of the target lane and of the same direction passes the
    test of the loop. That test can only be passed by a vehicle lying
    strictly inside the span of the requesting vehicle, hence strictly
    shorter than it: a vehicle that merely overlaps it, or that is just
    ahead of or behind it, never makes the check fail. *)
Theorem can_change_lane_exactly :
  forall (cfg : Config) (i : nat) (self : t) (target : Z)
         (vehicles : list t),
    (can_change_lane cfg i self target vehicles = true
     <-> lane_change_cooldown self <= 0
         /\ (0 <= target < NUM_LANES cfg)%Z
         /\ forall k v,
              vehicles !! k = Some v -> k <> i ->
              lane v = target -> direction v = direction self ->
              blocks cfg self v = false)
    /\ (forall v, blocks cfg self v = true ->
                  strictly_inside self v /\ length v < length self)
    /\ (lane_change_cooldown self <= 0 ->
        (0 <= target < NUM_LANES cfg)%Z ->
        (forall k v,
           vehicles !! k = Some v -> k <> i ->
           lane v = target -> direction v = direction self ->
           ~ strictly_inside self v) ->
        can_change_lane cfg i self target vehicles = true).
Proof.
  intros cfg i self target vehicles.
  assert (Hiff : can_change_lane cfg i self target vehicles = true
     <-> lane_change_cooldown self <= 0
         /\ (0 <= target < NUM_LANES cfg)%Z
         /\ forall k v,
              vehicles !! k = Some v -> k <> i ->
              lane v = target -> direction v = direction self ->
              blocks cfg self v = false).
  { unfold can_change_lane.
    destruct (NumFacts.ltb_spec 0 (lane_change_cooldown self)) as [Hc | Hc].
    { split; [discriminate|]. intros [H _]. lra. }
    destruct (Z.ltb_spec target 0) as [H0 | H0]; cbn [orb].
    { split; [discriminate|]. intros (_ & H & _). lia. }
    destruct (Z.leb_spec (NUM_LANES cfg) target) as [Hn | Hn].
    { split; [discriminate|]. intros (_ & H & _). lia. }
    rewrite can_change_lane_from_iff. cbn [Nat.add].
    split.
    - intros H. split; [lra|]. split; [lia|]. exact H.
    - intros (_ & _ & H). exact H. }
  split; [exact Hiff|]. split; [apply blocks_inside|].
  intros Hc Ht Hin. apply Hiff. split; [exact Hc|]. split; [exact Ht|].
  intros k v Hk Hne Hl Hd.
  destruct (blocks cfg self v) eqn:Eb; [|reflexivity].
  exfalso. apply (Hin k v Hk Hne Hl Hd). now apply blocks_inside in Eb.
Qed.

Lemma same_but_lane_refl a : same_but_lane a a.
Proof. repeat split. Qed.

Lemma same_but_lane_trans a b c :
  same_but_lane a b -> same_but_lane b c -> same_but_lane a c.
Proof.
  unfold same_but_lane. intros H1 H2.
  repeat match goal with H : _ /\ _ |- _ => destruct H end.
  repeat split; congruence.
Qed.

Lemma same_but_lane_change cfg self target :
  same_but_lane self (change_lane cfg self target).
Proof. repeat split. Qed.

Lemma change_lane_group cfg self target :
  In target (lanes_to_try self) ->
  in_lane_group self -> in_lane_group (change_lane cfg self target).
Proof.
  intros Hin Hg. apply VehicleFacts.lanes_to_try_group in Hin as (_ & Hin).
  unfold in_lane_group in *. cbn [lane direction change_lane
    set_lane_change_cooldown set_y set_lane].
  destruct Hin as [(Hd & _ & Ht) | (Hd & _ & Ht)].
  - left. auto.
  - right. split; [|exact Ht]. destruct Hg as [[Hg _] | [Hg _]]; congruence.
Qed.

(** X2. A lane-change attempt is local: the store keeps its length, every
    other vehicle is left as it is, and the requesting vehicle keeps
    everything but its lane, its y position and its cooldown. It either
    stays exactly as it was or ends in a different lane with the cooldown
    set to [LANE_CHANGE_COOLDOWN]; and a vehicle that drives in the lane
    group of its direction still does afterwards. *)
Theorem attempt_lane_change_frame :
  forall (cfg : Config) (i : nat) (vehicles : list t),
    List.length (attempt_lane_change cfg i vehicles) = List.length vehicles
    /\ forall k v,
         vehicles !! k = Some v ->
         exists v',
           attempt_lane_change cfg i vehicles !! k = Some v'
           /\ same_but_lane v v'
           /\ (k <> i -> v' = v)
           /\ (v' = v
               \/ (lane v' <> lane v
                   /\ lane_change_cooldown v' = LANE_CHANGE_COOLDOWN cfg))
           /\ (in_lane_group v -> in_lane_group v').
Proof.
  intros cfg i vehicles.
  destruct (vehicles !! i) as [self|] eqn:Hi.
  - destruct (VehicleFacts.attempt_lane_change_cases cfg i self vehicles Hi)
      as [E | (t0 & Hin & _ & E)]; rewrite E.
    + split; [reflexivity|]. intros k v Hk. exists v.
      repeat split; auto.
    + split; [apply length_insert|]. intros k v Hk.
      destruct (Nat.eq_dec k i) as [-> | Hne].
      * assert (v = self) as -> by congruence.
        exists (change_lane cfg self t0).
        split; [apply list_lookup_insert_eq; eapply lookup_lt_Some; eauto|].
        split; [apply same_but_lane_change|].
        split; [congruence|]. split.
        -- right. split; [|reflexivity].
           apply VehicleFacts.lanes_to_try_group in Hin as [Hin _].
           exact Hin.
        -- now apply change_lane_group.
      * exists v. rewrite list_lookup_insert_ne by congruence.
        repeat split; auto.
  - assert (E : attempt_lane_change cfg i vehicles = vehicles)
      by (unfold attempt_lane_change; now rewrite Hi).
    rewrite E. split; [reflexivity|]. intros k v Hk. exists v.
    repeat split; auto.
Qed.

(** X3. With a positive [LANE_CHANGE_COOLDOWN], asking the same vehicle
    twice in a row changes nothing more than asking once: after a lane
    change the cooldown makes every further check fail, so the vehicle
    cannot bounce back. *)
Theorem attempt_lane_change_once :
  forall (cfg : Config) (i : nat) (vehicles : list t),
    0 < LANE_CHANGE_COOLDOWN cfg ->
    attempt_lane_change cfg i (attempt_lane_change cfg i vehicles)
    = attempt_lane_change cfg i vehicles.
Proof.
  intros cfg i vehicles Hc.
  destruct (vehicles !! i) as [self|] eqn:Hi.
  - destruct (VehicleFacts.attempt_lane_change_cases cfg i self vehicles Hi)
      as [E | (t0 & _ & _ & E)]; rewrite E; [exact E|].
    set (self' := change_lane cfg self t0).
    assert (Hi' : <[i := self']> vehicles !! i = Some self')
      by (apply list_lookup_insert_eq; eapply lookup_lt_Some; eauto).
    unfold attempt_lane_change at 1. rewrite Hi'.
    destruct (find_vehicle_ahead i self' _) as [[j a]|]; [|reflexivity].
    destruct (_ <? _); [reflexivity|].
    apply VehicleFacts.try_lanes_refused. intros t1 _.
    unfold can_change_lane.
    assert ((0 <? lane_change_cooldown self') = true) as ->
      by (apply NumFacts.ltb_lt; exact Hc).
    reflexivity.
  - assert (E : attempt_lane_change cfg i vehicles = vehicles)
      by (unfold attempt_lane_change; now rewrite Hi).
    now rewrite !E.
Qed.

(** The theorem on [Scenes.emergency_scene_with_leader], where the first
    attempt of the blocking car does change its lane. *)
Lemma attempt_lane_change_once_witness :
  attempt_lane_change sample_config 1 Scenes.emergency_scene_with_leader
  <> Scenes.emergency_scene_with_leader
  /\ attempt_lane_change sample_config 1
       (attempt_lane_change sample_config 1
          Scenes.emergency_scene_with_leader)
     = attempt_lane_change sample_config 1 Scenes.emergency_scene_with_leader.
Proof.
  split; [discriminate|].
  apply attempt_lane_change_once. reflexivity.
Defined.

End LaneChangeFacts.

(** ** More on the neighbour lookup *)

Module NeighbourFacts.
Import Vehicle UpdateSteps Frames.

Lemma find_from_cons i self k v vs nearest md :
  find_vehicle_ahead_from i self k (v :: vs) nearest md
  = find_vehicle_ahead_from i self (S k) vs
      (fst (find_body i self k v nearest md))
      (snd (find_body i self k v nearest md)).
Proof.
  cbn [find_vehicle_ahead_from]. unfold find_body.
  destruct (_ || _); [reflexivity|].
  cbv zeta. destruct (_ && _); reflexivity.
Qed.

(** What the loop keeps besides [find_invariant]: the vehicle held in
    [nearest] was met in the prefix, at the distance held in
    [min_distance], and every vehicle ahead met before it is strictly
    farther. *)
Lemma find_from_first i self all :
  forall vs pre nearest md,
    all = pre ++ vs ->
    find_invariant i self all pre nearest md ->
    match nearest with
    | Some (j, v) =>
        (j < List.length pre)%nat
        /\ forall k w, all !! k = Some w -> ahead_of i self k w ->
             (k < j)%nat ->
             distance_to_vehicle self v < distance_to_vehicle self w
    | None => True
    end ->
    match find_vehicle_ahead_from i self (List.length pre) vs nearest md with
    | Some (j, v) =>
        forall k w, all !! k = Some w -> ahead_of i self k w ->
          (k < j)%nat ->
          distance_to_vehicle self v < distance_to_vehicle self w
    | None => True
    end.
Proof.
  induction vs as [|v vs IH]; intros pre nearest md Hall Hinv Hfirst.
  - cbn. destruct nearest as [[j w]|]; [apply Hfirst | exact I].
  - assert (Hall' : all = (pre ++ [v]) ++ vs) by (now rewrite <- app_assoc).
    assert (Hlen : List.length (pre ++ [v]) = S (List.length pre))
      by (rewrite List.length_app; cbn; lia).
    assert (Hv : all !! List.length pre = Some v)
      by (rewrite Hall; now apply list_lookup_middle).
    assert (Hpre : forall k w, (k < List.length pre)%nat ->
              all !! k = Some w -> pre !! k = Some w).
    { intros k w Hk Hw. rewrite Hall, lookup_app_l in Hw by exact Hk.
      exact Hw. }
    rewrite find_from_cons, <- Hlen.
    assert (Hnext : find_invariant i self all (pre ++ [v])
                      (fst (find_body i self (List.length pre) v nearest md))
                      (snd (find_body i self (List.length pre) v nearest md))
                    /\ match fst (find_body i self (List.length pre) v
                                   nearest md) with
                       | Some (j, u) =>
                           (j < List.length (pre ++ [v]))%nat
                           /\ forall k w, all !! k = Some w ->
                                ahead_of i self k w -> (k < j)%nat ->
                                distance_to_vehicle self u
                                < distance_to_vehicle self w
                       | None => True
                       end).
    { assert (Hsnoc : forall k w, (pre ++ [v]) !! k = Some w ->
                pre !! k = Some w \/ (k = List.length pre /\ w = v)).
      { intros k w H.
        apply lookup_snoc_Some in H as [[_ H] | [H1 H2]]; auto. }
      assert (Hkeep : ~ ahead_of i self (List.length pre) v
                      \/ (exists m, md = Some m
                                    /\ m <= distance_to_vehicle self v) ->
                find_invariant i self all (pre ++ [v]) nearest md
                /\ match nearest with
                   | Some (j, u) =>
                       (j < List.length (pre ++ [v]))%nat
                       /\ forall k w, all !! k = Some w ->
                            ahead_of i self k w -> (k < j)%nat ->
                            distance_to_vehicle self u
                            < distance_to_vehicle self w
                   | None => True
                   end).
      { intros Hcase. split.
        - unfold find_invariant in *.
          destruct nearest as [[j u]|], md as [m|]; try contradiction.
          + destruct Hinv as (Hm & Hj & Ha & Hmin).
            split; [exact Hm|]. split; [exact Hj|]. split; [exact Ha|].
            intros k w Hk Hw.
            destruct (Hsnoc k w Hk) as [H | [-> ->]]; [eauto|].
            destruct Hcase as [Hna | (m' & Em & Hle)]; [contradiction|].
            injection Em as <-. exact Hle.
          + intros k w Hk Hw.
            destruct (Hsnoc k w Hk) as [H | [-> ->]];
              [exact (Hinv k w H Hw)|].
            destruct Hcase as [Hna | (m' & Em & _)];
              [contradiction | discriminate].
        - destruct nearest as [[j u]|]; [|exact I].
          destruct Hfirst as [Hj Hf]. split; [lia | exact Hf]. }
      unfold find_body.
      destruct ((List.length pre =? i)%nat || negb (lane v =? lane self)%Z
                || negb (direction v =? direction self)%Z) eqn:Eskip.
      { cbn [fst snd]. apply Hkeep. left.
        now apply VehicleFacts.skip_not_ahead. }
      apply VehicleFacts.keep_ahead in Eskip as (Hk & Hl & Hd).
      cbv zeta.
      destruct (NumFacts.ltb_spec 0 (distance_to_vehicle self v))
        as [Hpos | Hneg]; cbn [andb].
      2:{ cbn [fst snd]. apply Hkeep. left.
          intros (_ & _ & _ & H). contradiction. }
      destruct (below (distance_to_vehicle self v) md) eqn:Ebelow;
        cbn [fst snd].
      2:{ apply Hkeep. right. destruct md as [m|]; [|discriminate].
          exists m. split; [reflexivity|].
          cbn in Ebelow. now apply NumFacts.ltb_ge in Ebelow. }
      assert (Hlt : forall k w, pre !! k = Some w -> ahead_of i self k w ->
                distance_to_vehicle self v < distance_to_vehicle self w).
      { intros k w Hkw Hw. unfold find_invariant in Hinv.
        destruct nearest as [[j u]|], md as [m|]; try contradiction.
        - destruct Hinv as (_ & _ & _ & Hmin). cbn in Ebelow.
          apply NumFacts.ltb_lt in Ebelow. specialize (Hmin k w Hkw Hw). lra.
        - exfalso. exact (Hinv k w Hkw Hw). }
      split.
      - unfold find_invariant. split; [reflexivity|]. split; [exact Hv|].
        split; [repeat split; assumption|].
        intros k w Hkw Hw.
        destruct (Hsnoc k w Hkw) as [H | [-> ->]]; [|lra].
        specialize (Hlt k w H Hw). lra.
      - split; [lia|]. intros k w Hkw Hw Hklt.
        apply (Hlt k w); [now apply Hpre | exact Hw]. }
    destruct Hnext as [Hinv' Hfirst'].
    exact (IH _ _ _ Hall' Hinv' Hfirst').
Qed.

(** X4. [find_vehicle_ahead] returns [None] exactly when no other vehicle
    of the same lane and direction has a positive front-to-rear distance;
    otherwise it returns a vehicle of the store at the least such distance,
    and among several vehicles at that least distance the one that comes
    first in the list. *)
Theorem find_vehicle_ahead_first_nearest :
  forall (i : nat) (self : t) (vehicles : list t),
    (find_vehicle_ahead i self vehicles = None
     <-> nothing_ahead i self vehicles)
    /\ forall j v,
         find_vehicle_ahead i self vehicles = Some (j, v) ->
         nearest_ahead i self vehicles j v
         /\ forall k w,
              vehicles !! k = Some w -> ahead_of i self k w ->
              (k < j)%nat ->
              distance_to_vehicle self v < distance_to_vehicle self w.
Proof.
  intros i self vehicles.
  pose proof (VehicleFacts.find_vehicle_ahead_spec i self vehicles) as Hspec.
  pose proof (find_from_first i self vehicles vehicles [] None None
                eq_refl) as Hfirst.
  cbn [List.length] in Hfirst. fold (find_vehicle_ahead i self vehicles) in Hfirst.
  assert (Hempty : find_invariant i self vehicles [] None None).
  { intros k w H. now rewrite lookup_nil in H. }
  specialize (Hfirst Hempty I).
  split.
  - split.
    + intros E. now rewrite E in Hspec.
    + intros Hn. destruct (find_vehicle_ahead i self vehicles)
        as [[j v]|]; [|reflexivity].
      destruct Hspec as (Hj & Ha & _). exfalso. exact (Hn j v Hj Ha).
  - intros j v E. rewrite E in Hspec, Hfirst. split; assumption.
Qed.

End NeighbourFacts.

(** ** More on the clearing pass *)

Module ClearPathFacts.
Import Vehicle Frames.

(** The local effect of one attempt, in the form the loops below use. *)
Lemma attempt_local cfg i vehicles :
  List.length (attempt_lane_change cfg i vehicles) = List.length vehicles
  /\ forall k v,
       vehicles !! k = Some v ->
       exists v',
         attempt_lane_change cfg i vehicles !! k = Some v'
         /\ same_but_lane v v'
         /\ (k <> i -> v' = v)
         /\ (in_lane_group v -> in_lane_group v').
Proof.
  destruct (vehicles !! i) as [self|] eqn:Hi.
  - destruct (VehicleFacts.attempt_lane_change_cases cfg i self vehicles Hi)
      as [E | (t0 & Hin & _ & E)]; rewrite E.
    + split; [reflexivity|]. intros k v Hk. exists v.
      repeat split; auto.
    + split; [apply length_insert|]. intros k v Hk.
      destruct (Nat.eq_dec k i) as [-> | Hne].
      * assert (v = self) as -> by congruence.
        exists (change_lane cfg self t0).
        split; [apply list_lookup_insert_eq; eapply lookup_lt_Some; eauto|].
        split; [apply LaneChangeFacts.same_but_lane_change|].
        split; [congruence|].
        now apply LaneChangeFacts.change_lane_group.
      * exists v. rewrite list_lookup_insert_ne by congruence.
        repeat split; auto.
  - assert (E : attempt_lane_change cfg i vehicles = vehicles)
      by (unfold attempt_lane_change; now rewrite Hi).
    rewrite E. split; [reflexivity|]. intros k v Hk. exists v.
    repeat split; auto.
Qed.

Lemma VehicleType_eqb_ambulance ty :
  VehicleType_eqb ty ambulance = true <-> ty = ambulance.
Proof. destruct ty; cbn; split; congruence. Qed.

(** The test of the loop of [clear_path], read as a proposition. *)
Lemma clear_test_targeted i self k v :
  (k =? i)%nat || VehicleType_eqb (vehicle_type v) ambulance = false ->
  (lane v =? lane self)%Z && (direction v =? direction self)%Z = true ->
  (0 <? distance_to_vehicle self v) && (distance_to_vehicle self v <? 150)
  = true ->
  targeted i self k v.
Proof.
  intros H1 H2 H3. apply orb_false_iff in H1 as [Hk Hty].
  apply Nat.eqb_neq in Hk.
  apply andb_true_iff in H2 as [Hl Hd]. apply Z.eqb_eq in Hl, Hd.
  apply andb_true_iff in H3 as [Hp Hq]. apply NumFacts.ltb_lt in Hp, Hq.
  repeat split; auto.
  intros E. apply VehicleType_eqb_ambulance in E. congruence.
Qed.

Lemma clear_path_from_frame cfg i self :
  forall ks vehicles,
    List.length (Ambulance.clear_path_from cfg i self ks vehicles)
    = List.length vehicles
    /\ forall k v,
         vehicles !! k = Some v ->
         exists v',
           Ambulance.clear_path_from cfg i self ks vehicles !! k = Some v'
           /\ same_but_lane v v'
           /\ (in_lane_group v -> in_lane_group v')
           /\ (~ targeted i self k v -> v' = v).
Proof.
  induction ks as [|k0 ks IH]; intros vehicles.
  - cbn. split; [reflexivity|]. intros k v Hk. exists v.
    repeat split; auto.
  - cbn [Ambulance.clear_path_from].
    destruct (vehicles !! k0) as [u|] eqn:Hu.
    2:{ split; [reflexivity|]. intros k v Hk. exists v. repeat split; auto. }
    destruct ((k0 =? i)%nat || VehicleType_eqb (vehicle_type u) ambulance)
      eqn:E1; [apply IH|].
    destruct ((lane u =? lane self)%Z && (direction u =? direction self)%Z)
      eqn:E2; [|apply IH].
    cbv zeta.
    destruct ((0 <? distance_to_vehicle self u)
              && (distance_to_vehicle self u <? 150)) eqn:E3; [|apply IH].
    pose proof (clear_test_targeted i self k0 u E1 E2 E3) as Htar.
    destruct (attempt_local cfg k0 vehicles) as [Hlen Hat].
    destruct (IH (attempt_lane_change cfg k0 vehicles)) as [Hlen' Hrest].
    split; [congruence|].
    intros k v Hk. destruct (Hat k v Hk) as (v1 & Hk1 & Hs1 & Hne1 & Hg1).
    destruct (Hrest k v1 Hk1) as (v' & Hk' & Hs' & Hg' & Hn').
    exists v'. split; [exact Hk'|].
    split; [eapply LaneChangeFacts.same_but_lane_trans; eauto|].
    split; [auto|].
    intros Hnt.
    assert (k <> k0) as Hkk by (intros ->; apply Hnt; congruence).
    specialize (Hne1 Hkk). subst v1. now apply Hn'.
Qed.

(** X5. The clearing pass of an ambulance keeps the length of the store
    and, of every vehicle, everything but lane, y position and cooldown;
    it leaves untouched the ambulance itself, every other ambulance, and
    every vehicle that is in another lane, moves in the other direction,
    or is not at a front-to-rear distance strictly between 0 and 150; and
    a vehicle that drives in the lane group of its direction still does
    afterwards. *)
Theorem clear_path_frame :
  forall (cfg : Config) (i : nat) (self : t) (vehicles : list t),
    List.length (Ambulance.clear_path cfg i self vehicles)
    = List.length vehicles
    /\ forall k v,
         vehicles !! k = Some v ->
         exists v',
           Ambulance.clear_path cfg i self vehicles !! k = Some v'
           /\ same_but_lane v v'
           /\ (in_lane_group v -> in_lane_group v')
           /\ (~ targeted i self k v -> v' = v).
Proof.
  intros. apply clear_path_from_frame.
Qed.

End ClearPathFacts.

(** ** Kinematics of an update *)

Module KinematicsFacts.
Import Vehicle VehicleUpdate UpdateSteps Frames.

(** The speed after the integration step stays within the two rates of
    the source, and does not become negative. *)
Lemma integrate_speed_rate s dt :
  0 <= speed s ->
  0 <= acceleration s * dt ->
  0 <= speed (integrate_speed s dt)
  /\ speed s - acceleration s * 1.5 * dt <= speed (integrate_speed s dt)
  /\ speed (integrate_speed s dt) <= speed s + acceleration s * dt.
Proof.
  intros Hs Ha. unfold integrate_speed.
  destruct (NumFacts.ltb_spec (speed s) (target_speed s)) as [H | H].
  - cbn [speed set_speed].
    destruct (NumFacts.min2_cases (speed s + acceleration s * dt)
                (target_speed s)) as [[H1 ->] | [H1 ->]];
      repeat split; lra.
  - destruct (NumFacts.ltb_spec (target_speed s) (speed s)) as [H' | H'].
    + cbn [speed set_speed].
      destruct (NumFacts.max3_cases
                  (speed s - acceleration s * 1.5 * dt) (target_speed s) 0)
        as ([E | [E | E]] & H1 & H2 & H3); rewrite E in *;
        repeat split; lra.
    + repeat split; lra.
Qed.

Lemma finish_props cfg s dt :
  same_identity s (finish cfg s dt)
  /\ speed (finish cfg s dt) = speed (integrate_speed s dt)
  /\ x (finish cfg s dt)
     = x s + speed (finish cfg s dt) * dt * inject_Z (direction s)
  /\ target_speed (finish cfg s dt) = target_speed s
  /\ lane_change_cooldown (finish cfg s dt) = lane_change_cooldown s
  /\ siren_state (finish cfg s dt) = siren_state s
  /\ stopped_at_light (finish cfg s dt) = stopped_at_light s
  /\ passed_intersection (finish cfg s dt)
     = passed_intersection s || beyond_intersection cfg (finish cfg s dt).
Proof.
  unfold finish, mark_passed, move, integrate_speed, beyond_intersection.
  destruct (speed s <? target_speed s);
    [|destruct (target_speed s <? speed s)];
    cbn [direction x set_x set_speed speed];
    (destruct ((direction s =? 1)%Z && _) eqn:E1;
     [|destruct ((direction s =? -1)%Z && _) eqn:E2]);
    cbn [lane y direction length width max_speed acceleration vehicle_type
         speed x target_speed lane_change_cooldown siren_state
         stopped_at_light passed_intersection
         set_passed_intersection set_x set_speed];
    rewrite ?E1, ?E2; cbn [orb];
    repeat split; rewrite ?orb_true_r, ?orb_false_r; reflexivity.
Qed.

(** Both target rules only assign [target_speed] (and, for
    [Vehicle.update], [stopped_at_light]). *)
Lemma determine_target_identity cfg s ahead light :
  same_identity s (determine_target cfg s ahead light)
  /\ x (determine_target cfg s ahead light) = x s
  /\ speed (determine_target cfg s ahead light) = speed s
  /\ lane_change_cooldown (determine_target cfg s ahead light)
     = lane_change_cooldown s
  /\ siren_state (determine_target cfg s ahead light) = siren_state s
  /\ passed_intersection (determine_target cfg s ahead light)
     = passed_intersection s.
Proof.
  unfold determine_target.
  destruct (braking_for_light cfg s light).
  - destruct (_ <? _); repeat split.
  - destruct ahead as [[j a]|].
    + destruct (_ <? _); [|destruct (_ <? _)]; repeat split.
    + destruct (_ && _); repeat split.
Qed.

Lemma ambulance_target_identity cfg s ahead light :
  same_identity s (Ambulance.determine_target cfg s ahead light)
  /\ x (Ambulance.determine_target cfg s ahead light) = x s
  /\ speed (Ambulance.determine_target cfg s ahead light) = speed s
  /\ lane_change_cooldown (Ambulance.determine_target cfg s ahead light)
     = lane_change_cooldown s
  /\ siren_state (Ambulance.determine_target cfg s ahead light)
     = siren_state s
  /\ passed_intersection (Ambulance.determine_target cfg s ahead light)
     = passed_intersection s.
Proof.
  unfold Ambulance.determine_target.
  destruct (_ && _); [repeat split|].
  destruct ahead as [[j a]|]; [destruct (_ <? _)|]; repeat split.
Qed.

Lemma before_target_identity cfg self dt light :
  same_identity self (before_target cfg self dt light)
  /\ x (before_target cfg self dt light) = x self
  /\ speed (before_target cfg self dt light) = speed self
  /\ siren_state (before_target cfg self dt light) = siren_state self
  /\ passed_intersection (before_target cfg self dt light)
     = passed_intersection self
  /\ lane_change_cooldown (before_target cfg self dt light)
     = (if 0 <? lane_change_cooldown self
        then lane_change_cooldown self - dt
        else lane_change_cooldown self).
Proof.
  unfold before_target, tick_cooldown.
  destruct (should_stop_at_light _ _ _); destruct (_ <? _); repeat split.
Qed.

(** The ambulance itself after the first statements of its update. *)
Lemma prepare_self cfg i self dt vehicles :
  let s1 := fst (Ambulance.prepare cfg i self dt vehicles) in
  same_identity self s1 /\ x s1 = x self /\ speed s1 = speed self
  /\ passed_intersection s1 = passed_intersection self
  /\ lane_change_cooldown s1
     = (if 0 <? lane_change_cooldown self
        then lane_change_cooldown self - dt
        else lane_change_cooldown self).
Proof.
  cbn. unfold tick_cooldown. cbn [lane_change_cooldown set_siren_state].
  destruct (_ <? _); repeat split.
Qed.

Lemma prepare_store cfg i self dt vehicles :
  snd (Ambulance.prepare cfg i self dt vehicles)
  = Ambulance.clear_path cfg i (fst (Ambulance.prepare cfg i self dt vehicles))
      (<[i := fst (Ambulance.prepare cfg i self dt vehicles)]> vehicles).
Proof. reflexivity. Qed.

Lemma prepare_length cfg i self dt vehicles :
  List.length (snd (Ambulance.prepare cfg i self dt vehicles))
  = List.length vehicles.
Proof.
  rewrite prepare_store.
  destruct (ClearPathFacts.clear_path_from_frame cfg i
              (fst (Ambulance.prepare cfg i self dt vehicles))
              (seq 0 (List.length
                        (<[i := fst (Ambulance.prepare cfg i self dt vehicles)]>
                           vehicles)))
              (<[i := fst (Ambulance.prepare cfg i self dt vehicles)]>
                 vehicles)) as [H _].
  unfold Ambulance.clear_path. rewrite H. apply length_insert.
Qed.

(** What the dispatching call returns at the index of the object updated:
    the three last steps applied to the object with its target chosen. *)
Lemma update_vehicle_at cfg i self dt vehicles light ts :
  vehicles !! i = Some self ->
  exists s,
    TrafficSimulation.update_vehicle cfg i dt vehicles light ts !! i
    = Some (finish cfg s (dt * ts))
    /\ same_identity self s /\ x s = x self /\ speed s = speed self
    /\ passed_intersection s = passed_intersection self
    /\ lane_change_cooldown s
       = (if 0 <? lane_change_cooldown self
          then lane_change_cooldown self - dt * ts
          else lane_change_cooldown self).
Proof.
  intros Hi.
  assert (Hlt : (i < List.length vehicles)%nat)
    by (eapply lookup_lt_Some; eauto).
  unfold TrafficSimulation.update_vehicle. rewrite Hi.
  assert (Hbase :
    exists s,
      VehicleUpdate.update cfg i dt vehicles light ts !! i
      = Some (finish cfg s (dt * ts))
      /\ same_identity self s /\ x s = x self /\ speed s = speed self
      /\ passed_intersection s = passed_intersection self
      /\ lane_change_cooldown s
         = (if 0 <? lane_change_cooldown self
            then lane_change_cooldown self - dt * ts
            else lane_change_cooldown self)).
  { unfold update. rewrite Hi, list_lookup_insert_eq by exact Hlt.
    rewrite VehicleFacts.update_self_unfold.
    set (b := before_target cfg self (dt * ts) light).
    set (a := find_vehicle_ahead i self vehicles).
    exists (determine_target cfg b a light).
    split; [unfold finish; reflexivity|].
    destruct (determine_target_identity cfg b a light)
      as (I1 & X1 & S1 & C1 & _ & P1).
    destruct (before_target_identity cfg self (dt * ts) light)
      as (I2 & X2 & S2 & _ & P2 & C2).
    fold b in I2, X2, S2, P2, C2.
    unfold same_identity in *.
    repeat match goal with H : _ /\ _ |- _ => destruct H end.
    repeat split; congruence. }
  destruct (vehicle_type self); try exact Hbase.
  unfold Ambulance.update. rewrite Hi.
  pose proof (prepare_self cfg i self (dt * ts) vehicles) as Hs.
  pose proof (prepare_length cfg i self (dt * ts) vehicles) as Hl.
  cbv zeta in Hs.
  destruct (Ambulance.prepare cfg i self (dt * ts) vehicles) as [s1 vs1].
  cbn [fst snd] in Hs, Hl.
  rewrite list_lookup_insert_eq by lia.
  unfold Ambulance.drive. fold (finish cfg
    (Ambulance.determine_target cfg s1 (find_vehicle_ahead i s1 vs1) light)
    (dt * ts)).
  eexists. split; [reflexivity|].
  destruct (ambulance_target_identity cfg s1
              (find_vehicle_ahead i s1 vs1) light)
    as (I1 & X1 & S1 & C1 & _ & P1).
  destruct Hs as (I2 & X2 & S2 & P2 & C2).
  unfold same_identity in *.
  repeat match goal with H : _ /\ _ |- _ => destruct H end.
  repeat split; congruence.
Qed.

(** X6. For a vehicle of any class whose speed and acceleration are not
    negative, one update over a time [dt * time_scale >= 0] leaves the
    speed non-negative, lowers it by at most [1.5 * acceleration] times
    that time and raises it by at most [acceleration] times that time, and
    moves [x] by exactly the new speed times that time in the direction of
    travel: a right-moving vehicle never moves left, a left-moving one
    never moves right. *)
Theorem update_vehicle_kinematics :
  forall (cfg : Config) (i : nat) (self : t) (dt ts : Q)
         (vehicles : list t) (light : TrafficLight.t),
    vehicles !! i = Some self ->
    0 <= speed self ->
    0 <= acceleration self ->
    0 <= dt * ts ->
    exists self',
      TrafficSimulation.update_vehicle cfg i dt vehicles light ts !! i
      = Some self'
      /\ 0 <= speed self'
      /\ speed self - acceleration self * 1.5 * (dt * ts) <= speed self'
      /\ speed self' <= speed self + acceleration self * (dt * ts)
      /\ x self'
         = x self + speed self' * (dt * ts) * inject_Z (direction self)
      /\ (direction self = 1%Z -> x self <= x self')
      /\ (direction self = (-1)%Z -> x self' <= x self).
Proof.
  intros cfg i self dt ts vehicles light Hi Hs Ha Hdt.
  destruct (update_vehicle_at cfg i self dt vehicles light ts Hi)
    as (s & Hu & Hid & Hx & Hsp & _).
  exists (finish cfg s (dt * ts)). split; [exact Hu|].
  destruct (finish_props cfg s (dt * ts)) as (_ & Fs & Fx & _).
  assert (Hacc : acceleration s = acceleration self) by apply Hid.
  assert (Hdir : direction s = direction self) by apply Hid.
  assert (Hprod : 0 <= acceleration s * (dt * ts))
    by (rewrite Hacc; now apply Qmult_le_0_compat).
  destruct (integrate_speed_rate s (dt * ts)) as (R0 & R1 & R2);
    [rewrite Hsp; exact Hs | exact Hprod |].
  rewrite <- Fs in R0, R1, R2. rewrite Hsp, Hacc in R1, R2.
  rewrite Hx, Hdir in Fx.
  assert (Hmove : 0 <= speed (finish cfg s (dt * ts)) * (dt * ts))
    by (now apply Qmult_le_0_compat).
  repeat split; try assumption.
  - intros Hd. rewrite Fx, Hd. change (inject_Z 1) with 1. lra.
  - intros Hd. rewrite Fx, Hd. change (inject_Z (-1)) with (-1). lra.
Qed.

(** The theorem on [Scenes.following_scene]: the follower brakes from 50,
    by at most 1.5 * 60 / 60, and moves right. *)
Lemma update_vehicle_kinematics_witness :
  exists self',
    TrafficSimulation.update_vehicle sample_config 0 (1 # 60)
      Scenes.following_scene TrafficLight.init 1 !! 0%nat = Some self'
    /\ 0 <= speed self'
    /\ 50 - 60 * 1.5 * ((1 # 60) * 1) <= speed self'
    /\ x Scenes.follower_A <= x self'.
Proof.
  destruct (update_vehicle_kinematics sample_config 0 Scenes.follower_A
              (1 # 60) 1 Scenes.following_scene TrafficLight.init)
    as (self' & Hu & H0 & H1 & _ & _ & Hr & _);
    [reflexivity | vm_compute; discriminate | vm_compute; discriminate
    | vm_compute; discriminate |].
  exists self'. split; [exact Hu|]. split; [exact H0|].
  split; [exact H1|]. apply Hr. reflexivity.
Defined.

(** The local effect of one dispatching call on every object of the
    store, in the form the loops of the manager use. *)
Lemma update_vehicle_local :
  forall (cfg : Config) (i : nat) (dt ts : Q) (vehicles : list t)
         (light : TrafficLight.t),
    List.length (TrafficSimulation.update_vehicle cfg i dt vehicles light ts)
    = List.length vehicles
    /\ forall k v,
         vehicles !! k = Some v ->
         exists v',
           TrafficSimulation.update_vehicle cfg i dt vehicles light ts !! k
           = Some v'
           /\ (in_lane_group v -> in_lane_group v')
           /\ (k = i ->
               same_identity v v'
               /\ passed_intersection v'
                  = passed_intersection v || beyond_intersection cfg v')
           /\ (k <> i ->
               same_but_lane v v'
               /\ (forall self, vehicles !! i = Some self ->
                     vehicle_type self <> ambulance -> v' = v)).
Proof.
  intros cfg i dt ts vehicles light.
  destruct (vehicles !! i) as [self|] eqn:Hi.
  2:{ assert (E : TrafficSimulation.update_vehicle cfg i dt vehicles light ts
                  = vehicles)
        by (unfold TrafficSimulation.update_vehicle; now rewrite Hi).
      rewrite E. split; [reflexivity|]. intros k v Hk. exists v.
      split; [exact Hk|]. split; [auto|]. split.
      - intros ->. congruence.
      - intros _. split; [apply LaneChangeFacts.same_but_lane_refl|].
        intros s Hs. discriminate Hs. }
  assert (Hlt : (i < List.length vehicles)%nat)
    by (eapply lookup_lt_Some; eauto).
  destruct (update_vehicle_at cfg i self dt vehicles light ts Hi)
    as (s & Hu & Hid & Hx & Hsp & Hp & _).
  destruct (finish_props cfg s (dt * ts)) as (Fid & _ & _ & _ & _ & _ & _ & Fp).
  assert (Hat : same_identity self (finish cfg s (dt * ts))).
  { unfold same_identity in *.
    repeat match goal with H : _ /\ _ |- _ => destruct H end.
    repeat split; congruence. }
  assert (Hgroup : forall a b, same_identity a b ->
            in_lane_group a -> in_lane_group b).
  { intros a b (Hl & _ & Hd & _). unfold in_lane_group.
    now rewrite Hl, Hd. }
  assert (Hothers :
    List.length (TrafficSimulation.update_vehicle cfg i dt vehicles light ts)
    = List.length vehicles
    /\ forall k v, k <> i -> vehicles !! k = Some v ->
         exists v',
           TrafficSimulation.update_vehicle cfg i dt vehicles light ts !! k
           = Some v'
           /\ same_but_lane v v'
           /\ (in_lane_group v -> in_lane_group v')
           /\ (vehicle_type self <> ambulance -> v' = v)).
  { unfold TrafficSimulation.update_vehicle. rewrite Hi.
    assert (Hbase :
      List.length (VehicleUpdate.update cfg i dt vehicles light ts)
      = List.length vehicles
      /\ forall k v, k <> i -> vehicles !! k = Some v ->
           exists v',
             VehicleUpdate.update cfg i dt vehicles light ts !! k = Some v'
             /\ same_but_lane v v'
             /\ (in_lane_group v -> in_lane_group v')
             /\ (vehicle_type self <> ambulance -> v' = v)).
    { unfold update. rewrite Hi. split; [apply length_insert|].
      intros k v Hne Hk. exists v.
      rewrite list_lookup_insert_ne by congruence.
      split; [exact Hk|].
      split; [apply LaneChangeFacts.same_but_lane_refl|]. auto. }
    destruct (vehicle_type self) eqn:Ety; try exact Hbase.
    unfold Ambulance.update. rewrite Hi.
    pose proof (prepare_length cfg i self (dt * ts) vehicles) as Hl.
    pose proof (prepare_store cfg i self (dt * ts) vehicles) as Hst.
    destruct (Ambulance.prepare cfg i self (dt * ts) vehicles) as [s1 vs1].
    cbn [fst snd] in Hl, Hst.
    split; [rewrite length_insert; exact Hl|].
    intros k v Hne Hk. rewrite list_lookup_insert_ne by congruence.
    destruct (ClearPathFacts.clear_path_from_frame cfg i s1
                (seq 0 (List.length (<[i := s1]> vehicles)))
                (<[i := s1]> vehicles)) as [_ Hcp].
    destruct (Hcp k v) as (v' & Hk' & Hs' & Hg' & _).
    { rewrite list_lookup_insert_ne by congruence. exact Hk. }
    exists v'. rewrite Hst. unfold Ambulance.clear_path.
    split; [exact Hk'|]. split; [exact Hs'|]. split; [exact Hg'|].
    intros H. congruence. }
  destruct Hothers as [Hlen Hoth].
  split; [exact Hlen|].
  intros k v Hk. destruct (Nat.eq_dec k i) as [-> | Hne].
  - assert (v = self) as -> by congruence.
    exists (finish cfg s (dt * ts)). split; [exact Hu|].
    split; [now apply Hgroup|]. split.
    + intros _. split; [exact Hat|]. rewrite Fp, Hp. reflexivity.
    + intros H. contradiction.
  - destruct (Hoth k v Hne Hk) as (v' & Hk' & Hs' & Hg' & He').
    exists v'. split; [exact Hk'|]. split; [exact Hg'|]. split.
    + intros H. contradiction.
    + intros _. split; [exact Hs'|].
      intros s0 Hs0 Hty. apply He'. congruence.
Qed.

(** X7. One update of the vehicle at index [i], whatever its class, keeps
    the length of the store. The updated vehicle keeps its lane, y,
    direction, dimensions, class and parameters, and its
    [passed_intersection] flag is never cleared: it is true afterwards
    exactly when it was true before or the new [x] is beyond the far side
    of the intersection. Every other vehicle keeps everything but lane, y
    and cooldown, and is left untouched unless the updated vehicle is an
    ambulance. *)
Theorem update_vehicle_frame :
  forall (cfg : Config) (i : nat) (dt ts : Q) (vehicles : list t)
         (light : TrafficLight.t),
    List.length (TrafficSimulation.update_vehicle cfg i dt vehicles light ts)
    = List.length vehicles
    /\ forall k v,
         vehicles !! k = Some v ->
         exists v',
           TrafficSimulation.update_vehicle cfg i dt vehicles light ts !! k
           = Some v'
           /\ (in_lane_group v -> in_lane_group v')
           /\ (k = i ->
               same_identity v v'
               /\ passed_intersection v'
                  = passed_intersection v || beyond_intersection cfg v')
           /\ (k <> i ->
               same_but_lane v v'
               /\ (forall self, vehicles !! i = Some self ->
                     vehicle_type self <> ambulance -> v' = v)).
Proof.
  exact update_vehicle_local.
Qed.

(** The target chosen by [Vehicle.update] is at most [max_speed] unless it
    is taken from a faster leader. *)
Lemma determine_target_le_max cfg s ahead light :
  0 <= max_speed s ->
  (forall j leader, ahead = Some (j, leader) -> speed leader <= max_speed s) ->
  target_speed (determine_target cfg s ahead light) <= max_speed s.
Proof.
  intros Hm Hl. unfold determine_target.
  destruct (braking_for_light cfg s light) eqn:Hb.
  - unfold braking_for_light in Hb. apply andb_true_iff in Hb as [_ Hb].
    apply NumFacts.ltb_lt in Hb.
    destruct (_ <? 50); cbn [target_speed set_target_speed]; [exact Hm|].
    set (sd := Num.max2 (distance_to_light cfg s - 10) 0).
    assert (Hsd : sd <= 100).
    { unfold sd.
      destruct (NumFacts.max2_cases (distance_to_light cfg s - 10) 0)
        as [[_ ->] | [_ ->]]; lra. }
    assert (Hq : sd / 100 <= 1) by (apply Qle_shift_div_r; lra).
    assert (H : sd / 100 * max_speed s <= 1 * max_speed s)
      by (apply Qmult_le_compat_r; assumption).
    rewrite (Qmult_comm (max_speed s)). lra.
  - destruct ahead as [[j a]|].
    + specialize (Hl j a eq_refl).
      destruct (_ <? _); [|destruct (_ <? _)];
        cbn [target_speed set_target_speed]; lra.
    + destruct (_ && _); cbn; lra.
Qed.

Lemma update_self_finish cfg i self dt vehicles light ts :
  update_self cfg i self dt vehicles light ts
  = finish cfg
      (determine_target cfg (before_target cfg self (dt * ts) light)
         (find_vehicle_ahead i self vehicles) light) (dt * ts).
Proof. unfold finish. apply VehicleFacts.update_self_unfold. Qed.

(** X8. The speed range does hold whenever no faster leader is followed:
    for a vehicle that is not an ambulance, with
    [0 <= speed <= max_speed], a non-negative acceleration and time step,
    and whose vehicle ahead (if any) is not faster than its [max_speed],
    both the target speed and the speed after the update are at most
    [max_speed], and the speed is not negative. *)
Theorem speed_within_max_speed :
  forall (cfg : Config) (i : nat) (self : t) (dt ts : Q)
         (vehicles : list t) (light : TrafficLight.t),
    vehicles !! i = Some self ->
    vehicle_type self <> ambulance ->
    0 <= speed self ->
    speed self <= max_speed self ->
    0 <= acceleration self ->
    0 <= dt * ts ->
    (forall j leader,
       find_vehicle_ahead i self vehicles = Some (j, leader) ->
       speed leader <= max_speed self) ->
    exists self',
      TrafficSimulation.update_vehicle cfg i dt vehicles light ts !! i
      = Some self'
      /\ max_speed self' = max_speed self
      /\ target_speed self' <= max_speed self'
      /\ 0 <= speed self' /\ speed self' <= max_speed self'.
Proof.
  intros cfg i self dt ts vehicles light Hi Hty Hs0 Hs1 Ha Hdt Hlead.
  exists (update_self cfg i self dt vehicles light ts).
  split; [now apply VehicleFacts.update_vehicle_base|].
  rewrite (update_self_finish cfg i self dt vehicles light ts).
  set (b := before_target cfg self (dt * ts) light).
  set (s := determine_target cfg b (find_vehicle_ahead i self vehicles) light).
  destruct (finish_props cfg s (dt * ts)) as (_ & Fs & _ & Ft & _).
  rewrite Fs, Ft.
  destruct (finish_props cfg s (dt * ts)) as (Fid & _).
  destruct (determine_target_identity cfg b
              (find_vehicle_ahead i self vehicles) light)
    as (I1 & _ & S1 & _).
  destruct (before_target_identity cfg self (dt * ts) light)
    as (I2 & _ & S2 & _).
  fold b in I2, S2. fold s in I1, S1.
  assert (Mb : max_speed b = max_speed self) by apply I2.
  assert (Ms : max_speed s = max_speed self) by (transitivity (max_speed b);
    [apply I1 | exact Mb]).
  assert (Mf : max_speed (finish cfg s (dt * ts)) = max_speed self)
    by (transitivity (max_speed s); [apply Fid | exact Ms]).
  assert (As : acceleration s = acceleration self)
    by (transitivity (acceleration b); [apply I1 | apply I2]).
  assert (Ss : speed s = speed self) by congruence.
  assert (Ht : target_speed s <= max_speed self).
  { unfold s. rewrite <- Mb. apply determine_target_le_max.
    - rewrite Mb. lra.
    - rewrite Mb. exact Hlead. }
  rewrite Mf. split; [reflexivity|]. split; [exact Ht|].
  apply (VehicleFacts.integrate_speed_bounds s (dt * ts) (max_speed self)).
  - rewrite As. now apply Qmult_le_0_compat.
  - now rewrite Ss.
  - now rewrite Ss.
  - exact Ht.
Qed.

(** The theorem on [Scenes.following_scene]: the follower (maximum speed
    120) behind a leader of speed 40. *)
Lemma speed_within_max_speed_witness :
  exists self',
    TrafficSimulation.update_vehicle sample_config 0 (1 # 60)
      Scenes.following_scene TrafficLight.init 1 !! 0%nat = Some self'
    /\ 0 <= speed self' /\ speed self' <= 120.
Proof.
  destruct (speed_within_max_speed sample_config 0 Scenes.follower_A
              (1 # 60) 1 Scenes.following_scene TrafficLight.init)
    as (self' & Hu & Hm & _ & H0 & H1);
    [reflexivity | discriminate | vm_compute; discriminate
    | vm_compute; discriminate | vm_compute; discriminate
    | vm_compute; discriminate | |].
  - intros j leader E. vm_compute in E. injection E as _ <-.
    vm_compute. discriminate.
  - exists self'. rewrite Hm in H1. split; [exact Hu|].
    split; [exact H0 | exact H1].
Defined.

End KinematicsFacts.

(** ** The target speed of an ambulance *)

Module AmbulanceTargetFacts.
Import Vehicle Frames.

Lemma same_car_prepare cfg i self dt vehicles :
  UpdateSteps.same_car (fst (Ambulance.prepare cfg i self dt vehicles)) self.
Proof.
  cbn. unfold VehicleUpdate.tick_cooldown.
  cbn [lane_change_cooldown set_siren_state].
  destruct (_ <? _); repeat split.
Qed.

(** X9. An ambulance never brakes to a stop for the light. Its update sets
    the target speed to half of [max_speed] exactly when the light is red
    and the stop line is less than 60 units ahead (the test against 80
    units that precedes has no effect of its own); in every other case,
    also under a yellow light, the target is 0.95 times the speed of the
    vehicle found ahead after the clearing pass when that vehicle is
    closer than half of [SAFE_DISTANCE], and [max_speed] otherwise. *)
Theorem ambulance_target_speed :
  forall (cfg : Config) (i : nat) (self : t) (dt ts : Q)
         (vehicles : list t) (light : TrafficLight.t),
    vehicles !! i = Some self ->
    vehicle_type self = ambulance ->
    exists self',
      TrafficSimulation.update_vehicle cfg i dt vehicles light ts !! i
      = Some self'
      /\ (TrafficLight.get_light_state light (direction self)
          = TrafficLight.red ->
          0 < distance_to_light cfg self ->
          distance_to_light cfg self < 60 ->
          target_speed self' = max_speed self * 0.5)
      /\ (TrafficLight.get_light_state light (direction self)
          <> TrafficLight.red
          \/ distance_to_light cfg self <= 0
          \/ 60 <= distance_to_light cfg self ->
          target_speed self'
          = match
              find_vehicle_ahead i self
                (snd (Ambulance.prepare cfg i self (dt * ts) vehicles))
            with
            | Some (_, ahead) =>
                if distance_to_vehicle self ahead <? SAFE_DISTANCE cfg * 0.5
                then speed ahead * 0.95
                else max_speed self
            | None => max_speed self
            end).
Proof.
  intros cfg i self dt ts vehicles light Hi Hty.
  assert (Hlt : (i < List.length vehicles)%nat)
    by (eapply lookup_lt_Some; eauto).
  unfold TrafficSimulation.update_vehicle. rewrite Hi, Hty.
  unfold Ambulance.update. rewrite Hi.
  pose proof (same_car_prepare cfg i self (dt * ts) vehicles) as Hsame.
  pose proof (KinematicsFacts.prepare_length cfg i self (dt * ts) vehicles)
    as Hl.
  destruct (Ambulance.prepare cfg i self (dt * ts) vehicles) as [s1 vs1].
  cbn [fst snd] in *.
  rewrite list_lookup_insert_eq by lia.
  eexists. split; [reflexivity|].
  unfold Ambulance.drive.
  rewrite VehicleFacts.target_speed_mark_passed.
  unfold VehicleUpdate.move. cbn [target_speed set_x].
  rewrite VehicleFacts.target_speed_integrate.
  rewrite (VehicleFacts.same_car_find i s1 self vs1 Hsame).
  unfold Ambulance.determine_target, Ambulance.should_slow_at_light.
  rewrite (VehicleFacts.same_car_distance_to_light cfg s1 self Hsame).
  assert (Hd : direction s1 = direction self) by apply Hsame.
  assert (Hm : max_speed s1 = max_speed self) by apply Hsame.
  rewrite Hd.
  set (d := distance_to_light cfg self).
  set (col := TrafficLight.get_light_state light (direction self)).
  assert (Hrest :
    target_speed
      match find_vehicle_ahead i self vs1 with
      | Some (_, ahead) =>
          if distance_to_vehicle s1 ahead <? SAFE_DISTANCE cfg * 0.5
          then set_target_speed s1 (speed ahead * 0.95)
          else set_target_speed s1 (max_speed s1)
      | None => set_target_speed s1 (max_speed s1)
      end
    = match find_vehicle_ahead i self vs1 with
      | Some (_, ahead) =>
          if distance_to_vehicle self ahead <? SAFE_DISTANCE cfg * 0.5
          then speed ahead * 0.95
          else max_speed self
      | None => max_speed self
      end).
  { destruct (find_vehicle_ahead i self vs1) as [[j a]|].
    - rewrite (VehicleFacts.same_car_distance_to_vehicle s1 self a Hsame).
      destruct (_ <? _); cbn; congruence.
    - cbn. exact Hm. }
  split.
  - intros Hred Hpos Hnear.
    assert (d < 80) as H80 by lra.
    apply NumFacts.ltb_lt in Hpos, Hnear, H80.
    rewrite Hpos, H80, Hnear, Hred. cbn. now rewrite Hm.
  - intros Hcase.
    assert (((0 <? d) && (d <? 80)
             && match col with TrafficLight.red => true | _ => false end)
            && (d <? 60) = false) as ->; [|exact Hrest].
    destruct Hcase as [Hc | [Hc | Hc]].
    + destruct col; try contradiction;
        now rewrite andb_false_r.
    + apply NumFacts.ltb_ge in Hc. now rewrite Hc.
    + apply NumFacts.ltb_ge in Hc. rewrite Hc. apply andb_false_r.
Qed.

(** The theorem on [Scenes.emergency_scene]: the car 100 units ahead is
    farther than half of [SAFE_DISTANCE], the target is the maximum speed
    160. *)
Lemma ambulance_target_speed_witness :
  exists self',
    TrafficSimulation.update_vehicle sample_config 0 (1 # 60)
      Scenes.emergency_scene Scenes.red_light 1 !! 0%nat = Some self'
    /\ target_speed self' == 160.
Proof.
  destruct (ambulance_target_speed sample_config 0 Scenes.ambulance_E
              (1 # 60) 1 Scenes.emergency_scene Scenes.red_light)
    as (self' & Hu & _ & Ht); [reflexivity | reflexivity |].
  exists self'. split; [exact Hu|].
  rewrite Ht by (right; right; vm_compute; discriminate).
  vm_compute. reflexivity.
Defined.

End AmbulanceTargetFacts.

(** ** More on pedestrians *)

Module PedestrianMore.
Import Pedestrian.

(** X10. A waiting pedestrian starts to cross at a call of [update]
    exactly when the wait timer advanced by that call exceeds
    [CROSSWALK_WAIT_TIME] and the traffic light is in one of its two
    north-south states, which are the states in which the road traffic
    sees red; otherwise the pedestrian keeps waiting. The position does
    not change while waiting. *)
Theorem pedestrian_starts_on_red :
  forall (cfg : Config) (p : t) (dt : Q) (l : TrafficLight.t) (ts : Q),
    state p = waiting ->
    let p' := update cfg p dt l ts in
    (state p' = crossing
     <-> CROSSWALK_WAIT_TIME cfg < wait_timer p + dt * ts
         /\ TrafficLight.get_light_state l 1 = TrafficLight.red)
    /\ (state p' = crossing \/ state p' = waiting)
    /\ (forall d, state p' = crossing ->
                  TrafficLight.get_light_state l d = TrafficLight.red)
    /\ wait_timer p' = wait_timer p + dt * ts
    /\ y p' = y p /\ x p' = x p.
Proof.
  intros cfg p dt l ts Hw. cbv zeta. unfold update. rewrite Hw.
  cbn [wait_timer set_wait_timer].
  unfold may_cross, TrafficLight.get_light_state.
  destruct (NumFacts.ltb_spec (CROSSWALK_WAIT_TIME cfg)
              (wait_timer p + dt * ts)) as [Ht | Ht];
    [destruct (TrafficLight.state l)|];
    cbn [state set_state set_wait_timer wait_timer y x]; rewrite ?Hw;
    repeat split; auto; try (intros; discriminate);
    try (intros [? ?]; try discriminate; contradiction);
    try (intros [? ?]; discriminate).
Qed.

(** The theorem on [Scenes.walker]: the third call of one second, under a
    north-south light, takes the wait timer to 3, above the wait time 2. *)
Lemma pedestrian_starts_on_red_witness :
  state (updates sample_config Scenes.walker (take 2 Scenes.walk_calls))
  = waiting
  /\ state (updates sample_config Scenes.walker (take 3 Scenes.walk_calls))
     = crossing
  /\ TrafficLight.get_light_state Scenes.red_light (-1) = TrafficLight.red.
Proof.
  split; [reflexivity|].
  destruct (pedestrian_starts_on_red sample_config
              (updates sample_config Scenes.walker
                 (take 2 Scenes.walk_calls)) 1 Scenes.red_light 1 eq_refl)
    as (Hiff & _ & Hred & _).
  assert (H : state (updates sample_config Scenes.walker
                       (take 3 Scenes.walk_calls)) = crossing).
  { apply Hiff. split; [vm_compute; reflexivity | reflexivity]. }
  split; [exact H|]. apply Hred. exact H.
Defined.

Lemma update_fields cfg p dt l ts :
  side (update cfg p dt l ts) = side p
  /\ direction (update cfg p dt l ts) = direction p
  /\ x (update cfg p dt l ts) = x p
  /\ target_y (update cfg p dt l ts) = target_y p.
Proof.
  unfold update.
  destruct (state p).
  - cbn [wait_timer set_wait_timer].
    destruct (_ <? _); [destruct (may_cross l)|]; repeat split.
  - assert (H : side (step_y cfg p (dt * ts)) = side p
               /\ direction (step_y cfg p (dt * ts)) = direction p
               /\ x (step_y cfg p (dt * ts)) = x p
               /\ target_y (step_y cfg p (dt * ts)) = target_y p)
      by (unfold step_y; destruct (side p) eqn:E; cbn; rewrite ?E;
          repeat split).
    destruct (reached (step_y cfg p (dt * ts))); exact H.
  - repeat split.
Qed.

(** X11. Over any sequence of calls of [update] a pedestrian keeps its
    side, direction, [x] and [target_y]. One call with a non-negative
    step [PEDESTRIAN_SPEED * dt * time_scale] never moves the pedestrian
    away from its target side, and when it ends a crossing that had not
    yet reached the target, the pedestrian stops at the target or less
    than one step beyond it. *)
Theorem pedestrian_path :
  forall (cfg : Config),
    (forall (p : t) (calls : list Call),
       side (updates cfg p calls) = side p
       /\ direction (updates cfg p calls) = direction p
       /\ x (updates cfg p calls) = x p
       /\ target_y (updates cfg p calls) = target_y p)
    /\ (forall (p : t) (dt : Q) (l : TrafficLight.t) (ts : Q),
          0 <= PEDESTRIAN_SPEED cfg * (dt * ts) ->
          let p' := update cfg p dt l ts in
          (side p = top -> y p <= y p')
          /\ (side p = bottom -> y p' <= y p)
          /\ (state p = crossing -> reached p = false ->
              state p' = done ->
              (side p = top ->
               target_y p <= y p'
               /\ y p' < target_y p + PEDESTRIAN_SPEED cfg * (dt * ts))
              /\ (side p = bottom ->
                  y p' <= target_y p
                  /\ target_y p - PEDESTRIAN_SPEED cfg * (dt * ts) < y p'))).
Proof.
  intros cfg. split.
  - intros p calls. revert p.
    induction calls as [|[[dt l] ts] calls IH]; intros p; [repeat split|].
    unfold updates in *. cbn [fold_left update_call].
    destruct (IH (update cfg p dt l ts)) as (H1 & H2 & H3 & H4).
    destruct (update_fields cfg p dt l ts) as (F1 & F2 & F3 & F4).
    repeat split; congruence.
  - intros p dt l ts Hstep. cbv zeta. unfold update.
    destruct (state p) eqn:Es.
    + cbn [wait_timer set_wait_timer].
      destruct (_ <? _); [destruct (may_cross l)|]; cbn;
        repeat split; intros; try lra; discriminate.
    + unfold step_y, reached.
      destruct (side p) eqn:Eside; cbn [side set_y y target_y];
        rewrite ?Eside; cbn [side set_y y target_y].
      * destruct (_ <=? _) eqn:Er;
          cbn [state set_state y set_y]; rewrite ?Es;
          repeat split; intros; try discriminate;
          reflect_tests; lra.
      * destruct (_ <=? _) eqn:Er;
          cbn [state set_state y set_y]; rewrite ?Es;
          repeat split; intros; try discriminate;
          reflect_tests; lra.
    + repeat split; intros; try lra; congruence.
Qed.

(** The theorem on [Scenes.walker]: after eight calls the pedestrian is at
    520, still crossing; the ninth call brings it to the target 570. *)
Lemma pedestrian_path_witness :
  y (updates sample_config Scenes.walker (take 8 Scenes.walk_calls)) == 520
  /\ target_y Scenes.walker
     <= y (updates sample_config Scenes.walker (take 9 Scenes.walk_calls))
  /\ y (updates sample_config Scenes.walker (take 9 Scenes.walk_calls))
     < target_y Scenes.walker + 50 * (1 * 1).
Proof.
  split; [vm_compute; reflexivity|].
  destruct (proj2 (pedestrian_path sample_config)
              (updates sample_config Scenes.walker
                 (take 8 Scenes.walk_calls)) 1 Scenes.red_light 1)
    as (_ & _ & Hend); [vm_compute; discriminate|].
  destruct Hend as [Htop _]; try reflexivity.
  apply Htop. reflexivity.
Defined.

End PedestrianMore.

(** ** The simulation manager *)

Module SimulationFacts.
Import Simulation Measures.

Lemma is_offscreen_split cfg v total :
  is_offscreen cfg v total
  = (offscreen cfg v,
     if counted cfg v then (total + 1)%Z else total).
Proof.
  unfold counted, offscreen, is_offscreen.
  destruct (_ && _); [|destruct (_ && _)]; cbn [fst andb];
    try reflexivity; now destruct (Vehicle.passed_intersection v).
Qed.

Lemma remove_offscreen_spec cfg vehicles :
  forall total,
    remove_offscreen cfg vehicles total
    = (List.filter (fun v => negb (offscreen cfg v)) vehicles,
       (total + Z.of_nat (List.length (List.filter (counted cfg) vehicles)))%Z).
Proof.
  induction vehicles as [|v vs IH]; intros total.
  - cbn. now rewrite Z.add_0_r.
  - cbn [remove_offscreen List.filter]. rewrite is_offscreen_split, IH.
    destruct (offscreen cfg v) eqn:Eo, (counted cfg v) eqn:Ec;
      cbn [negb List.length]; f_equal; lia.
Qed.

(** X12. The pruning step of [update] keeps, in their order, exactly the
    vehicles for which [is_offscreen] answers [False], and raises
    [total_cars_passed] by the number of removed vehicles whose
    [passed_intersection] flag is set: the counter never goes down and
    grows by at most the number of vehicles removed. *)
Theorem remove_offscreen_counts :
  forall (cfg : Config) (vehicles : list Vehicle.t) (total : Z),
    let kept := fst (remove_offscreen cfg vehicles total) in
    let total' := snd (remove_offscreen cfg vehicles total) in
    kept = List.filter (fun v => negb (offscreen cfg v)) vehicles
    /\ (forall v, In v kept <-> In v vehicles /\ offscreen cfg v = false)
    /\ total' = (total + Z.of_nat (List.length
                                    (List.filter (counted cfg) vehicles)))%Z
    /\ (total <= total')%Z
    /\ (total' + Z.of_nat (List.length kept)
        <= total + Z.of_nat (List.length vehicles))%Z.
Proof.
  intros cfg vehicles total. cbv zeta. rewrite remove_offscreen_spec.
  cbn [fst snd]. split; [reflexivity|]. split; [|split; [reflexivity|]].
  - intros v. rewrite filter_In, negb_true_iff. tauto.
  - split; [lia|].
    assert (H : (List.length (List.filter (counted cfg) vehicles)
                 + List.length
                     (List.filter (fun v => negb (offscreen cfg v)) vehicles)
                 <= List.length vehicles)%nat).
    { clear. induction vehicles as [|v vs IH]; [cbn; lia|].
      cbn [List.filter]. unfold counted at 1.
      destruct (offscreen cfg v); cbn [negb andb];
        [destruct (Vehicle.passed_intersection v)|];
        cbn [List.length]; lia. }
    lia.
Qed.


(** X14. While the simulation is paused, [update] changes nothing at all:
    pausing with [K_SPACE], calling [update] any number of times with any
    draws and time steps, and resuming with [K_SPACE] gives back exactly
    the simulation that was paused. *)
Theorem pause_freezes :
  forall (cfg : Config) (ctl : ControlConfig) (d : InitialDraws) (self : t)
         (calls : list (Draws * Q)),
    paused self = false ->
    handle_keypress cfg ctl d
      (SimulationScenes.updates cfg ctl calls
         (handle_keypress cfg ctl d self K_SPACE)) K_SPACE
    = self.
Proof.
  intros cfg ctl d self calls Hp.
  assert (Hstay : forall s, paused s = true ->
            SimulationScenes.updates cfg ctl calls s = s).
  { unfold SimulationScenes.updates.
    induction calls as [|c calls IH]; intros s Hs; [reflexivity|].
    cbn [fold_left]. unfold update at 2. rewrite Hs. now apply IH. }
  rewrite Hstay by (cbn; now rewrite Hp).
  destruct self as [vs ps tl [] ts st pt tc td sm]; reflexivity.
Qed.

(** The theorem on [SimulationScenes.sample_simulation]. *)
Lemma pause_freezes_witness :
  handle_keypress sample_config SimulationScenes.sample_control
    SimulationScenes.sample_initial_draws
    (SimulationScenes.updates sample_config SimulationScenes.sample_control
       [(SimulationScenes.sample_draws, 1); (SimulationScenes.sample_draws, 2)]
       (handle_keypress sample_config SimulationScenes.sample_control
          SimulationScenes.sample_initial_draws
          SimulationScenes.sample_simulation K_SPACE)) K_SPACE
  = SimulationScenes.sample_simulation.
Proof.
  apply pause_freezes. reflexivity.
Defined.

Lemma total_speed_from vehicles acc :
  fold_left (fun a v => a + Vehicle.speed v) vehicles acc
  == acc + Measures.total_speed vehicles.
Proof.
  unfold Measures.total_speed.
  revert acc. induction vehicles as [|v vs IH]; intros acc; cbn [fold_left].
  - lra.
  - rewrite IH. rewrite (IH (0 + Vehicle.speed v)). lra.
Qed.

Lemma total_speed_range vehicles lo hi :
  (forall v, In v vehicles -> lo <= Vehicle.speed v /\ Vehicle.speed v <= hi) ->
  lo * inject_Z (Z.of_nat (List.length vehicles))
    <= Measures.total_speed vehicles
  /\ Measures.total_speed vehicles
     <= hi * inject_Z (Z.of_nat (List.length vehicles)).
Proof.
  induction vehicles as [|v vs IH]; intros H.
  - unfold Measures.total_speed. cbn [fold_left List.length Z.of_nat].
    change (inject_Z (Z.of_nat 0)) with 0. split; lra.
  - assert (Hv := H v (or_introl eq_refl)).
    destruct IH as [IH1 IH2]; [intros w Hw; apply H; now right|].
    unfold Measures.total_speed. cbn [fold_left List.length].
    rewrite total_speed_from.
    rewrite Nat2Z.inj_succ. unfold Z.succ. rewrite inject_Z_plus.
    change (inject_Z 1) with 1.
    set (n := inject_Z (Z.of_nat (List.length vs))) in *.
    set (tot := Measures.total_speed vs) in *.
    destruct Hv as [Hv1 Hv2].
    split.
    + assert (E : lo * (n + 1) == lo * n + lo) by ring. rewrite E. lra.
    + assert (E : hi * (n + 1) == hi * n + hi) by ring. rewrite E. lra.
Qed.

Lemma count_queue_filter cfg vehicles queue :
  count_queue cfg vehicles queue
  = (queue + List.length (List.filter (in_queue cfg) vehicles))%nat.
Proof.
  revert queue. induction vehicles as [|v vs IH]; intros queue; cbn.
  - lia.
  - rewrite IH. destruct (in_queue cfg v); cbn; lia.
Qed.

(** X15. The two statistics of the display. When every vehicle's speed
    lies between [lo] and [hi], so does the average speed of a non-empty
    simulation, and the average times the number of vehicles is the sum of
    the speeds; with no vehicle the average is 0 (no division). The queue
    length is the number of vehicles slower than 20 whose front is closer
    than 150 to [INTERSECTION_X]: it never exceeds the number of
    vehicles, is 0 when no vehicle is slower than 20, and neither
    statistic looks at anything but the list of vehicles. *)
Theorem statistics_range :
  forall (cfg : Config) (self : t) (lo hi : Q),
    (forall v, In v (vehicles self) ->
       lo <= Vehicle.speed v /\ Vehicle.speed v <= hi) ->
    (vehicles self = [] -> calculate_avg_speed self = 0)
    /\ (vehicles self <> [] ->
        lo <= calculate_avg_speed self /\ calculate_avg_speed self <= hi
        /\ calculate_avg_speed self
           * inject_Z (Z.of_nat (List.length (vehicles self)))
           == Measures.total_speed (vehicles self))
    /\ calculate_queue_length cfg self
       = List.length (List.filter (in_queue cfg) (vehicles self))
    /\ (calculate_queue_length cfg self <= List.length (vehicles self))%nat
    /\ (20 <= lo -> calculate_queue_length cfg self = 0%nat)
    /\ (forall other, vehicles other = vehicles self ->
          calculate_avg_speed other = calculate_avg_speed self
          /\ calculate_queue_length cfg other
             = calculate_queue_length cfg self).
Proof.
  intros cfg self lo hi H.
  assert (Hq : calculate_queue_length cfg self
               = List.length (List.filter (in_queue cfg) (vehicles self))).
  { unfold calculate_queue_length. now rewrite count_queue_filter. }
  split; [|split; [|split; [|split; [|split]]]].
  - intros E. unfold calculate_avg_speed. now rewrite E.
  - intros Hne.
    destruct (total_speed_range _ _ _ H) as [H1 H2].
    set (n := inject_Z (Z.of_nat (List.length (vehicles self)))) in *.
    assert (Hn : 0 < n).
    { unfold n. destruct (vehicles self) as [|v vs]; [congruence|].
      cbn [List.length]. rewrite Nat2Z.inj_succ.
      rewrite <- (Zlt_Qlt 0). lia. }
    assert (E : calculate_avg_speed self
                == Measures.total_speed (vehicles self) / n).
    { unfold calculate_avg_speed, Measures.total_speed, n.
      destruct (vehicles self) as [|v vs]; [congruence|]. reflexivity. }
    rewrite E. split; [|split].
    + apply Qle_shift_div_l; [exact Hn | exact H1].
    + apply Qle_shift_div_r; [exact Hn | exact H2].
    + field. lra.
  - exact Hq.
  - rewrite Hq. apply filter_length_le.
  - intros Hlo. rewrite Hq.
    assert (Hnone : forall l, (forall v, In v l -> lo <= Vehicle.speed v) ->
              List.filter (in_queue cfg) l = []).
    { induction l as [|v vs IH]; intros Hl; [reflexivity|]. cbn.
      assert (Hv := Hl v (or_introl eq_refl)).
      assert (Hf : in_queue cfg v = false).
      { unfold in_queue. apply andb_false_iff. left.
        apply NumFacts.ltb_ge. lra. }
      rewrite Hf. apply IH. intros w Hw. apply Hl. now right. }
    rewrite Hnone; [reflexivity|]. intros v Hv. now apply H.
  - intros other E. unfold calculate_avg_speed, calculate_queue_length.
    now rewrite E.
Qed.

(** The theorem on [SimulationScenes.sample_simulation], whose six
    vehicles start at 96. *)
Lemma statistics_range_witness :
  0 <= calculate_avg_speed SimulationScenes.sample_simulation
  /\ calculate_avg_speed SimulationScenes.sample_simulation <= 120
  /\ (calculate_queue_length sample_config SimulationScenes.sample_simulation
      <= 6)%nat.
Proof.
  destruct (statistics_range sample_config SimulationScenes.sample_simulation
              0 120) as (_ & Havg & _ & Hq & _).
  - intros v Hin. vm_compute in Hin.
    repeat (destruct Hin as [<- | Hin];
            [split; vm_compute; discriminate|]).
    contradiction.
  - destruct Havg as (H1 & H2 & _); [vm_compute; discriminate|].
    split; [exact H1|]. split; [exact H2|]. exact Hq.
Defined.

Lemma create_random_vehicle_fields cfg rand x0 y0 lane0 dir0 :
  let v := TrafficSimulation.create_random_vehicle cfg rand x0 y0 lane0 dir0 in
  Vehicle.x v = x0 /\ Vehicle.y v = y0 /\ Vehicle.lane v = lane0
  /\ Vehicle.direction v = dir0
  /\ Vehicle.speed v = Vehicle.max_speed v * 0.8
  /\ Vehicle.target_speed v = Vehicle.max_speed v
  /\ Vehicle.lane_change_cooldown v = 0
  /\ Vehicle.passed_intersection v = false
  /\ Vehicle.stopped_at_light v = false.
Proof.
  unfold TrafficSimulation.create_random_vehicle.
  destruct (rand <? AMBULANCE_SPAWN_CHANCE cfg);
    [|destruct (rand <? 0.15); [|destruct (rand <? 0.25)]];
    cbn; repeat split.
Qed.

Lemma lookup_map_seq {A} (f : nat -> A) s n i v :
  List.map f (seq s n) !! i = Some v -> v = f (s + i)%nat /\ (i < n)%nat.
Proof.
  revert s i. induction n as [|n IH]; intros s i H; [destruct i; discriminate|].
  destruct i as [|i]; cbn in H.
  - injection H as <-. rewrite Nat.add_0_r. split; [reflexivity | lia].
  - apply IH in H as [-> Hi]. split; [f_equal; lia | lia].
Qed.

Lemma inject_nat_below i n :
  (i < n)%nat -> inject_Z (Z.of_nat i) <= inject_Z (Z.of_nat n) - 1.
Proof.
  intros Hi.
  assert (E : inject_Z (Z.of_nat n) - 1 == inject_Z (Z.of_nat n - 1)).
  { unfold Z.sub. rewrite inject_Z_plus. reflexivity. }
  rewrite E. rewrite <- Zle_Qle. lia.
Qed.

Lemma initial_lookup cfg ctl d i v :
  spawn_initial_vehicles cfg ctl d [] !! i = Some v ->
  let n := Z.to_nat (INITIAL_SPAWN_COUNT ctl / 2) in
  ((i < n)%nat /\ v = initial_right cfg d i)
  \/ ((n <= i < 2 * n)%nat /\ v = initial_left cfg d (i - n)).
Proof.
  intros H n. unfold spawn_initial_vehicles, initial_range in H.
  cbn [app] in H.
  apply lookup_app_Some in H as [H | [Hle H]].
  - apply lookup_map_seq in H as [-> Hi]. left. split; [exact Hi | reflexivity].
  - rewrite length_map, length_seq in Hle, H.
    apply lookup_map_seq in H as [-> Hi]. right. fold n in Hi, Hle |- *.
    split; [lia | reflexivity].
Qed.

(** X16. The vehicles a simulation starts with. [__init__] (and
    [reset_simulation], which builds the same list) creates
    [INITIAL_SPAWN_COUNT // 2] vehicles for each direction, so one fewer
    than [INITIAL_SPAWN_COUNT] in total when the constant is odd, and none
    when it is below 2. Whatever is drawn, each of them is in a lane of
    its direction, has passed nothing, and starts at eight tenths of its
    maximal speed with that maximal speed as target; the vehicles of a
    direction are created 200 apart, from 300 behind the edge they enter
    by, and [is_offscreen] keeps all of them as long as
    [200 * (INITIAL_SPAWN_COUNT // 2 - 1) <= SCREEN_WIDTH + 400].
    [reset_simulation] keeps the pause flag and the time scale, and gives
    back the initial simulation when these two are as at the start. *)
Theorem initial_vehicles :
  forall (cfg : Config) (ctl : ControlConfig) (d : InitialDraws),
    let n := Z.to_nat (INITIAL_SPAWN_COUNT ctl / 2) in
    let vs := vehicles (init cfg ctl d) in
    List.length vs = (2 * n)%nat
    /\ ((INITIAL_SPAWN_COUNT ctl < 2)%Z -> vs = [])
    /\ ((0 <= INITIAL_SPAWN_COUNT ctl)%Z ->
        (Z.of_nat (List.length vs) <= INITIAL_SPAWN_COUNT ctl)%Z
        /\ (Z.odd (INITIAL_SPAWN_COUNT ctl) = true ->
            Z.of_nat (List.length vs) = (INITIAL_SPAWN_COUNT ctl - 1)%Z))
    /\ (forall i v, vs !! i = Some v ->
          Frames.in_lane_group v
          /\ (Vehicle.direction v = 1%Z <-> (i < n)%nat)
          /\ Vehicle.speed v = Vehicle.max_speed v * 0.8
          /\ Vehicle.target_speed v = Vehicle.max_speed v
          /\ Vehicle.passed_intersection v = false
          /\ Vehicle.stopped_at_light v = false
          /\ (200 * (inject_Z (Z.of_nat n) - 1) <= SCREEN_WIDTH cfg + 400 ->
              Measures.offscreen cfg v = false))
    /\ (forall i v, (i < n)%nat -> vs !! i = Some v ->
          Vehicle.x v = inject_Z (Z.of_nat i) * 200 - 300)
    /\ (forall i v, (i < n)%nat -> vs !! (n + i)%nat = Some v ->
          Vehicle.x v = SCREEN_WIDTH cfg - inject_Z (Z.of_nat i) * 200 + 300)
    /\ (forall self,
          vehicles (reset_simulation cfg ctl d self) = vs
          /\ paused (reset_simulation cfg ctl d self) = paused self
          /\ time_scale (reset_simulation cfg ctl d self) = time_scale self
          /\ reset_simulation cfg ctl d (reset_simulation cfg ctl d self)
             = reset_simulation cfg ctl d self
          /\ (paused self = false -> time_scale self = 1 ->
              total_distance_traveled self = 0 ->
              reset_simulation cfg ctl d self = init cfg ctl d)).
Proof.
  intros cfg ctl d n vs.
  assert (Hlen : List.length vs = (2 * n)%nat).
  { unfold vs, init, spawn_initial_vehicles, initial_range. cbn.
    rewrite length_app, !length_map, !length_seq. fold n. lia. }
  split; [exact Hlen|].
  split; [|split; [|split; [|split; [|split]]]].
  - intros Hc. assert (Hn : n = 0%nat).
    { unfold n. assert (INITIAL_SPAWN_COUNT ctl / 2 <= 0)%Z.
      { assert (INITIAL_SPAWN_COUNT ctl / 2 < 1)%Z
          by (apply Z.div_lt_upper_bound; lia). lia. }
      lia. }
    destruct vs as [|v vs']; [reflexivity|]. cbn in Hlen. lia.
  - intros Hc. rewrite Hlen.
    assert (Hdiv := Z.div_mod (INITIAL_SPAWN_COUNT ctl) 2 ltac:(lia)).
    assert (Hmod := Z.mod_pos_bound (INITIAL_SPAWN_COUNT ctl) 2 ltac:(lia)).
    assert (Hq : (0 <= INITIAL_SPAWN_COUNT ctl / 2)%Z)
      by (apply Z.div_pos; lia).
    split; [unfold n; lia|].
    intros Hodd. apply Z.odd_spec in Hodd as [m Hm]. unfold n. lia.
  - intros i v Hv.
    apply initial_lookup in Hv. fold n in Hv.
    destruct Hv as [[Hi ->] | [Hi ->]].
    + unfold initial_right.
      match goal with |- context [TrafficSimulation.create_random_vehicle
                                    ?c ?r ?a ?b ?l ?e] =>
        destruct (create_random_vehicle_fields c r a b l e)
          as (Hx & Hy & Hl & Hd & Hs & Ht & Hc & Hp & Hst);
        set (w := TrafficSimulation.create_random_vehicle c r a b l e) in *
      end.
      split; [|split; [|split; [|split; [|split; [|split]]]]];
        try assumption.
      * left. split; [exact Hd|]. rewrite Hl.
        destruct (right_first_lane d i); [now left | now right].
      * rewrite Hd. split; [intros _; exact Hi | reflexivity].
      * intros Hw. unfold Measures.offscreen, is_offscreen.
        rewrite Hd, Hx. cbn [Z.eqb Pos.eqb andb fst].
        assert (Hlt : (SCREEN_WIDTH cfg + 100
                       <? inject_Z (Z.of_nat i) * 200 - 300) = false).
        { apply NumFacts.ltb_ge.
          assert (Hb := inject_nat_below i n Hi). lra. }
        rewrite Hlt. reflexivity.
    + unfold initial_left.
      match goal with |- context [TrafficSimulation.create_random_vehicle
                                    ?c ?r ?a ?b ?l ?e] =>
        destruct (create_random_vehicle_fields c r a b l e)
          as (Hx & Hy & Hl & Hd & Hs & Ht & Hc & Hp & Hst);
        set (w := TrafficSimulation.create_random_vehicle c r a b l e) in *
      end.
      split; [|split; [|split; [|split; [|split; [|split]]]]];
        try assumption.
      * right. split; [exact Hd|]. rewrite Hl.
        destruct (left_first_lane d (i - n)); [now left | now right].
      * rewrite Hd. split; [discriminate | lia].
      * intros Hw. unfold Measures.offscreen, is_offscreen.
        rewrite Hd, Hx. cbn [Z.eqb Pos.eqb andb fst].
        assert (Hlt : (SCREEN_WIDTH cfg - inject_Z (Z.of_nat (i - n)) * 200
                       + 300 <? -100) = false).
        { apply NumFacts.ltb_ge.
          assert (Hb := inject_nat_below (i - n) n ltac:(lia)). lra. }
        rewrite Hlt. reflexivity.
  - intros i v Hi Hv. apply initial_lookup in Hv. fold n in Hv.
    destruct Hv as [[_ ->] | [Hi' _]]; [|lia].
    unfold initial_right.
    match goal with |- context [TrafficSimulation.create_random_vehicle
                                  ?c ?r ?a ?b ?l ?e] =>
      destruct (create_random_vehicle_fields c r a b l e) as (Hx & _)
    end. exact Hx.
  - intros i v Hi Hv. apply initial_lookup in Hv. fold n in Hv.
    destruct Hv as [[Hi' _] | [_ ->]]; [lia|].
    replace (n + i - n)%nat with i by lia.
    unfold initial_left.
    match goal with |- context [TrafficSimulation.create_random_vehicle
                                  ?c ?r ?a ?b ?l ?e] =>
      destruct (create_random_vehicle_fields c r a b l e) as (Hx & _)
    end. exact Hx.
  - intros self. repeat split.
    intros Hp Hts Htd. unfold reset_simulation, init.
    now rewrite Hp, Hts, Htd.
Qed.

Lemma same_kind_refl a : Runs.same_kind a a.
Proof. repeat split. Qed.

Lemma same_kind_trans a b c :
  Runs.same_kind a b -> Runs.same_kind b c -> Runs.same_kind a c.
Proof.
  unfold Runs.same_kind. intros H1 H2.
  repeat match goal with H : _ /\ _ |- _ => destruct H end.
  repeat split; congruence.
Qed.

Lemma same_identity_kind a b : Frames.same_identity a b -> Runs.same_kind a b.
Proof.
  unfold Frames.same_identity, Runs.same_kind. intros H.
  repeat match goal with H : _ /\ _ |- _ => destruct H end.
  repeat split; congruence.
Qed.

Lemma same_but_lane_kind a b : Frames.same_but_lane a b -> Runs.same_kind a b.
Proof.
  unfold Frames.same_but_lane, Runs.same_kind. intros H.
  repeat match goal with H : _ /\ _ |- _ => destruct H end.
  repeat split; congruence.
Qed.

Lemma same_but_lane_passed a b :
  Frames.same_but_lane a b ->
  Vehicle.passed_intersection b = Vehicle.passed_intersection a.
Proof.
  unfold Frames.same_but_lane. intros H.
  repeat match goal with H : _ /\ _ |- _ => destruct H end.
  assumption.
Qed.

Lemma carried_refl vs : Runs.carried vs vs.
Proof.
  split; [reflexivity|]. intros k v Hk. exists v.
  split; [exact Hk|]. split; [apply same_kind_refl|]. auto.
Qed.

Lemma carried_trans vs1 vs2 vs3 :
  Runs.carried vs1 vs2 -> Runs.carried vs2 vs3 -> Runs.carried vs1 vs3.
Proof.
  intros [L1 H1] [L2 H2]. split; [congruence|].
  intros k v Hk. destruct (H1 k v Hk) as (v1 & Hk1 & K1 & G1 & P1).
  destruct (H2 k v1 Hk1) as (v2 & Hk2 & K2 & G2 & P2).
  exists v2. split; [exact Hk2|].
  split; [eapply same_kind_trans; eauto|]. auto.
Qed.

Lemma update_vehicle_carried cfg i dt vehicles light ts :
  Runs.carried vehicles
    (TrafficSimulation.update_vehicle cfg i dt vehicles light ts).
Proof.
  destruct (KinematicsFacts.update_vehicle_local cfg i dt ts vehicles light)
    as [Hlen H].
  split; [exact Hlen|]. intros k v Hk.
  destruct (H k v Hk) as (v' & Hk' & Hg & Hsame & Hother).
  exists v'. split; [exact Hk'|].
  destruct (Nat.eq_dec k i) as [E | E].
  - destruct (Hsame E) as [Hid Hp].
    split; [now apply same_identity_kind|]. split; [exact Hg|].
    intros Hv. rewrite Hp, Hv. reflexivity.
  - destruct (Hother E) as [Hs _].
    split; [now apply same_but_lane_kind|]. split; [exact Hg|].
    intros Hv. now rewrite (same_but_lane_passed _ _ Hs).
Qed.

Lemma attempt_carried cfg i vehicles :
  Runs.carried vehicles (Vehicle.attempt_lane_change cfg i vehicles).
Proof.
  destruct (ClearPathFacts.attempt_local cfg i vehicles) as [Hlen H].
  split; [exact Hlen|]. intros k v Hk.
  destruct (H k v Hk) as (v' & Hk' & Hs & _ & Hg).
  exists v'. split; [exact Hk'|].
  split; [now apply same_but_lane_kind|]. split; [exact Hg|].
  intros Hv. now rewrite (same_but_lane_passed _ _ Hs).
Qed.

Lemma vehicle_step_carried cfg dt light ts d k vehicles :
  Runs.carried vehicles (vehicle_step cfg dt light ts d k vehicles).
Proof.
  unfold vehicle_step.
  match goal with |- context [if ?c then _ else _] => destruct c end.
  - eapply carried_trans; [apply update_vehicle_carried|].
    apply attempt_carried.
  - apply update_vehicle_carried.
Qed.

Lemma vehicle_loop_carried cfg dt light ts d ks :
  forall vehicles,
    Runs.carried vehicles (vehicle_loop cfg dt light ts d ks vehicles).
Proof.
  induction ks as [|k ks IH]; intros vehicles; cbn [vehicle_loop].
  - apply carried_refl.
  - eapply carried_trans; [apply vehicle_step_carried | apply IH].
Qed.

(** X17. The vehicle loop of [update] ("Update vehicles"), with its
    updates, clearing passes and spontaneous lane changes, whatever is
    drawn: the list keeps its length, and the object at each index keeps
    its direction, dimensions, class and class parameters; an object that
    drives in the lane group of its direction still does after the loop,
    and a [passed_intersection] flag that is set is never cleared. *)
Theorem update_vehicles_carries :
  forall (cfg : Config) (dt ts : Q) (light : TrafficLight.t) (d : Draws)
         (vehicles : list Vehicle.t),
    List.length (update_vehicles cfg dt light ts d vehicles)
    = List.length vehicles
    /\ forall k v,
         vehicles !! k = Some v ->
         exists v',
           update_vehicles cfg dt light ts d vehicles !! k = Some v'
           /\ Runs.same_kind v v'
           /\ (Frames.in_lane_group v -> Frames.in_lane_group v')
           /\ (Vehicle.passed_intersection v = true ->
               Vehicle.passed_intersection v' = true).
Proof.
  intros. apply vehicle_loop_carried.
Qed.

Lemma carried_group vs vs' :
  Runs.carried vs vs' ->
  Forall Frames.in_lane_group vs -> Forall Frames.in_lane_group vs'.
Proof.
  intros [Hlen H] Hall. rewrite Forall_lookup in Hall |- *.
  intros k v' Hk'.
  destruct (vs !! k) as [v|] eqn:Hk.
  - destruct (H k v Hk) as (w & Hw & _ & Hg & _).
    assert (w = v') as <- by congruence. apply Hg. eapply Hall; eauto.
  - apply lookup_ge_None in Hk. apply lookup_lt_Some in Hk'. lia.
Qed.

(** The vehicle that [spawn_vehicle] may append. *)
Lemma spawn_vehicle_cases cfg rd fl rand vehicles :
  TrafficSimulation.spawn_vehicle cfg rd fl rand vehicles = vehicles
  \/ exists v,
       TrafficSimulation.spawn_vehicle cfg rd fl rand vehicles
       = vehicles ++ [v]
       /\ Frames.in_lane_group v
       /\ (-200 <= SCREEN_WIDTH cfg -> offscreen cfg v = false).
Proof.
  unfold TrafficSimulation.spawn_vehicle.
  destruct (TrafficSimulation.check_spawn _ _ _ _ _); [right | now left].
  eexists. split; [reflexivity|].
  match goal with |- context [TrafficSimulation.create_random_vehicle
                                ?c ?r ?a ?b ?l ?e] =>
    destruct (create_random_vehicle_fields c r a b l e)
      as (Hx & _ & Hl & Hd & _);
    set (w := TrafficSimulation.create_random_vehicle c r a b l e) in *
  end.
  unfold TrafficSimulation.spawn_lane, TrafficSimulation.spawn_direction,
    TrafficSimulation.spawn_x in *.
  split.
  - unfold Frames.in_lane_group. rewrite Hl, Hd.
    destruct (rd <? 0.5); [left | right]; (split; [reflexivity|]);
      destruct fl; [now left | now right | now left | now right].
  - intros Hw. unfold offscreen, is_offscreen. rewrite Hd, Hx.
    destruct (rd <? 0.5); cbn [Z.eqb Pos.eqb andb fst].
    + assert (E : (SCREEN_WIDTH cfg + 100 <? -100) = false)
        by (apply NumFacts.ltb_ge; lra).
      rewrite E. reflexivity.
    + assert (E : (SCREEN_WIDTH cfg + 100 <? -100) = false)
        by (apply NumFacts.ltb_ge; lra).
      rewrite E. reflexivity.
Qed.

(** One call of [update] on a running simulation. *)
Lemma update_running :
  forall (cfg : Config) (ctl : ControlConfig) (d : Draws) (self : t) (dt : Q),
    paused self = false ->
    let s' := update cfg ctl d self dt in
    paused s' = false
    /\ time_scale s' = time_scale self
    /\ total_distance_traveled s' = total_distance_traveled self
    /\ simulation_time s' = simulation_time self + dt * time_scale self
    /\ traffic_light s'
       = TrafficLight.update cfg (traffic_light self) dt (vehicles self)
           (time_scale self)
    /\ (total_cars_passed self <= total_cars_passed s')%Z
    /\ (total_cars_passed s' + Z.of_nat (List.length (vehicles s'))
        <= total_cars_passed self + Z.of_nat (List.length (vehicles self)) + 1)%Z
    /\ (List.length (pedestrians s') <= List.length (pedestrians self) + 1)%nat
    /\ Forall (fun p => Pedestrian.is_done p = false) (pedestrians s')
    /\ (-200 <= SCREEN_WIDTH cfg ->
        Forall (fun v => offscreen cfg v = false) (vehicles s'))
    /\ (spawn_timer s' = 0 \/ spawn_timer s' < SPAWN_INTERVAL cfg)
    /\ (pedestrian_spawn_timer s' = 0
        \/ pedestrian_spawn_timer s' < PEDESTRIAN_SPAWN_INTERVAL ctl)
    /\ (Forall Frames.in_lane_group (vehicles self) ->
        Forall Frames.in_lane_group (vehicles s')).
Proof.
  intros cfg ctl d self dt Hp s'. subst s'. unfold update. rewrite Hp.
  cbv zeta. rewrite remove_offscreen_spec.
  set (light := TrafficLight.update cfg (traffic_light self) dt
                  (vehicles self) (time_scale self)).
  set (moved := update_vehicles cfg dt light (time_scale self) d
                  (vehicles self)).
  pose proof (vehicle_loop_carried cfg dt light (time_scale self) d
                (seq 0 (List.length (vehicles self))) (vehicles self))
    as Hcar.
  fold (update_vehicles cfg dt light (time_scale self) d (vehicles self))
    in Hcar. fold moved in Hcar.
  set (kept := List.filter (fun v => negb (offscreen cfg v)) moved).
  set (peds := remove_done
                 (List.map (fun p => Pedestrian.update cfg p dt light
                                       (time_scale self))
                    (pedestrians self))).
  assert (Hkept_off : Forall (fun v => offscreen cfg v = false) kept).
  { apply List.Forall_forall. intros v Hv. unfold kept in Hv.
    apply filter_In in Hv as [_ Hv]. now apply negb_true_iff in Hv. }
  assert (Hcount : (List.length (List.filter (counted cfg) moved)
                    + List.length kept <= List.length (vehicles self))%nat).
  { destruct Hcar as [<- _]. unfold kept. clear.
    induction moved as [|v vs IH]; [cbn; lia|].
    cbn [List.filter]. unfold counted at 1.
    destruct (offscreen cfg v); cbn [negb andb];
      [destruct (Vehicle.passed_intersection v)|];
      cbn [List.length]; lia. }
  assert (Hkept_group : Forall Frames.in_lane_group (vehicles self) ->
                        Forall Frames.in_lane_group kept).
  { intros Hall. pose proof (carried_group _ _ Hcar Hall) as Hm.
    apply List.Forall_forall. intros v Hv. unfold kept in Hv.
    apply filter_In in Hv as [Hv _].
    rewrite List.Forall_forall in Hm. now apply Hm. }
  assert (Hpeds_done : Forall (fun p => Pedestrian.is_done p = false) peds).
  { apply List.Forall_forall. intros p Hp'. unfold peds, remove_done in Hp'.
    apply filter_In in Hp' as [_ Hp']. now apply negb_true_iff in Hp'. }
  assert (Hpeds_len : (List.length peds <= List.length (pedestrians self))%nat).
  { unfold peds, remove_done.
    etransitivity; [apply filter_length_le|]. now rewrite length_map. }
  unfold TrafficSimulation.spawn_phase, pedestrian_spawn_phase.
  destruct (SPAWN_INTERVAL cfg <=? spawn_timer self + dt * time_scale self)
    eqn:Es;
  destruct (PEDESTRIAN_SPAWN_INTERVAL ctl
            <=? pedestrian_spawn_timer self + dt * time_scale self) eqn:Ep;
  cbn [vehicles pedestrians traffic_light paused time_scale spawn_timer
       pedestrian_spawn_timer total_cars_passed total_distance_traveled
       simulation_time];
  (split; [reflexivity|]); (split; [reflexivity|]); (split; [reflexivity|]);
  (split; [reflexivity|]); (split; [reflexivity|]); (split; [lia|]).
  all: try (apply NumFacts.leb_gt in Es).
  all: try (apply NumFacts.leb_gt in Ep).
  all: assert (Hped_spawn :
         (List.length (if Num.ltb (pedestrian_rand d) 0.6%Q
                       then spawn_pedestrian cfg d peds else peds)
          <= List.length (pedestrians self) + 1)%nat
         /\ Forall (fun p => Pedestrian.is_done p = false)
              (if pedestrian_rand d <? 0.6
               then spawn_pedestrian cfg d peds else peds));
    [ destruct (pedestrian_rand d <? 0.6);
      [ unfold spawn_pedestrian; split;
        [ rewrite length_app; cbn [List.length]; lia
        | apply Forall_app; split;
          [exact Hpeds_done | constructor; [reflexivity | constructor]] ]
      | split; [lia | exact Hpeds_done] ]
    | destruct Hped_spawn as [Hps1 Hps2] ].
  all: try (destruct (spawn_vehicle_cases cfg (spawn_rand_direction d)
                        (spawn_first_lane d) (spawn_rand d) kept)
              as [Esp | (nv & Esp & Hng & Hno)]; rewrite Esp).
  all: repeat match goal with
         | |- _ /\ _ => split
         end.
  all: try rewrite length_app; cbn [List.length].
  all: try lia.
  all: try exact Hps2.
  all: try exact Hpeds_done.
  all: try (now left).
  all: try (right; assumption).
  all: try (intros Hw; apply Forall_app; split;
            [exact Hkept_off | constructor; [now apply Hno | constructor]]).
  all: try (intros _; exact Hkept_off).
  all: try (intros Hall; apply Forall_app; split;
            [now apply Hkept_group | constructor; [exact Hng | constructor]]).
  all: try exact Hkept_group.
Qed.

(** X18. One call of [update] on a running simulation, whatever is
    drawn. The pause flag, the time scale and [total_distance_traveled]
    are left as they are, the clock advances by [dt * time_scale], and the
    light is updated on the vehicles as they are before they move.
    [total_cars_passed] never goes down, and the vehicles kept and counted
    are at most those there were, plus the one spawned. After the call no
    pedestrian is done and (for a screen width of at least -200) no
    vehicle is off screen, each timer is 0 or below its interval, at most
    one pedestrian was added, and if every vehicle drove in the lane group
    of its direction before, every vehicle does afterwards. *)
Theorem update_tick :
  forall (cfg : Config) (ctl : ControlConfig) (d : Draws) (self : t) (dt : Q),
    paused self = false ->
    let s' := update cfg ctl d self dt in
    paused s' = false
    /\ time_scale s' = time_scale self
    /\ total_distance_traveled s' = total_distance_traveled self
    /\ simulation_time s' = simulation_time self + dt * time_scale self
    /\ traffic_light s'
       = TrafficLight.update cfg (traffic_light self) dt (vehicles self)
           (time_scale self)
    /\ (total_cars_passed self <= total_cars_passed s')%Z
    /\ (total_cars_passed s' + Z.of_nat (List.length (vehicles s'))
        <= total_cars_passed self + Z.of_nat (List.length (vehicles self)) + 1)%Z
    /\ (List.length (pedestrians s') <= List.length (pedestrians self) + 1)%nat
    /\ Forall (fun p => Pedestrian.is_done p = false) (pedestrians s')
    /\ (-200 <= SCREEN_WIDTH cfg ->
        Forall (fun v => offscreen cfg v = false) (vehicles s'))
    /\ (spawn_timer s' = 0 \/ spawn_timer s' < SPAWN_INTERVAL cfg)
    /\ (pedestrian_spawn_timer s' = 0
        \/ pedestrian_spawn_timer s' < PEDESTRIAN_SPAWN_INTERVAL ctl)
    /\ (Forall Frames.in_lane_group (vehicles self) ->
        Forall Frames.in_lane_group (vehicles s')).
Proof.
  exact update_running.
Qed.

(** The theorem on one frame of [SimulationScenes.sample_simulation]. *)
Lemma update_tick_witness :
  paused (update sample_config SimulationScenes.sample_control
            SimulationScenes.sample_draws SimulationScenes.sample_simulation
            (1 # 60)) = false
  /\ simulation_time
       (update sample_config SimulationScenes.sample_control
          SimulationScenes.sample_draws SimulationScenes.sample_simulation
          (1 # 60))
     = simulation_time SimulationScenes.sample_simulation
       + (1 # 60) * time_scale SimulationScenes.sample_simulation.
Proof.
  destruct (update_tick sample_config SimulationScenes.sample_control
              SimulationScenes.sample_draws SimulationScenes.sample_simulation
              (1 # 60)) as (H1 & _ & _ & H4 & _); [reflexivity|].
  split; [exact H1 | exact H4].
Defined.

Lemma initial_group cfg ctl d :
  Forall Frames.in_lane_group (spawn_initial_vehicles cfg ctl d []).
Proof.
  apply Forall_lookup. intros i v Hv. apply initial_lookup in Hv.
  destruct Hv as [[_ ->] | [_ ->]].
  - unfold initial_right.
    match goal with |- context [TrafficSimulation.create_random_vehicle
                                  ?c ?r ?a ?b ?l ?e] =>
      destruct (create_random_vehicle_fields c r a b l e)
        as (_ & _ & Hl & Hd & _)
    end.
    left. split; [exact Hd|]. rewrite Hl.
    destruct (right_first_lane d i); [now left | now right].
  - unfold initial_left.
    match goal with |- context [TrafficSimulation.create_random_vehicle
                                  ?c ?r ?a ?b ?l ?e] =>
      destruct (create_random_vehicle_fields c r a b l e)
        as (_ & _ & Hl & Hd & _)
    end.
    right. split; [exact Hd|]. rewrite Hl.
    destruct (left_first_lane d _); [now left | now right].
Qed.

(** X19. What holds at every point of a run of the main loop, whatever
    keys are pressed and whatever is drawn: every vehicle drives in the
    lane group of its direction (right-moving in lanes 0 and 1,
    left-moving in lanes 2 and 3), no pedestrian of the list is done,
    [total_cars_passed] is not negative, and [total_distance_traveled] is
    still 0, since no method ever adds to it. If moreover
    [TIME_SCALE_MIN <= 1 <= TIME_SCALE_MAX] and the step is not negative,
    the time scale is within the two bounds. *)
Theorem reachable_invariant :
  forall (cfg : Config) (ctl : ControlConfig) (s : t),
    Runs.reachable cfg ctl s ->
    Forall Frames.in_lane_group (vehicles s)
    /\ Forall (fun p => Pedestrian.is_done p = false) (pedestrians s)
    /\ (0 <= total_cars_passed s)%Z
    /\ total_distance_traveled s = 0
    /\ (TIME_SCALE_MIN ctl <= 1 -> 1 <= TIME_SCALE_MAX ctl ->
        0 <= TIME_SCALE_STEP ctl ->
        TIME_SCALE_MIN ctl <= time_scale s
        /\ time_scale s <= TIME_SCALE_MAX ctl).
Proof.
  intros cfg ctl s Hr.
  induction Hr as [d | d s key Hr (Hg & Hd & Hc & Ht & Hs)
                     | d s dt Hr (Hg & Hd & Hc & Ht & Hs)].
  - cbn. split; [apply initial_group|]. split; [constructor|].
    split; [lia|]. split; [reflexivity|]. intros; split; assumption.
  - destruct key; cbn.
    + repeat split; auto; now apply Hs.
    + split; [exact Hg|]. split; [exact Hd|]. split; [exact Hc|].
      split; [exact Ht|]. intros H1 H2 H3. destruct (Hs H1 H2 H3) as [Ha Hb].
      destruct (NumFacts.min2_cases (time_scale s + TIME_SCALE_STEP ctl)
                  (TIME_SCALE_MAX ctl)) as [[H ->] | [H ->]]; split; lra.
    + split; [exact Hg|]. split; [exact Hd|]. split; [exact Hc|].
      split; [exact Ht|]. intros H1 H2 H3. destruct (Hs H1 H2 H3) as [Ha Hb].
      destruct (NumFacts.max2_cases (time_scale s - TIME_SCALE_STEP ctl)
                  (TIME_SCALE_MIN ctl)) as [[H ->] | [H ->]]; split; lra.
    + repeat split; auto; now apply Hs.
    + split; [apply initial_group|]. split; [constructor|].
      split; [lia|]. split; [exact Ht|]. exact Hs.
    + repeat split; auto; now apply Hs.
  - destruct (paused s) eqn:Hp.
    + assert (E : update cfg ctl d s dt = s)
        by (unfold update; now rewrite Hp).
      rewrite E. repeat split; auto; now apply Hs.
    + destruct (update_running cfg ctl d s dt Hp)
        as (_ & Hts & Htd & _ & _ & Hc' & _ & _ & Hd' & _ & _ & _ & Hg').
      split; [now apply Hg'|]. split; [exact Hd'|]. split; [lia|].
      split; [congruence|]. rewrite Hts. exact Hs.
Qed.

(** The theorem after a frame, a press of [K_UP] and another frame. *)
Lemma reachable_invariant_witness :
  total_distance_traveled
    (update sample_config SimulationScenes.sample_control
       SimulationScenes.sample_draws
       (handle_keypress sample_config SimulationScenes.sample_control
          SimulationScenes.sample_initial_draws
          (update sample_config SimulationScenes.sample_control
             SimulationScenes.sample_draws
             SimulationScenes.sample_simulation (1 # 60))
          K_UP)
       (1 # 60))
  = 0.
Proof.
  destruct (reachable_invariant sample_config SimulationScenes.sample_control
              (update sample_config SimulationScenes.sample_control
                 SimulationScenes.sample_draws
                 (handle_keypress sample_config
                    SimulationScenes.sample_control
                    SimulationScenes.sample_initial_draws
                    (update sample_config SimulationScenes.sample_control
                       SimulationScenes.sample_draws
                       SimulationScenes.sample_simulation (1 # 60))
                    K_UP)
                 (1 # 60)))
    as (_ & _ & _ & H & _); [|exact H].
  apply Runs.reach_update, Runs.reach_keypress, Runs.reach_update.
  apply Runs.reach_init.
Defined.


End SimulationFacts.
